(** * Verification of the document retrieval core of excellor-ai

    The development embeds the chunker ([chunkText], lib/documentProcessor)
    and the vector database ([generateEmbedding], [storeDocument],
    [searchSimilarChunks], ..., lib/vectorDatabase) as Rocq functions and
    proves the properties the specification states about them. *)

From Stdlib Require Import ZArith NArith QArith Qminmax List String Ascii Lia.
From Stdlib Require Import Reals Lra PrimFloat DecimalString DecimalNat Qround.
From Stdlib Require Import Floats Zpower Qreals.
From stdpp Require Import base gmap list strings sorting.

Local Open Scope Z_scope.

(** ** JavaScript strings and arrays *)

Module JS.

(** A string is its sequence of UTF-16 code units ([charCodeAt]). *)
Definition jsstring := list N.

Definition js (s : string) : jsstring :=
  List.map N_of_ascii (list_ascii_of_string s).

(** White space and line terminators: what [\s] matches and [trim] strips. *)
Definition is_space (c : N) : bool :=
  match c with
  | 9 | 10 | 11 | 12 | 13 | 32 | 160 | 5760
  | 8232 | 8233 | 8239 | 8287 | 12288 | 65279 => true
  | _ => ((8192 <=? c) && (c <=? 8202))%N
  end%N.

(** The character class [[.!?]]. *)
Definition is_sentence_end (c : N) : bool :=
  match c with
  | 46 | 33 | 63 => true
  | _ => false
  end%N.

Fixpoint trimStart (s : jsstring) : jsstring :=
  match s with
  | c :: s' => if is_space c then trimStart s' else s
  | [] => []
  end.

Definition trim (s : jsstring) : jsstring :=
  rev (trimStart (rev (trimStart s))).

(** [s.split(/[class]+/)]: the pieces between maximal runs of characters of
    the class.  [acc] holds the current piece reversed; [in_run] tells that
    the previous character belonged to a separator run. *)
Fixpoint split_runs_aux (p : N -> bool) (s : jsstring) (acc : jsstring)
    (in_run : bool) : list jsstring :=
  match s with
  | [] => [rev acc]
  | c :: s' =>
      if p c then
        if in_run then split_runs_aux p s' acc true
        else rev acc :: split_runs_aux p s' [] true
      else split_runs_aux p s' (c :: acc) false
  end.

Definition split_runs (p : N -> bool) (s : jsstring) : list jsstring :=
  split_runs_aux p s [] false.

(** [s.split(sep)] for a one-character separator string. *)
Fixpoint split_char_aux (sep : N) (s : jsstring) (acc : jsstring)
    : list jsstring :=
  match s with
  | [] => [rev acc]
  | c :: s' =>
      if (c =? sep)%N then rev acc :: split_char_aux sep s' []
      else split_char_aux sep s' (c :: acc)
  end.

Definition split_char (sep : N) (s : jsstring) : list jsstring :=
  split_char_aux sep s [].

(** [a.join(sep)] *)
Fixpoint join (sep : jsstring) (a : list jsstring) : jsstring :=
  match a with
  | [] => []
  | [x] => x
  | x :: a' => x ++ sep ++ join sep a'
  end.

(** ToIntegerOrInfinity on a rational: truncation towards zero. *)
Definition to_integer (q : Q) : Z := Z.quot (Qnum q) (Z.pos (Qden q)).

(** [a.slice(start)] *)
Definition slice_from {A} (start : Z) (a : list A) : list A :=
  let len := Z.of_nat (length a) in
  let k := if start <? 0 then Z.max (len + start) 0 else Z.min start len in
  drop (Z.to_nat k) a.

(** [a.slice(0, end)] *)
Definition slice_to {A} (end_ : Z) (a : list A) : list A :=
  let len := Z.of_nat (length a) in
  let k := if end_ <? 0 then Z.max (len + end_) 0 else Z.min end_ len in
  take (Z.to_nat k) a.

(** ToInt32 of an integer-valued number. *)
Definition to_int32 (z : Z) : Z := (z + 2 ^ 31) mod 2 ^ 32 - 2 ^ 31.

(** A string is truthy when it is not empty. *)
Definition truthy (s : jsstring) : bool :=
  match s with [] => false | _ => true end.

End JS.

(** ** The chunker ([chunkText]) *)

Module Chunker.
Import JS.

Definition period : jsstring := [46%N].
Definition period_space : jsstring := [46%N; 32%N].
Definition space : jsstring := [32%N].

(** The state of the loop over the sentences: the chunks pushed so far and
    the running buffer [currentChunk]. *)
Record loop_state := { chunks : list jsstring; currentChunk : jsstring }.

(** The words of the closed chunk that seed the next buffer:
    [words.slice(-Math.min(overlap / 5, words.length / 2))]. *)
Definition overlapWords (overlap : Z) (current : jsstring) : list jsstring :=
  let words := split_char 32%N current in
  slice_from
    (to_integer (- Qmin (inject_Z overlap / 5)
                        (inject_Z (Z.of_nat (length words)) / 2))%Q)
    words.

(** One iteration of [for (const sentence of sentences)]. *)
Definition step (maxChunkSize overlap : Z) (st : loop_state)
    (sentence : jsstring) : loop_state :=
  let trimmedSentence := trim sentence in
  if negb (truthy trimmedSentence) then st
  else
    let cur := currentChunk st in
    let proposedChunk :=
      cur ++ (if truthy cur then period_space else []) ++ trimmedSentence in
    if Z.of_nat (length proposedChunk) <=? maxChunkSize then
      {| chunks := chunks st; currentChunk := proposedChunk |}
    else if truthy cur then
      let ow := overlapWords overlap cur in
      {| chunks := chunks st ++ [cur ++ period];
         currentChunk :=
           join space ow
             ++ (if (0 <? length ow)%nat then period_space else [])
             ++ trimmedSentence |}
    else
      {| chunks := chunks st; currentChunk := trimmedSentence |}.

Definition sentences_of (text : jsstring) : list jsstring :=
  List.filter (fun s => (0 <? length (trim s))%nat)
    (split_runs is_sentence_end text).

Definition chunkText (text : jsstring) (maxChunkSize overlap : Z)
    : list jsstring :=
  let st :=
    fold_left (step maxChunkSize overlap) (sentences_of text)
      {| chunks := []; currentChunk := [] |} in
  let all :=
    if truthy (currentChunk st) then chunks st ++ [currentChunk st ++ period]
    else chunks st in
  List.filter (fun chunk => (10 <? length (trim chunk))%nat) all.

(** [chunkText(text)] with the default parameters. *)
Definition chunkText_default (text : jsstring) : list jsstring :=
  chunkText text 1000 100.

(** A text of two sentences, none longer than 1000 characters: 300 times
    [a], a space and 300 times [b]; then 900 times [c]. *)
Definition first_sentence : jsstring :=
  repeat 97%N 300 ++ space ++ repeat 98%N 300.
Definition second_sentence : jsstring := repeat 99%N 900.
Definition overflowing_text : jsstring :=
  first_sentence ++ period_space ++ second_sentence ++ period.

End Chunker.

(** ** JavaScript numbers

    The arithmetic the code performs on [number] values.  The vector
    database is written once over this interface and read at two
    instances: IEEE binary64 ([float_number], what the engine computes)
    and the real numbers ([real_number], the same expressions without
    rounding, overflow or NaN). *)

Class Number := {
  num : Type;
  zero : num;
  one : num;
  tenth : num;                      (* the literal 0.1 *)
  nan : num;                        (* what arithmetic on [undefined] gives *)
  add : num -> num -> num;
  sub : num -> num -> num;
  mul : num -> num -> num;
  div : num -> num -> num;
  sqrt : num -> num;                (* Math.sqrt *)
  gtb : num -> num -> bool;         (* a > b *)
  eqb : num -> num -> bool;         (* a === b *)
}.

Definition float_number : Number := {|
  num := PrimFloat.float;
  zero := 0%float;
  one := 1%float;
  tenth := 0x1.999999999999ap-4%float;   (* the double nearest to 0.1 *)
  nan := PrimFloat.nan;
  add := PrimFloat.add;
  sub := PrimFloat.sub;
  mul := PrimFloat.mul;
  div := PrimFloat.div;
  sqrt := PrimFloat.sqrt;
  gtb := fun a b => PrimFloat.ltb b a;
  eqb := PrimFloat.eqb;
|}.

Definition real_number : Number := {|
  num := R;
  zero := 0%R;
  one := 1%R;
  tenth := (1 / 10)%R;
  nan := 0%R;                       (* no NaN among the reals *)
  add := Rplus;
  sub := Rminus;
  mul := Rmult;
  div := Rdiv;
  sqrt := R_sqrt.sqrt;
  gtb := fun a b => if Rlt_dec b a then true else false;
  eqb := fun a b => if Req_dec_T a b then true else false;
|}.

(** ** Binary64 numbers as real numbers *)

Module Binary64.



(** The unit roundoff the proofs work with: 2^-52. *)
Definition u : R := powerRZ 2 (-52).








End Binary64.

(** ** Results of fallible code *)

Inductive error := Error (message : string).

Inductive result (A : Type) :=
  | Ok (a : A)
  | Throw (e : error).
Arguments Ok {A} a.
Arguments Throw {A} e.

Definition result_bind {A B} (r : result A) (k : A -> result B) : result B :=
  match r with
  | Ok a => k a
  | Throw e => Throw e
  end.

Fixpoint result_mapM {A B} (f : A -> result B) (l : list A)
    : result (list B) :=
  match l with
  | [] => Ok []
  | x :: l' =>
      result_bind (f x) (fun y =>
      result_bind (result_mapM f l') (fun ys => Ok (y :: ys)))
  end.

(** ** The embedding provider *)

Module Embedding.
Import JS.

(** What the remote service call can come to, as the code inspects it.
    An array found under [data[0].embedding] is taken for the [number[]]
    the code declares it to be. *)
Inductive embedding_field {N : Number} :=
  | EmbFalsy                        (* missing, null or another falsy value *)
  | EmbNotArray                     (* a truthy value that is not an array *)
  | EmbArray (v : list num).

Inductive response_body {N : Number} :=
  | BodyNoData                      (* [data.data] falsy, or [data] null *)
  | BodyNoFirst                     (* [data.data[0]] falsy *)
  | BodyFirst (e : embedding_field).

Inductive remote_outcome {N : Number} :=
  | FetchRejected                   (* [fetch] rejects *)
  | HttpNotOk                       (* [!response.ok] *)
  | JsonRejected                    (* [response.json()] rejects *)
  | JsonBody (b : response_body).

Definition EMBEDDING_DIMENSIONS : Z := 3072.

(** [simpleHash]: [hash << 5] and [hash & hash] wrap to 32 bits. *)
Definition simpleHash (str : jsstring) : Z :=
  Z.abs
    (fold_left
       (fun hash char => to_int32 (to_int32 (hash * 32) - hash + Z.of_N char))
       str 0).

Section WithHost.
Context {N : Number}.

(** The host: the Unicode lower-casing of the engine, the configured
    credential and the behaviour of the remote service. *)
Variable toLowerCase : jsstring -> jsstring.
Variable AZURE_OPENAI_API_KEY : option jsstring.
Variable fetch_embedding : jsstring -> remote_outcome.

(** [vector[i] += d].  Past the end JavaScript extends the array: the
    slots in between are holes and the new slot holds [undefined + d], not
    a number.  (The indices of this program are remainders of non-negative
    numbers, never negative.) *)
Definition add_at (i : Z) (d : num) (vector : list num) : list num :=
  if (i <? Z.of_nat (length vector)) && (0 <=? i) then
    alter (fun x => add x d) (Z.to_nat i) vector
  else
    vector ++ replicate (Z.to_nat i - length vector) nan ++ [nan].

Definition sum_squares (vector : list num) : num :=
  fold_left (fun sum val => add sum (mul val val)) vector zero.

(** The vector of [generateSimpleVector] before it is normalized. *)
Definition featureVector (text : jsstring) : list num :=
  let vector := replicate (Z.to_nat EMBEDDING_DIMENSIONS) zero in
  let words := split_runs is_space (toLowerCase text) in
  let vector :=
    fold_left
      (fun vector word =>
         add_at (Z.rem (simpleHash word) EMBEDDING_DIMENSIONS) one vector)
      words vector in
  fold_left
    (fun vector charCode =>
       add_at (Z.rem (Z.of_N charCode * 17) EMBEDDING_DIMENSIONS) tenth vector)
    text vector.

Definition generateSimpleVector (text : jsstring) : list num :=
  let vector := featureVector text in
  let magnitude := sqrt (sum_squares vector) in
  if gtb magnitude zero then List.map (fun val => div val magnitude) vector
  else vector.

(** The body of the [try] block of [generateEmbedding]. *)
Definition generateEmbedding_try (text : jsstring) : result (list num) :=
  match AZURE_OPENAI_API_KEY with
  | None | Some [] => Ok (generateSimpleVector text)
  | Some _ =>
      match fetch_embedding text with
      | FetchRejected => Throw (Error "fetch failed")
      | HttpNotOk => Throw (Error "Azure OpenAI API error")
      | JsonRejected => Throw (Error "invalid JSON")
      | JsonBody BodyNoData | JsonBody BodyNoFirst
      | JsonBody (BodyFirst EmbFalsy) =>
          Throw (Error "Invalid response format from Azure OpenAI API")
      | JsonBody (BodyFirst EmbNotArray) =>
          Throw (Error "Invalid embedding dimensions")
      | JsonBody (BodyFirst (EmbArray embedding)) =>
          if negb (Z.of_nat (length embedding) =? EMBEDDING_DIMENSIONS) then
            Throw (Error "Invalid embedding dimensions")
          else Ok embedding
      end
  end.

Definition generateEmbedding (text : jsstring) : result (list num) :=
  match generateEmbedding_try text with
  | Ok embedding => Ok embedding
  | Throw _ => Ok (generateSimpleVector text)
  end.

End WithHost.

(** Lower-casing restricted to the ASCII letters, for running examples. *)
Definition ascii_toLowerCase (s : jsstring) : jsstring :=
  List.map (fun c => if ((65 <=? c) && (c <=? 90))%N then (c + 32)%N else c) s.


End Embedding.

(** ** The corpus store and the search engine (lib/vectorDatabase) *)

Module VectorDB.
Import JS Embedding.

Inductive doc_type := pdf | docx | txt.

Record Metadata := {
  source : jsstring;
  page : option Z;
  chunkIndex : Z;
  meta_type : doc_type;
}.

Record DocumentChunk {N : Number} := {
  chunk_id : jsstring;
  content : jsstring;
  metadata : Metadata;
  embedding : option (list num);
}.

(** [createdAt] is the time value of the [Date], in milliseconds. *)
Record ProcessedDocument {N : Number} := {
  doc_id : jsstring;
  name : jsstring;
  doc_type_of : doc_type;
  doc_chunks : list DocumentChunk;
  totalPages : option Z;
  createdAt : Z;
}.

(** The value kept per chunk id in the embeddings collection. *)
Record EmbeddingData {N : Number} := {
  documentId : jsstring;
  emb_embedding : option (list num);
  emb_content : jsstring;
  emb_metadata : Metadata;
}.

(** A search result: the chunk, and its score on the semantic path. *)
Record SearchHit {N : Number} := {
  hit_chunk : DocumentChunk;
  similarity : option num;
}.

Inductive db := Documents | Embeddings.

(** What an operation does to its surroundings, in order. *)
Inductive event :=
  | EvGetItem (d : db) (key : jsstring)
  | EvSetItem (d : db) (key : jsstring)
  | EvRemoveItem (d : db) (key : jsstring)
  | EvClear (d : db)
  | EvIterate (d : db)
  | EvStorageError
  | EvLog (message : string).

(** The browser side of the program: the two localforage collections, the
    outcome of the coming storage calls ([true]: the call rejects; past the
    end of the list every call succeeds) and the events so far. *)
Record World {N : Number} := {
  window_defined : bool;
  documentsDB : gmap jsstring ProcessedDocument;
  embeddingsDB : gmap jsstring EmbeddingData;
  faults : list bool;
  trace : list event;
}.

Section Store.
Context {N : Number}.

(** Asynchronous code: a state transformer that returns or throws. *)
Definition M (A : Type) : Type := World -> result A * World.

Definition ret {A} (a : A) : M A := fun w => (Ok a, w).
Definition throw {A} (e : error) : M A := fun w => (Throw e, w).
Definition bind {A B} (m : M A) (k : A -> M B) : M B :=
  fun w =>
    match m w with
    | (Ok a, w') => k a w'
    | (Throw e, w') => (Throw e, w')
    end.
Definition try_catch {A} (m : M A) (handler : error -> M A) : M A :=
  fun w =>
    match m w with
    | (Ok a, w') => (Ok a, w')
    | (Throw e, w') => handler e w'
    end.
Definition lift {A} (r : result A) : M A := fun w => (r, w).

Fixpoint for_each {A} (f : A -> M unit) (l : list A) : M unit :=
  match l with
  | [] => ret tt
  | x :: l' => bind (f x) (fun _ => for_each f l')
  end.

Definition emit (ev : event) (w : World) : World :=
  {| window_defined := window_defined w;
     documentsDB := documentsDB w;
     embeddingsDB := embeddingsDB w;
     faults := faults w;
     trace := trace w ++ [ev] |}.

Definition set_faults (fs : list bool) (w : World) : World :=
  {| window_defined := window_defined w;
     documentsDB := documentsDB w;
     embeddingsDB := embeddingsDB w;
     faults := fs;
     trace := trace w |}.

Definition set_documentsDB (m : gmap jsstring ProcessedDocument) (w : World)
    : World :=
  {| window_defined := window_defined w;
     documentsDB := m;
     embeddingsDB := embeddingsDB w;
     faults := faults w;
     trace := trace w |}.

Definition set_embeddingsDB (m : gmap jsstring EmbeddingData) (w : World)
    : World :=
  {| window_defined := window_defined w;
     documentsDB := documentsDB w;
     embeddingsDB := m;
     faults := faults w;
     trace := trace w |}.

Definition console_log (message : string) : M unit :=
  fun w => (Ok tt, emit (EvLog message) w).

(** A call into localforage: it rejects when the next fault flag says so,
    and otherwise runs [op] and records [ev]. *)
Definition storage_call {A} (ev : event) (op : World -> A * World) : M A :=
  fun w =>
    match faults w with
    | true :: fs =>
        (Throw (Error "storage error"), emit EvStorageError (set_faults fs w))
    | _ =>
        let (a, w') := op (set_faults (tail (faults w)) w) in
        (Ok a, emit ev w')
    end.

Definition initializeDatabases : M unit :=
  fun w =>
    if window_defined w then (Ok tt, w)
    else (Throw (Error "Database operations only available in browser environment"), w).

Definition documents_setItem (key : jsstring) (value : ProcessedDocument)
    : M unit :=
  storage_call (EvSetItem Documents key)
    (fun w => (tt, set_documentsDB (<[key := value]> (documentsDB w)) w)).

Definition documents_getItem (key : jsstring) : M (option ProcessedDocument) :=
  storage_call (EvGetItem Documents key)
    (fun w => (documentsDB w !! key, w)).

Definition documents_removeItem (key : jsstring) : M unit :=
  storage_call (EvRemoveItem Documents key)
    (fun w => (tt, set_documentsDB (delete key (documentsDB w)) w)).

Definition documents_clear : M unit :=
  storage_call (EvClear Documents) (fun w => (tt, set_documentsDB ∅ w)).

(** [iterate] hands every stored value, with its key, to the callback. *)
Definition documents_iterate : M (list (jsstring * ProcessedDocument)) :=
  storage_call (EvIterate Documents)
    (fun w => (map_to_list (documentsDB w), w)).

Definition embeddings_setItem (key : jsstring) (value : EmbeddingData)
    : M unit :=
  storage_call (EvSetItem Embeddings key)
    (fun w => (tt, set_embeddingsDB (<[key := value]> (embeddingsDB w)) w)).

Definition embeddings_removeItem (key : jsstring) : M unit :=
  storage_call (EvRemoveItem Embeddings key)
    (fun w => (tt, set_embeddingsDB (delete key (embeddingsDB w)) w)).

Definition embeddings_clear : M unit :=
  storage_call (EvClear Embeddings) (fun w => (tt, set_embeddingsDB ∅ w)).

Definition embeddings_iterate : M (list (jsstring * EmbeddingData)) :=
  storage_call (EvIterate Embeddings)
    (fun w => (map_to_list (embeddingsDB w), w)).

(** The events an operation adds when run from [w]. *)
Definition events_during {A} (m : M A) (w : World) : list event :=
  drop (length (trace w)) (trace (snd (m w))).

(** [a.sort(compare)], stable; [swap x y] says [compare(x, y) > 0], that
    is, [y] is to come first.  Every stable sort gives this result when
    the comparison is consistent. *)
Fixpoint sort_insert {A} (swap : A -> A -> bool) (x : A) (l : list A)
    : list A :=
  match l with
  | [] => [x]
  | y :: l' => if swap x y then y :: sort_insert swap x l' else x :: l
  end.

Fixpoint js_sort {A} (swap : A -> A -> bool) (l : list A) : list A :=
  match l with
  | [] => []
  | x :: l' => sort_insert swap x (js_sort swap l')
  end.

End Store.

Notation "'let*' x ':=' m 'in' k" := (bind m (fun x => k))
  (at level 10, x binder, m at level 100, k at level 200).

(** [a.reduce((acc, val, i) => f(acc, val, i), init)] *)
Fixpoint reduce_from {A B} (f : B -> A -> nat -> B) (l : list A) (i : nat)
    (acc : B) : B :=
  match l with
  | [] => acc
  | x :: l' => reduce_from f l' (S i) (f acc x i)
  end.

Definition reduce {A B} (f : B -> A -> nat -> B) (l : list A) (init : B) : B :=
  reduce_from f l 0%nat init.

Section Operations.
Context {N : Number}.

Variable toLowerCase : jsstring -> jsstring.
Variable AZURE_OPENAI_API_KEY : option jsstring.
Variable fetch_embedding : jsstring -> remote_outcome.

(** Fuse.js over the [content] key with threshold 0.4: the items that
    match the query, best score first. *)
Variable fuse_search : list DocumentChunk -> jsstring -> list DocumentChunk.

Definition embed : jsstring -> result (list num) :=
  generateEmbedding toLowerCase AZURE_OPENAI_API_KEY fetch_embedding.

(** [{ ...chunk, embedding }] *)
Definition with_embedding (chunk : DocumentChunk) (e : list num)
    : DocumentChunk :=
  {| chunk_id := chunk_id chunk;
     content := content chunk;
     metadata := metadata chunk;
     embedding := Some e |}.

(** [{ ...document, chunks }] *)
Definition with_chunks (document : ProcessedDocument)
    (cs : list DocumentChunk) : ProcessedDocument :=
  {| doc_id := doc_id document;
     name := name document;
     doc_type_of := doc_type_of document;
     doc_chunks := cs;
     totalPages := totalPages document;
     createdAt := createdAt document |}.

Definition embedding_record (document : ProcessedDocument)
    (chunk : DocumentChunk) : EmbeddingData :=
  {| documentId := doc_id document;
     emb_embedding := embedding chunk;
     emb_content := content chunk;
     emb_metadata := metadata chunk |}.

Definition storeDocument (document : ProcessedDocument) : M unit :=
  try_catch
    (let* _ := initializeDatabases in
     let* chunksWithEmbeddings :=
       lift (result_mapM
               (fun chunk =>
                  result_bind (embed (content chunk))
                    (fun e => Ok (with_embedding chunk e)))
               (doc_chunks document)) in
     let documentWithEmbeddings := with_chunks document chunksWithEmbeddings in
     let* _ := documents_setItem (doc_id document) documentWithEmbeddings in
     for_each
       (fun chunk =>
          embeddings_setItem (chunk_id chunk) (embedding_record document chunk))
       chunksWithEmbeddings)
    (fun e =>
       let 'Error message := e in
       throw (Error (String.append "Failed to store document: " message))).

Definition getAllDocuments : M (list ProcessedDocument) :=
  try_catch
    (let* _ := initializeDatabases in
     let* entries := documents_iterate in
     let documents := List.map snd entries in
     ret (js_sort (fun a b => 0 <? createdAt b - createdAt a) documents))
    (fun _ => ret []).

Definition deleteDocument (documentId : jsstring) : M unit :=
  try_catch
    (let* _ := initializeDatabases in
     let* document := documents_getItem documentId in
     match document with
     | Some document =>
         let* _ :=
           for_each (fun chunk => embeddings_removeItem (chunk_id chunk))
             (doc_chunks document) in
         documents_removeItem documentId
     | None => ret tt
     end)
    (fun _ => throw (Error "Failed to delete document")).

Definition clearAllDocuments : M unit :=
  try_catch
    (let* _ := initializeDatabases in
     let* _ := documents_clear in
     embeddings_clear)
    (fun _ => throw (Error "Failed to clear documents")).

Definition cosineSimilarity (a b : list num) : num :=
  if negb (length a =? length b)%nat then zero
  else
    let dotProduct :=
      reduce (fun sum val i => add sum (mul val (nth i b nan))) a zero in
    let magnitudeA := sqrt (sum_squares a) in
    let magnitudeB := sqrt (sum_squares b) in
    if eqb magnitudeA zero || eqb magnitudeB zero then zero
    else div dotProduct (mul magnitudeA magnitudeB).

(** An element of [allChunks] in [searchSimilarChunks]. *)
Record ScoredChunk := { sc_chunk : DocumentChunk; sc_similarity : num }.

(** The callback of [embeddingsDB.iterate] in [searchSimilarChunks]: what
    one stored record adds to [allChunks]. *)
Definition score_entry (queryEmbedding : list num) (threshold : num)
    (entry : jsstring * EmbeddingData) : list ScoredChunk :=
  let (chunkId, embeddingData) := entry in
  match emb_embedding embeddingData with
  | Some e =>
      if truthy (emb_content embeddingData) then
        let similarity := cosineSimilarity queryEmbedding e in
        if gtb similarity threshold then
          [ {| sc_chunk :=
                 {| chunk_id := chunkId;
                    content := emb_content embeddingData;
                    metadata := emb_metadata embeddingData;
                    embedding := Some e |};
               sc_similarity := similarity |} ]
        else []
      else []
  | None => []
  end.

(** The callback of [embeddingsDB.iterate] in [fallbackTextSearch]. *)
Definition text_entry (entry : jsstring * EmbeddingData)
    : list DocumentChunk :=
  let (chunkId, embeddingData) := entry in
  if truthy (emb_content embeddingData) then
    [ {| chunk_id := chunkId;
         content := emb_content embeddingData;
         metadata := emb_metadata embeddingData;
         embedding := None |} ]
  else [].

Definition fallback_message : string := "Using fallback text search".

Definition fallbackTextSearch (query : jsstring) (topK : Z)
    : M (list SearchHit) :=
  let* _ := console_log fallback_message in
  let* _ := initializeDatabases in
  let* entries := embeddings_iterate in
  let allChunks := flat_map text_entry entries in
  let results := fuse_search allChunks query in
  ret (List.map (fun item => {| hit_chunk := item; similarity := None |})
         (slice_to topK results)).

Definition by_similarity (a b : ScoredChunk) : bool :=
  gtb (sub (sc_similarity b) (sc_similarity a)) zero.

Definition searchSimilarChunks (query : jsstring) (topK : Z)
    (threshold : num) : M (list SearchHit) :=
  try_catch
    (let* queryEmbedding := lift (embed query) in
     let* _ := initializeDatabases in
     let* entries := embeddings_iterate in
     let allChunks := flat_map (score_entry queryEmbedding threshold) entries in
     let sortedChunks := slice_to topK (js_sort by_similarity allChunks) in
     if (length sortedChunks =? 0)%nat then fallbackTextSearch query topK
     else
       ret (List.map
              (fun c => {| hit_chunk := sc_chunk c;
                           similarity := Some (sc_similarity c) |})
              sortedChunks))
    (fun _ => fallbackTextSearch query topK).

End Operations.

(** *** Notions the properties are stated with *)

Section Notions.
Context {N : Number}.

(** Neither collection changed, nor the environment. *)
Definition same_dbs (w w' : World) : Prop :=
  documentsDB w' = documentsDB w
  /\ embeddingsDB w' = embeddingsDB w
  /\ window_defined w' = window_defined w.

(** What the loops over the embeddings collection leave alone. *)
Definition same_documents (w w' : World) : Prop :=
  documentsDB w' = documentsDB w /\ window_defined w' = window_defined w.

(** Every run of [m] relates the world before to the world after. *)
Definition respects {A} (R : World -> World -> Prop) (m : M A) : Prop :=
  forall w r w', m w = (r, w') -> R w w'.

(** When [m] returns normally, no storage call of it was rejected. *)
Definition quiet {A} (m : M A) : Prop :=
  forall w a w',
    m w = (Ok a, w') ->
    exists evs, trace w' = trace w ++ evs /\ EvStorageError ∉ evs.

(** In a browser whose storage works, [m] returns normally. *)
Definition succeeds {A} (m : M A) : Prop :=
  forall w,
    window_defined w = true -> faults w = [] ->
    exists a w',
      m w = (Ok a, w') /\ window_defined w' = true /\ faults w' = [].

(** A rejected storage call makes the operation throw. *)
Definition propagates_storage_failure {A} (op : M A) : Prop :=
  forall w,
    EvStorageError ∈ events_during op w -> exists e, fst (op w) = Throw e.

(** [chunk'] is [chunk] with an embedding of 3072 entries. *)
Definition embedded (chunk chunk' : DocumentChunk) : Prop :=
  exists e,
    length e = 3072%nat /\ chunk' = with_embedding chunk e.

(** The corpus invariant: every embedding record is the record of a chunk
    of the stored document it names. *)
Definition corpus_consistent (w : World) : Prop :=
  forall c r,
    embeddingsDB w !! c = Some r ->
    exists document,
      documentsDB w !! documentId r = Some document
      /\ c ∈ List.map chunk_id (doc_chunks document).

(** The same, as a check that can be run. *)
Definition corpus_consistentb (w : World) : bool :=
  forallb
    (fun entry : jsstring * EmbeddingData =>
       match documentsDB w !! documentId (snd entry) with
       | Some document =>
           bool_decide (fst entry ∈ List.map chunk_id (doc_chunks document))
       | None => false
       end)
    (map_to_list (embeddingsDB w)).

(** The record takes part in the semantic search and scores above the
    threshold. *)
Definition exceeds (queryEmbedding : list num) (threshold : num)
    (r : EmbeddingData) : Prop :=
  exists e,
    emb_embedding r = Some e
    /\ truthy (emb_content r) = true
    /\ gtb (cosineSimilarity queryEmbedding e) threshold = true.

(** What [allChunks] of [searchSimilarChunks] holds for a store. *)
Definition semantic_candidates (queryEmbedding : list num) (threshold : num)
    (w : World) : list ScoredChunk :=
  flat_map (score_entry queryEmbedding threshold)
    (map_to_list (embeddingsDB w)).

Definition semantic_hit (c : ScoredChunk) : SearchHit :=
  {| hit_chunk := sc_chunk c; similarity := Some (sc_similarity c) |}.

(** The first [topK] matches of the text index over a store. *)
Definition lexical_hits
    (fuse_search : list DocumentChunk -> jsstring -> list DocumentChunk)
    (query : jsstring) (topK : Z) (w : World) : list SearchHit :=
  List.map (fun item => {| hit_chunk := item; similarity := None |})
    (slice_to topK
       (fuse_search (flat_map text_entry (map_to_list (embeddingsDB w)))
          query)).

(** A run of the lexical fallback from [w0]: it announces itself, reads
    the store only, and what it returns are the lexical hits. *)
Definition fallback_outcome
    (fuse_search : list DocumentChunk -> jsstring -> list DocumentChunk)
    (query : jsstring) (topK : Z) (w0 : World)
    (r : result (list SearchHit)) (w' : World) : Prop :=
  (exists evs, trace w' = trace w0 ++ EvLog fallback_message :: evs)
  /\ same_dbs w0 w'
  /\ forall hits, r = Ok hits -> hits = lexical_hits fuse_search query topK w0.

(** The text index only returns items it was given. *)
Definition returns_indexed_items
    (fuse_search : list DocumentChunk -> jsstring -> list DocumentChunk)
    : Prop :=
  forall items query item, item ∈ fuse_search items query -> item ∈ items.

End Notions.

(** *** What a search is to return, in the words of its description *)

Section Retrieval.
Context {N : Number}.




End Retrieval.


(** *** A small corpus, in binary64, to run the operations on *)

Module Sample.

Definition meta (i : Z) : Metadata :=
  {| source := js "notes.txt"; page := None; chunkIndex := i;
     meta_type := txt |}.

Definition chunk1 : DocumentChunk (N := float_number) :=
  {| chunk_id := js "c1"; content := js "the constitution of india";
     metadata := meta 0; embedding := None |}.

Definition chunk2 : DocumentChunk (N := float_number) :=
  {| chunk_id := js "c2"; content := js "fundamental rights and duties";
     metadata := meta 1; embedding := None |}.

Definition document1 : ProcessedDocument (N := float_number) :=
  {| doc_id := js "d1"; name := js "notes.txt"; doc_type_of := txt;
     doc_chunks := [chunk1; chunk2]; totalPages := None;
     createdAt := 1700000000000 |}.

Definition browser : World (N := float_number) :=
  {| window_defined := true; documentsDB := ∅; embeddingsDB := ∅;
     faults := []; trace := [] |}.

(** No credential, no network, and a text index that returns every item. *)
Definition no_key : option jsstring := None.
Definition offline : jsstring -> remote_outcome (N := float_number) :=
  fun _ => FetchRejected.
Definition fuse_all (items : list (DocumentChunk (N := float_number)))
    (query : jsstring) : list DocumentChunk := items.

Definition store1 : M unit :=
  storeDocument ascii_toLowerCase no_key offline document1.

Definition stored : World := snd (store1 browser).

(** The same corpus when the next storage call is rejected. *)
Definition failing : World :=
  {| window_defined := true;
     documentsDB := documentsDB stored;
     embeddingsDB := embeddingsDB stored;
     faults := [true];
     trace := [] |}.

End Sample.

End VectorDB.

(** ** Storage statistics ([getStorageStats], lib/vectorDatabase) *)

Module StorageStats.
Import JS VectorDB.

(** [String(n)] for a count. *)
Definition decimal (n : nat) : jsstring :=
  js (NilZero.string_of_uint (Nat.to_uint n)).

(** [Math.round] on a rational: the nearest integer, halves upwards. *)
Definition round (q : Q) : Z := Qfloor (q + (1 # 2))%Q.

Record Stats := {
  documentCount : nat;
  chunkCount : nat;
  totalSize : jsstring;
}.

Section Stats.
Context {N : Number}.

Definition getStorageStats : M Stats :=
  try_catch
    (let* documents := getAllDocuments in
     let totalChunks :=
       fold_left (fun sum doc => (sum + length (doc_chunks doc))%nat)
         documents 0%nat in
     ret {| documentCount := length documents;
            chunkCount := totalChunks;
            totalSize :=
              js "~"
                ++ decimal
                     (Z.to_nat
                        (round (inject_Z (Z.of_nat totalChunks) * (1 # 2))%Q))
                ++ js "KB" |})
    (fun _ =>
       ret {| documentCount := 0; chunkCount := 0; totalSize := js "0KB" |}).

End Stats.

End StorageStats.

(** ** The document processor (lib/documentProcessor) *)

Module DocumentProcessor.
Import JS Chunker VectorDB.

(** What the code reads of a [File]. *)
Record File := {
  file_name : jsstring;
  file_type : jsstring;                (* the declared MIME type *)
  file_size : Z;                       (* in bytes *)
}.

(** A thrown value: an [Error] with its message, or anything else. *)
Inductive thrown :=
  | ErrorObject (message : jsstring)
  | OtherValue.

Inductive outcome (A : Type) :=
  | Returned (a : A)
  | Raised (t : thrown).
Arguments Returned {A} a.
Arguments Raised {A} t.

(** [error instanceof Error ? error.message : fallback] *)
Definition message_or (fallback : jsstring) (t : thrown) : jsstring :=
  match t with
  | ErrorObject message => message
  | OtherValue => fallback
  end.

Fixpoint starts_with (prefix s : jsstring) : bool :=
  match prefix, s with
  | [], _ => true
  | p :: prefix', c :: s' => (p =? c)%N && starts_with prefix' s'
  | _ :: _, [] => false
  end.

(** [s.includes(needle)] *)
Fixpoint includes (needle s : jsstring) : bool :=
  starts_with needle s
  || match s with
     | [] => false
     | _ :: s' => includes needle s'
     end.

Definition same (a b : jsstring) : bool := bool_decide (a = b).

Section WithHost.
Variable toLowerCase : jsstring -> jsstring.

(** [file.name.toLowerCase().split('.').pop()] *)
Definition extension_of (file : File) : option jsstring :=
  last (split_char 46%N (toLowerCase (file_name file))).

Definition getFileType (file : File) : outcome doc_type :=
  if same (file_type file) (js "application/pdf") then Returned pdf
  else if same (file_type file)
            (js "application/vnd.openxmlformats-officedocument.wordprocessingml.document")
  then Returned docx
  else if same (file_type file) (js "text/plain") then Returned txt
  else
    match extension_of file with
    | Some extension =>
        if same extension (js "pdf") then Returned pdf
        else if same extension (js "docx") then Returned docx
        else if same extension (js "txt") then Returned txt
        else Raised (ErrorObject
                       (js "Unsupported file type: " ++ file_type file))
    | None =>
        Raised (ErrorObject (js "Unsupported file type: " ++ file_type file))
    end.

Record Validation := { valid : bool; validation_error : option jsstring }.

Definition validateFile (file : File) : Validation :=
  let maxSize := 10 * 1024 * 1024 in
  let supportedTypes :=
    [ js "application/pdf";
      js "application/vnd.openxmlformats-officedocument.wordprocessingml.document";
      js "text/plain" ] in
  if maxSize <? file_size file then
    {| valid := false;
       validation_error := Some (js "File size must be less than 10MB") |}
  else
    let extension := extension_of file in
    let isValidType :=
      existsb (same (file_type file)) supportedTypes
      || existsb (same (default [] extension))
           [js "pdf"; js "docx"; js "txt"] in
    if negb isValidType then
      {| valid := false;
         validation_error := Some (js "Supported formats: PDF, DOCX, TXT") |}
    else {| valid := true; validation_error := None |}.

(** What pdf.js makes of the file: loading fails, or the document has
    pages, each of which fails or gives text items (an item without [str]
    is [None]). *)
Inductive page_outcome :=
  | PageFails
  | PageItems (items : list (option jsstring)).

Inductive pdf_outcome :=
  | PdfFails (t : thrown)
  | PdfPages (pages : list page_outcome).

(** [s.replace(/\s+/g, ' ')] *)
Definition collapse_spaces (s : jsstring) : jsstring :=
  join space (split_runs is_space s).

Definition page_text (items : list (option jsstring)) : jsstring :=
  let pageText :=
    fold_left
      (fun pageText item =>
         match item with
         | Some str => pageText ++ str ++ space
         | None => pageText
         end)
      items [] in
  trim (collapse_spaces pageText).

Definition page_marker (i : nat) : jsstring :=
  js "[Page " ++ StorageStats.decimal i ++ js "]".

Definition newline : jsstring := [10%N].

Definition page_error : jsstring :=
  js "[Error extracting text from this page]".

(** One turn of [for (let i = 1; i <= pdf.numPages; i++)]. *)
Definition add_page (fullText : jsstring) (i : nat) (page : page_outcome)
    : jsstring :=
  match page with
  | PageItems items =>
      let pageText := page_text items in
      if truthy pageText then
        fullText ++ newline ++ page_marker i ++ newline ++ pageText ++ newline
      else fullText
  | PageFails =>
      fullText ++ newline ++ page_marker i ++ newline ++ page_error ++ newline
  end.

Fixpoint add_pages (fullText : jsstring) (i : nat) (pages : list page_outcome)
    : jsstring :=
  match pages with
  | [] => fullText
  | page :: pages' => add_pages (add_page fullText i page) (S i) pages'
  end.

Definition no_text_message : jsstring :=
  js "No text content found in PDF. This might be a scanned document or image-based PDF.".

(** The [try] block of [extractTextFromPDF]. *)
Definition extractTextFromPDF_try (loaded : pdf_outcome) : outcome jsstring :=
  match loaded with
  | PdfFails t => Raised t
  | PdfPages pages =>
      let fullText := add_pages [] 1 pages in
      if negb (truthy (trim fullText)) then
        Raised (ErrorObject no_text_message)
      else Returned fullText
  end.

(** Its [catch] block. *)
Definition pdf_error (t : thrown) : thrown :=
  match t with
  | ErrorObject message =>
      if includes (js "worker") message then
        ErrorObject (js "PDF worker failed to load. Please check your internet connection and try again, or try a different PDF file.")
      else if includes (js "Invalid PDF") message then
        ErrorObject (js "Invalid PDF file. Please ensure the file is not corrupted.")
      else if includes (js "fetch") message then
        ErrorObject (js "Network error while processing PDF. Please check your connection and try again.")
      else ErrorObject (js "PDF processing failed: " ++ message)
  | OtherValue =>
      ErrorObject (js "Unknown error occurred while processing PDF. Please try again.")
  end.

Definition extractTextFromPDF (window_defined : bool) (loaded : pdf_outcome)
    : outcome jsstring :=
  if negb window_defined then
    Raised (ErrorObject
              (js "PDF processing only available in browser environment"))
  else
    match extractTextFromPDF_try loaded with
    | Returned text => Returned text
    | Raised t => Raised (pdf_error t)
    end.

Definition extractTextFromDOCX (window_defined : bool)
    (raw : outcome jsstring) : outcome jsstring :=
  if negb window_defined then
    Raised (ErrorObject
              (js "DOCX processing only available in browser environment"))
  else raw.

(** The surroundings of [processDocument]: the browser, what the readers
    (pdf.js, mammoth, [file.text()]) make of a file, the successive
    results of [uuidv4()] and the clock. *)
Record Reader := {
  in_browser : bool;
  read_pdf : File -> pdf_outcome;
  read_docx : File -> outcome jsstring;
  read_txt : File -> outcome jsstring;
  uuidv4 : nat -> jsstring;
  now : Z;
}.

Context {N : Number}.

Definition new_chunk (rd : Reader) (file : File) (fileType : doc_type)
    (index : nat) (chunk : jsstring) : DocumentChunk :=
  {| chunk_id := uuidv4 rd (S index);
     content := chunk;
     metadata := {| source := file_name file; page := None;
                    chunkIndex := Z.of_nat index; meta_type := fileType |};
     embedding := None |}.

(** The [try] block of [processDocument]. *)
Definition processDocument_try (rd : Reader) (file : File)
    (fileType : doc_type) : outcome ProcessedDocument :=
  let extracted :=
    match fileType with
    | pdf => extractTextFromPDF (in_browser rd) (read_pdf rd file)
    | docx => extractTextFromDOCX (in_browser rd) (read_docx rd file)
    | txt => read_txt rd file
    end in
  match extracted with
  | Raised t => Raised t
  | Returned extractedText =>
      let textChunks := chunkText_default extractedText in
      let documentId := uuidv4 rd 0 in
      let chunks := imap (new_chunk rd file fileType) textChunks in
      Returned {| doc_id := documentId;
                  name := file_name file;
                  doc_type_of := fileType;
                  doc_chunks := chunks;
                  totalPages := None;
                  createdAt := now rd |}
  end.

Definition processDocument (rd : Reader) (file : File)
    : outcome ProcessedDocument :=
  match getFileType file with
  | Raised t => Raised t
  | Returned fileType =>
      match processDocument_try rd file fileType with
      | Returned document => Returned document
      | Raised t =>
          Raised (ErrorObject
                    (js "Failed to process " ++ file_name file ++ js ": "
                       ++ message_or (js "Unknown error") t))
      end
  end.

End WithHost.

End DocumentProcessor.

(** ** What a search hit says of the store *)

Module Hits.
Import JS Embedding VectorDB.

(** The hit is a record of the store: it carries the record's key, content
    and metadata, the content is not empty, and the hit has the record's
    embedding exactly when it has a score. *)
Definition hit_reflects {N : Number} (w : World) (h : SearchHit) : Prop :=
  exists r,
    embeddingsDB w !! chunk_id (hit_chunk h) = Some r
    /\ content (hit_chunk h) = emb_content r
    /\ metadata (hit_chunk h) = emb_metadata r
    /\ truthy (content (hit_chunk h)) = true
    /\ match similarity h with
       | Some _ =>
           is_Some (emb_embedding r)
           /\ embedding (hit_chunk h) = emb_embedding r
       | None => embedding (hit_chunk h) = None
       end.

End Hits.

(** ** More surroundings to run the code in *)

Module Scenes.
Import JS Chunker Embedding VectorDB DocumentProcessor.

(** The example corpus on a server: no [window]. *)
Definition server : World (N := float_number) :=
  {| window_defined := false;
     documentsDB := documentsDB Sample.stored;
     embeddingsDB := embeddingsDB Sample.stored;
     faults := [];
     trace := [] |}.

(** Storage that accepts two calls and rejects the third. *)
Definition third_call_fails (w : World (N := float_number)) : World :=
  set_faults [false; false; true] w.

Definition notes_txt : File :=
  {| file_name := js "Notes.TXT"; file_type := js "";
     file_size := 2048 |}.

Definition scan_pdf : File :=
  {| file_name := js "scan.pdf"; file_type := js "application/pdf";
     file_size := 4096 |}.

Definition notes_text : jsstring :=
  js "The constitution of india. Fundamental rights and duties!".

(** A browser in which [file.text()] gives [notes_text], pdf.js finds two
    pages without text in every file, and the n-th identifier drawn is
    [id-n]. *)
Definition reader : Reader :=
  {| in_browser := true;
     read_pdf := fun _ => PdfPages [PageItems []; PageItems [Some (js "  ")]];
     read_docx := fun _ => Raised OtherValue;
     read_txt := fun _ => Returned notes_text;
     uuidv4 := fun n => js "id-" ++ StorageStats.decimal n;
     now := 1700000000000 |}.

End Scenes.

(** ** The chat page: context for a message ([sendMessage], app/page) *)

Module Chat.
Import JS Embedding VectorDB.

Inductive role := user | assistant | system.

Record Message {N : Number} := {
  msg_id : jsstring;
  msg_role : role;
  msg_content : jsstring;
  timestamp : Z;
  msg_ragContext : option (list SearchHit);
}.

(** What is sent to the chat endpoint for a message. *)
Record PromptMessage := { prompt_role : role; prompt_content : jsstring }.

Section SendMessage.
Context {N : Number}.
Variable toLowerCase : jsstring -> jsstring.
Variable AZURE_OPENAI_API_KEY : option jsstring.
Variable fetch_embedding : jsstring -> remote_outcome.
Variable fuse_search : list DocumentChunk -> jsstring -> list DocumentChunk.

(** The default [threshold] of [searchSimilarChunks], the literal 0.3. *)
Variable default_threshold : num.

(** The search for context: [ragEnabled] and [documents] are the state of
    the page. *)
Definition ragContext (ragEnabled : bool) (documents : list ProcessedDocument)
    (currentInput : jsstring) : M (list SearchHit) :=
  if ragEnabled && (0 <? length documents)%nat then
    try_catch
      (searchSimilarChunks toLowerCase AZURE_OPENAI_API_KEY fetch_embedding
         fuse_search currentInput 3 default_threshold)
      (fun _ => ret [])
  else ret [].

Definition reference (index : nat) (hit : SearchHit) : jsstring :=
  js "**Reference " ++ StorageStats.decimal (index + 1) ++ js " ("
    ++ source (metadata (hit_chunk hit)) ++ js "):**" ++ [10%N]
    ++ content (hit_chunk hit).

Definition ragSystemMessage (context : list SearchHit) : PromptMessage :=
  let ragContent := join [10%N; 10%N] (imap reference context) in
  {| prompt_role := system;
     prompt_content :=
       js "You are EXCELLOR AI, a UPSC preparation assistant. Use the following document references to enhance your response when relevant:"
         ++ [10%N; 10%N] ++ ragContent ++ [10%N; 10%N]
         ++ js "Be sure to cite sources when referencing the documents. If the documents don't contain relevant information, provide your general knowledge response." |}.

Definition contextualMessages (messages : list Message) (userMessage : Message)
    (context : list SearchHit) : list PromptMessage :=
  let contextualMessages :=
    List.map
      (fun msg => {| prompt_role := msg_role msg;
                     prompt_content := msg_content msg |})
      (messages ++ [userMessage]) in
  if (0 <? length context)%nat then
    ragSystemMessage context :: contextualMessages
  else contextualMessages.

End SendMessage.

End Chat.

(** * Properties *)

(** ** Chunker *)

Module ChunkerFacts.
Import JS Chunker.

(** C8: whatever the text and the parameters, every chunk [chunkText]
    returns has a trimmed length strictly greater than 10: shorter chunks
    are never emitted. *)
Theorem chunkText_trimmed_length (text : jsstring) (maxChunkSize overlap : Z) :
  Forall (fun chunk => (10 < length (trim chunk))%nat)
    (chunkText text maxChunkSize overlap).
Proof.
  unfold chunkText.
  apply List.Forall_forall. intros chunk Hin.
  apply filter_In in Hin. destruct Hin as [_ Hlen].
  now apply Nat.ltb_lt in Hlen.
Qed.

(** C5 (the code breaks it): on [overflowing_text], with the default
    parameters, every sentence-like unit is at most 1000 characters long,
    and yet the second chunk, whose buffer was seeded with the overlap word
    of the first one and then flushed at the end, is 1203 characters long,
    above [maxChunkSize] plus the period. *)
Theorem chunkText_overlap_exceeds_maxChunkSize :
  Forall (fun unit => (length (trim unit) <= 1000)%nat)
    (sentences_of overflowing_text)
  /\ chunkText_default overflowing_text =
       [ first_sentence ++ period;
         repeat 98%N 300 ++ period_space ++ second_sentence ++ period ]
  /\ List.map length (chunkText_default overflowing_text) = [602%nat; 1203%nat].
Proof.
  split; [|split].
  - apply List.Forall_forall. intros unit Hin.
    assert (H : forallb (fun u => (length (trim u) <=? 1000)%nat)
                  (sentences_of overflowing_text) = true)
      by (vm_compute; reflexivity).
    rewrite forallb_forall in H. apply Nat.leb_le. now apply H.
  - vm_compute; reflexivity.
  - vm_compute; reflexivity.
Qed.

End ChunkerFacts.

(** ** Embedding provider *)

Module EmbeddingFacts.
Import JS Embedding.

Lemma fold_left_invariant {A B} (P : A -> Prop) (f : A -> B -> A)
    (l : list B) (a : A) :
  P a -> (forall a x, P a -> In x l -> P (f a x)) -> P (fold_left f l a).
Proof.
  revert a. induction l as [|x l IH]; intros a Ha Hf; simpl; [exact Ha|].
  apply IH.
  - apply Hf; [exact Ha | now left].
  - intros a' y Ha' Hy. apply Hf; [exact Ha' | now right].
Qed.

Lemma simpleHash_nonneg (str : jsstring) : 0 <= simpleHash str.
Proof. unfold simpleHash. apply Z.abs_nonneg. Qed.

Lemma word_slot_in_range (word : jsstring) :
  0 <= Z.rem (simpleHash word) EMBEDDING_DIMENSIONS < EMBEDDING_DIMENSIONS.
Proof.
  apply Z.rem_bound_pos; [apply simpleHash_nonneg | reflexivity].
Qed.

Lemma char_slot_in_range (charCode : N) :
  0 <= Z.rem (Z.of_N charCode * 17) EMBEDDING_DIMENSIONS < EMBEDDING_DIMENSIONS.
Proof.
  apply Z.rem_bound_pos; [lia | reflexivity].
Qed.

Section Generic.
Context {N : Number}.
Variable toLowerCase : jsstring -> jsstring.
Variable AZURE_OPENAI_API_KEY : option jsstring.
Variable fetch_embedding : jsstring -> remote_outcome.

Lemma add_at_in_range (i : Z) (d : num) (vector : list num) :
  0 <= i < Z.of_nat (length vector) ->
  add_at i d vector = alter (fun x => add x d) (Z.to_nat i) vector.
Proof.
  intros [H0 H1]. unfold add_at.
  apply Z.ltb_lt in H1. apply Z.leb_le in H0. now rewrite H1, H0.
Qed.

Lemma add_at_length (i : Z) (d : num) (vector : list num) :
  0 <= i < Z.of_nat (length vector) ->
  length (add_at i d vector) = length vector.
Proof.
  intros H. rewrite add_at_in_range by exact H. apply length_alter.
Qed.

Lemma featureVector_length (text : jsstring) :
  Z.of_nat (length (featureVector toLowerCase text)) = EMBEDDING_DIMENSIONS.
Proof.
  unfold featureVector.
  apply (fold_left_invariant
           (fun v => Z.of_nat (length v) = EMBEDDING_DIMENSIONS)).
  - apply (fold_left_invariant
             (fun v => Z.of_nat (length v) = EMBEDDING_DIMENSIONS)).
    + now rewrite length_replicate.
    + intros v word Hv _. rewrite add_at_length; [exact Hv|].
      rewrite Hv. apply word_slot_in_range.
  - intros v c Hv _. rewrite add_at_length; [exact Hv|].
    rewrite Hv. apply char_slot_in_range.
Qed.

Lemma generateSimpleVector_length (text : jsstring) :
  Z.of_nat (length (generateSimpleVector toLowerCase text))
  = EMBEDDING_DIMENSIONS.
Proof.
  unfold generateSimpleVector.
  destruct (gtb _ _); [rewrite length_map|]; apply featureVector_length.
Qed.

Lemma generateEmbedding_total (text : jsstring) :
  exists embedding,
    generateEmbedding toLowerCase AZURE_OPENAI_API_KEY fetch_embedding text
    = Ok embedding
    /\ Z.of_nat (length embedding) = EMBEDDING_DIMENSIONS.
Proof.
  unfold generateEmbedding.
  destruct (generateEmbedding_try _ _ _ text) as [embedding|e] eqn:Htry.
  - exists embedding. split; [reflexivity|].
    unfold generateEmbedding_try in Htry.
    destruct AZURE_OPENAI_API_KEY as [[|k key]|].
    + injection Htry as <-. apply generateSimpleVector_length.
    + destruct (fetch_embedding text) as [| | |[| |[| |v]]];
        try discriminate Htry.
      destruct (Z.of_nat (length v) =? EMBEDDING_DIMENSIONS) eqn:Hlen;
        simpl in Htry; [|discriminate Htry].
      injection Htry as <-. now apply Z.eqb_eq.
    + injection Htry as <-. apply generateSimpleVector_length.
  - eexists. split; [reflexivity|]. apply generateSimpleVector_length.
Qed.

End Generic.

(** C1: for every text, whatever the number semantics, the lower-casing of
    the host, the configured credential and the behaviour of the remote
    service, [generateEmbedding] returns normally (it never throws) and the
    vector it returns has exactly 3072 entries; so has the vector of the
    local fallback [generateSimpleVector]. *)
Theorem generateEmbedding_length (N : Number)
    (toLowerCase : jsstring -> jsstring)
    (AZURE_OPENAI_API_KEY : option jsstring)
    (fetch_embedding : jsstring -> remote_outcome) (text : jsstring) :
  (exists embedding,
     generateEmbedding toLowerCase AZURE_OPENAI_API_KEY fetch_embedding text
     = Ok embedding
     /\ length embedding = 3072%nat)
  /\ length (generateSimpleVector toLowerCase text) = 3072%nat.
Proof.
  split.
  - destruct (generateEmbedding_total toLowerCase AZURE_OPENAI_API_KEY
                fetch_embedding text) as [embedding [Heq Hlen]].
    exists embedding. split; [exact Heq|].
    unfold EMBEDDING_DIMENSIONS in Hlen. lia.
  - pose proof (generateSimpleVector_length toLowerCase text) as Hlen.
    unfold EMBEDDING_DIMENSIONS in Hlen. lia.
Qed.

(** *** Exact arithmetic: the fallback vector has unit norm *)



Section Exact.
Local Existing Instance real_number.
Local Open Scope R_scope.
Variable toLowerCase : jsstring -> jsstring.





Lemma fold_squares_ge (v : list R) (a : R) :
  (a <= fold_left (fun sum val => sum + val * val) v a)%R.
Proof.
  revert a. induction v as [|x v IH]; intros a; simpl; [lra|].
  specialize (IH (a + x * x)%R). nra.
Qed.





End Exact.

End EmbeddingFacts.

(** ** Corpus store and search engine *)

Module VectorDBFacts.
Import JS Embedding EmbeddingFacts VectorDB.

(** *** Cosine similarity *)

Section Cosine.
Context {N : Number}.



End Cosine.



(** *** Running the monad *)

Section Monad.
Context {N : Number}.

Lemma bind_Ok {A B} (m : M A) (k : A -> M B) w b w' :
  bind m k w = (Ok b, w') ->
  exists a w1, m w = (Ok a, w1) /\ k a w1 = (Ok b, w').
Proof.
  unfold bind. destruct (m w) as [[a|e] w1]; intros H.
  - now exists a, w1.
  - discriminate H.
Qed.

Lemma bind_Throw {A B} (m : M A) (k : A -> M B) w e w' :
  bind m k w = (Throw e, w') ->
  m w = (Throw e, w')
  \/ exists a w1, m w = (Ok a, w1) /\ k a w1 = (Throw e, w').
Proof.
  unfold bind. destruct (m w) as [[a|e1] w1]; intros H.
  - right. now exists a, w1.
  - left. injection H as <- <-. reflexivity.
Qed.

Lemma try_catch_throwing_Ok {A} (m : M A) (h : error -> M A) w a w' :
  (forall e w0, exists e', h e w0 = (Throw e', w0)) ->
  try_catch m h w = (Ok a, w') -> m w = (Ok a, w').
Proof.
  intros Hh. unfold try_catch. destruct (m w) as [[a1|e] w1]; intros H.
  - exact H.
  - destruct (Hh e w1) as [e' He']. rewrite He' in H. discriminate H.
Qed.

Lemma try_catch_throwing_Throw {A} (m : M A) (h : error -> M A) w e w' :
  (forall e w0, exists e', h e w0 = (Throw e', w0)) ->
  try_catch m h w = (Throw e, w') ->
  exists e0, m w = (Throw e0, w') /\ h e0 w' = (Throw e, w').
Proof.
  intros Hh. unfold try_catch. destruct (m w) as [[a1|e1] w1]; intros H.
  - discriminate H.
  - destruct (Hh e1 w1) as [e' He']. rewrite He' in H.
    injection H as <- <-. now exists e1.
Qed.

Lemma storage_call_Ok {A} (ev : event) (op : World -> A * World) w a w' :
  storage_call ev op w = (Ok a, w') ->
  hd false (faults w) = false
  /\ a = fst (op (set_faults (tail (faults w)) w))
  /\ w' = emit ev (snd (op (set_faults (tail (faults w)) w))).
Proof.
  unfold storage_call.
  destruct (faults w) as [|[|] fs]; simpl;
    try (destruct (op _) as [a1 w1]); intros H;
    try discriminate H; injection H as <- <-; auto.
Qed.

Lemma storage_call_Throw {A} (ev : event) (op : World -> A * World) w e w' :
  storage_call ev op w = (Throw e, w') ->
  hd false (faults w) = true
  /\ w' = emit EvStorageError (set_faults (tail (faults w)) w).
Proof.
  unfold storage_call.
  destruct (faults w) as [|[|] fs]; simpl;
    try (destruct (op _) as [a1 w1]); intros H;
    try discriminate H; injection H as <- <-; auto.
Qed.

Lemma storage_call_works {A} (ev : event) (op : World -> A * World) w :
  hd false (faults w) = false ->
  storage_call ev op w
  = (Ok (fst (op (set_faults (tail (faults w)) w))),
     emit ev (snd (op (set_faults (tail (faults w)) w)))).
Proof.
  unfold storage_call.
  destruct (faults w) as [|[|] fs]; simpl; intros H; try discriminate H;
    now destruct (op _).
Qed.

Lemma initializeDatabases_Ok w (u : unit) w' :
  initializeDatabases w = (Ok u, w') -> window_defined w = true /\ w' = w.
Proof.
  unfold initializeDatabases. destruct (window_defined w); intros H.
  - injection H as _ <-. auto.
  - discriminate H.
Qed.

(** **** Relations every step keeps *)

Section Respects.
Variable R : World -> World -> Prop.
Hypothesis R_refl : forall w, R w w.
Hypothesis R_trans : forall w1 w2 w3, R w1 w2 -> R w2 w3 -> R w1 w3.

Lemma respects_ret {A} (a : A) : respects R (ret a).
Proof. intros w r w' H. injection H as _ <-. apply R_refl. Qed.

Lemma respects_throw {A} (e : error) : respects R (throw (A := A) e).
Proof. intros w r w' H. injection H as _ <-. apply R_refl. Qed.

Lemma respects_lift {A} (r0 : result A) : respects R (lift r0).
Proof. intros w r w' H. injection H as _ <-. apply R_refl. Qed.

Lemma respects_initializeDatabases : respects R initializeDatabases.
Proof.
  intros w r w'. unfold initializeDatabases.
  destruct (window_defined w); intros H; injection H as _ <-; apply R_refl.
Qed.

Lemma respects_bind {A B} (m : M A) (k : A -> M B) :
  respects R m -> (forall a, respects R (k a)) -> respects R (bind m k).
Proof.
  intros Hm Hk w r w'. unfold bind.
  destruct (m w) as [[a|e] w1] eqn:Hmw; intros H.
  - eapply R_trans; [eapply Hm, Hmw | eapply Hk, H].
  - injection H as _ <-. eapply Hm, Hmw.
Qed.

Lemma respects_try_catch {A} (m : M A) (h : error -> M A) :
  respects R m -> (forall e, respects R (h e)) -> respects R (try_catch m h).
Proof.
  intros Hm Hh w r w'. unfold try_catch.
  destruct (m w) as [[a|e] w1] eqn:Hmw; intros H.
  - injection H as _ <-. eapply Hm, Hmw.
  - eapply R_trans; [eapply Hm, Hmw | eapply Hh, H].
Qed.

Lemma respects_for_each {A} (f : A -> M unit) (l : list A) :
  (forall x, respects R (f x)) -> respects R (for_each f l).
Proof.
  intros Hf. induction l as [|x l IH]; simpl.
  - apply respects_ret.
  - apply respects_bind; [apply Hf | intros _; exact IH].
Qed.

Lemma respects_storage_call {A} (ev : event) (op : World -> A * World) :
  (forall w, R w (emit EvStorageError (set_faults (tail (faults w)) w))) ->
  (forall w, R w (emit ev (snd (op (set_faults (tail (faults w)) w))))) ->
  respects R (storage_call ev op).
Proof.
  intros Herr Hop w r w' H. destruct r as [a|e].
  - apply storage_call_Ok in H. destruct H as (_ & _ & ->). apply Hop.
  - apply storage_call_Throw in H. destruct H as (_ & ->). apply Herr.
Qed.

End Respects.

Lemma same_dbs_refl w : same_dbs w w.
Proof. now repeat split. Qed.

Lemma same_dbs_trans w1 w2 w3 :
  same_dbs w1 w2 -> same_dbs w2 w3 -> same_dbs w1 w3.
Proof.
  intros (H1 & H2 & H3) (H4 & H5 & H6).
  repeat split; congruence.
Qed.

End Monad.

(** *** Deleting a document *)

Section Deletion.
Context {N : Number}.

Lemma removeItem_loop_Ok (cs : list DocumentChunk) w (u : unit) w' :
  for_each (fun chunk => embeddings_removeItem (chunk_id chunk)) cs w
  = (Ok u, w') ->
  same_documents w w'
  /\ trace w'
     = trace w
       ++ List.map (fun chunk => EvRemoveItem Embeddings (chunk_id chunk)) cs
  /\ forall k,
       embeddingsDB w' !! k
       = if decide (k ∈ List.map chunk_id cs) then None
         else embeddingsDB w !! k.
Proof.
  revert w. induction cs as [|c cs IH]; intros w H; simpl in H.
  - injection H as _ <-. split; [now split|]. split.
    + simpl. now rewrite app_nil_r.
    + intros k. simpl. destruct (decide (k ∈ [])) as [Hin|_]; [|reflexivity].
      now apply elem_of_nil in Hin.
  - apply bind_Ok in H. destruct H as (a & w1 & Hrm & Hrest).
    apply storage_call_Ok in Hrm. destruct Hrm as (_ & _ & ->).
    apply IH in Hrest. destruct Hrest as ((Hd & Hw) & Ht & Hl).
    simpl in Hd, Hw, Ht, Hl.
    split; [now split|]. split.
    + rewrite Ht. simpl. now rewrite <- app_assoc.
    + intros k. rewrite Hl. simpl.
      destruct (decide (k = chunk_id c)) as [->|Hne].
      * rewrite lookup_delete_eq.
        destruct (decide (chunk_id c ∈ chunk_id c :: List.map chunk_id cs))
          as [_|Hn]; [now destruct (decide _)|].
        exfalso. apply Hn. left.
      * rewrite lookup_delete_ne by congruence.
        destruct (decide (k ∈ List.map chunk_id cs)) as [Hin|Hnin];
          destruct (decide (k ∈ chunk_id c :: List.map chunk_id cs))
            as [Hin'|Hnin']; try reflexivity.
        -- exfalso. apply Hnin'. now right.
        -- exfalso. apply elem_of_cons in Hin'. destruct Hin'; tauto.
Qed.

Lemma deleteDocument_Ok (documentId : jsstring) w (u : unit) w' :
  deleteDocument documentId w = (Ok u, w') ->
  window_defined w = true
  /\ match documentsDB w !! documentId with
     | None =>
         same_dbs w w'
         /\ trace w' = trace w ++ [EvGetItem Documents documentId]
     | Some document =>
         let ids := List.map chunk_id (doc_chunks document) in
         documentsDB w' = delete documentId (documentsDB w)
         /\ (forall k,
               embeddingsDB w' !! k
               = if decide (k ∈ ids) then None else embeddingsDB w !! k)
         /\ trace w'
            = trace w
              ++ EvGetItem Documents documentId
                 :: List.map (EvRemoveItem Embeddings) ids
                 ++ [EvRemoveItem Documents documentId]
     end.
Proof.
  intros H. unfold deleteDocument in H.
  apply try_catch_throwing_Ok in H; [|intros e w0; now eexists].
  apply bind_Ok in H. destruct H as (u0 & w0 & Hinit & H).
  apply initializeDatabases_Ok in Hinit. destruct Hinit as (Hwin & ->).
  split; [exact Hwin|].
  apply bind_Ok in H. destruct H as (document & w1 & Hget & H).
  apply storage_call_Ok in Hget. destruct Hget as (_ & -> & ->).
  simpl in H. simpl fst.
  destruct (documentsDB w !! documentId) as [document|].
  - apply bind_Ok in H. destruct H as (u1 & w2 & Hloop & Hrm).
    apply removeItem_loop_Ok in Hloop.
    destruct Hloop as ((Hd & _) & Ht & Hl). simpl in Hd, Ht, Hl.
    apply storage_call_Ok in Hrm. destruct Hrm as (_ & _ & ->). simpl.
    split; [now rewrite Hd|]. split; [exact Hl|].
    rewrite Ht, List.map_map. rewrite <- !app_assoc. reflexivity.
  - injection H as _ <-. simpl. split; [now repeat split | reflexivity].
Qed.

Lemma deleteDocument_absent_run (documentId : jsstring) w :
  documentsDB w !! documentId = None ->
  same_dbs w (snd (deleteDocument documentId w))
  /\ (window_defined w = true -> hd false (faults w) = false ->
      fst (deleteDocument documentId w) = Ok tt).
Proof.
  intros Habs.
  unfold deleteDocument, try_catch, bind, initializeDatabases,
    documents_getItem, storage_call, throw, ret.
  destruct (window_defined w) eqn:Hwin; simpl.
  - destruct (faults w) as [|[|] fs] eqn:Hf; simpl; rewrite ?Habs; simpl;
      (split; [repeat split; simpl; auto | intros _ Hhd; try discriminate Hhd;
                                            reflexivity]).
  - split; [now repeat split | intros Hd; discriminate Hd].
Qed.

End Deletion.

(** C9: for an id that is not in the document store, [deleteDocument]
    leaves both collections as they were, whatever happens; and in a
    browser whose storage accepts the read it returns normally. *)
Theorem deleteDocument_absent (N : Number) (documentId : jsstring)
    (w : World) :
  documentsDB w !! documentId = None ->
  documentsDB (snd (deleteDocument documentId w)) = documentsDB w
  /\ embeddingsDB (snd (deleteDocument documentId w)) = embeddingsDB w
  /\ (window_defined w = true -> hd false (faults w) = false ->
      fst (deleteDocument documentId w) = Ok tt).
Proof.
  intros Habs.
  destruct (deleteDocument_absent_run documentId w Habs)
    as ((Hd & He & _) & Hok).
  auto.
Qed.

(** Deleting an id the example corpus does not hold. *)
Lemma deleteDocument_absent_witness :
  documentsDB (snd (deleteDocument (js "d2") Sample.stored))
  = documentsDB Sample.stored
  /\ embeddingsDB (snd (deleteDocument (js "d2") Sample.stored))
     = embeddingsDB Sample.stored
  /\ fst (deleteDocument (js "d2") Sample.stored) = Ok tt.
Proof.
  assert (Habs : documentsDB Sample.stored !! js "d2" = None)
    by (vm_compute; reflexivity).
  destruct (deleteDocument_absent float_number (js "d2") Sample.stored Habs)
    as (Hd & He & Hok).
  split; [exact Hd|]. split; [exact He|].
  apply Hok; vm_compute; reflexivity.
Defined.

(** *** Sorting *)

Section Sorting.
Context {A : Type}.
Variable swap : A -> A -> bool.
Variable before : A -> A -> Prop.
Hypothesis before_trans : forall x y z, before x y -> before y z -> before x z.
Hypothesis swap_true : forall x y, swap x y = true -> before y x.
Hypothesis swap_false : forall x y, swap x y = false -> before x y.

Lemma sort_insert_perm (x : A) (l : list A) :
  Permutation (x :: l) (sort_insert swap x l).
Proof.
  induction l as [|y l IH]; simpl; [reflexivity|].
  destruct (swap x y); [|reflexivity].
  rewrite perm_swap. now apply perm_skip.
Qed.

Lemma js_sort_perm (l : list A) : Permutation l (js_sort swap l).
Proof.
  induction l as [|x l IH]; simpl; [reflexivity|].
  rewrite <- sort_insert_perm. now apply perm_skip.
Qed.

Lemma sort_insert_sorted (x : A) (l : list A) :
  StronglySorted before l -> StronglySorted before (sort_insert swap x l).
Proof.
  induction l as [|y l IH]; intros Hs; simpl.
  - repeat constructor.
  - apply StronglySorted_inv in Hs. destruct Hs as [Hs Hy].
    destruct (swap x y) eqn:Hxy.
    + constructor; [now apply IH|].
      rewrite <- sort_insert_perm. constructor; [now apply swap_true | exact Hy].
    + constructor; [now constructor|].
      constructor; [now apply swap_false|].
      eapply Forall_impl; [exact Hy|].
      intros z Hz. eapply before_trans; [apply swap_false, Hxy | exact Hz].
Qed.

Lemma js_sort_sorted (l : list A) : StronglySorted before (js_sort swap l).
Proof.
  induction l as [|x l IH]; simpl; [constructor|].
  now apply sort_insert_sorted.
Qed.

End Sorting.


(** *** Storing and listing documents *)

Section Storing.
Context {N : Number}.
Variable toLowerCase : jsstring -> jsstring.
Variable AZURE_OPENAI_API_KEY : option jsstring.
Variable fetch_embedding : jsstring -> remote_outcome.

Local Abbreviation embed :=
  (embed toLowerCase AZURE_OPENAI_API_KEY fetch_embedding).
Local Abbreviation storeDocument :=
  (storeDocument toLowerCase AZURE_OPENAI_API_KEY fetch_embedding).

Lemma result_mapM_Ok {A B} (f : A -> result B) (l : list A) (l' : list B) :
  result_mapM f l = Ok l' -> Forall2 (fun x y => f x = Ok y) l l'.
Proof.
  revert l'. induction l as [|x l IH]; intros l' H; simpl in H.
  - injection H as <-. constructor.
  - destruct (f x) as [y|e] eqn:Hx; [|discriminate H]. simpl in H.
    destruct (result_mapM f l) as [ys|e]; [|discriminate H]. simpl in H.
    injection H as <-. constructor; [exact Hx | now apply IH].
Qed.

Lemma result_mapM_total {A B} (f : A -> result B) (l : list A) :
  (forall x, exists y, f x = Ok y) -> exists l', result_mapM f l = Ok l'.
Proof.
  intros Hf. induction l as [|x l [ys IH]]; simpl.
  - now exists [].
  - destruct (Hf x) as [y ->]. simpl. rewrite IH. simpl. now eexists.
Qed.

Lemma embed_chunk_Ok (chunk chunk' : DocumentChunk) :
  result_bind (embed (content chunk)) (fun e => Ok (with_embedding chunk e))
  = Ok chunk' ->
  embedded chunk chunk'.
Proof.
  unfold VectorDB.embed.
  destruct (generateEmbedding_total toLowerCase AZURE_OPENAI_API_KEY
              fetch_embedding (content chunk)) as (e & -> & Hlen).
  simpl. intros H. injection H as <-. exists e. split; [|reflexivity].
  unfold EMBEDDING_DIMENSIONS in Hlen. lia.
Qed.

Lemma embed_chunk_total (chunk : DocumentChunk) :
  exists chunk',
    result_bind (embed (content chunk))
      (fun e => Ok (with_embedding chunk e)) = Ok chunk'.
Proof.
  unfold VectorDB.embed.
  destruct (generateEmbedding_total toLowerCase AZURE_OPENAI_API_KEY
              fetch_embedding (content chunk)) as (e & -> & _).
  simpl. now eexists.
Qed.

Lemma same_documents_refl w : same_documents w w.
Proof. now split. Qed.

Lemma same_documents_trans w1 w2 w3 :
  same_documents w1 w2 -> same_documents w2 w3 -> same_documents w1 w3.
Proof. intros (H1 & H2) (H3 & H4). split; congruence. Qed.

Lemma setItem_loop_same_documents (document : ProcessedDocument)
    (cs : list DocumentChunk) :
  respects same_documents
    (for_each
       (fun chunk =>
          embeddings_setItem (chunk_id chunk)
            (embedding_record document chunk)) cs).
Proof.
  apply respects_for_each.
  - apply same_documents_refl.
  - apply same_documents_trans.
  - intros chunk. apply respects_storage_call; intros w; now split.
Qed.

Lemma storeDocument_Ok (document : ProcessedDocument) w (u : unit) w' :
  storeDocument document w = (Ok u, w') ->
  window_defined w = true
  /\ window_defined w' = true
  /\ exists cs,
       Forall2 embedded (doc_chunks document) cs
       /\ documentsDB w'
          = <[doc_id document := with_chunks document cs]> (documentsDB w).
Proof.
  intros H. unfold VectorDB.storeDocument in H.
  apply try_catch_throwing_Ok in H; [|intros [msg] w0; now eexists].
  apply bind_Ok in H. destruct H as (u0 & w0 & Hinit & H).
  apply initializeDatabases_Ok in Hinit. destruct Hinit as (Hwin & ->).
  apply bind_Ok in H. destruct H as (cs & w1 & Hmap & H).
  unfold lift in Hmap. injection Hmap as Hmap <-.
  apply bind_Ok in H. destruct H as (u1 & w2 & Hset & Hloop).
  apply storage_call_Ok in Hset. destruct Hset as (_ & _ & ->).
  apply setItem_loop_same_documents in Hloop.
  destruct Hloop as (Hd & Hw). simpl in Hd, Hw.
  split; [exact Hwin|]. split; [congruence|].
  exists cs. split; [|exact Hd].
  apply result_mapM_Ok in Hmap.
  eapply Forall2_impl; [exact Hmap|].
  intros chunk chunk'. apply embed_chunk_Ok.
Qed.

Lemma embedded_same (l l' : list DocumentChunk) :
  Forall2 embedded l l' ->
  length l' = length l
  /\ List.map chunk_id l' = List.map chunk_id l
  /\ List.map content l' = List.map content l
  /\ Forall (fun chunk =>
               exists e, embedding chunk = Some e /\ length e = 3072%nat) l'.
Proof.
  induction 1 as [|chunk chunk' l l' (e & Hlen & ->) _ (IH1 & IH2 & IH3 & IH4)].
  - repeat split. constructor.
  - simpl. rewrite IH1, IH2, IH3. repeat split.
    constructor; [|exact IH4]. now exists e.
Qed.

Lemma getAllDocuments_works w :
  window_defined w = true -> hd false (faults w) = false ->
  getAllDocuments w
  = (Ok (js_sort (fun a b => 0 <? createdAt b - createdAt a)
           (List.map snd (map_to_list (documentsDB w)))),
     emit (EvIterate Documents) (set_faults (tail (faults w)) w)).
Proof.
  intros Hwin Hf.
  unfold getAllDocuments, try_catch, bind, initializeDatabases,
    documents_iterate.
  rewrite Hwin, (storage_call_works _ _ _ Hf). reflexivity.
Qed.

Lemma getAllDocuments_swallows w :
  window_defined w = false \/ hd false (faults w) = true ->
  fst (getAllDocuments w) = Ok [].
Proof.
  unfold getAllDocuments, try_catch, bind, initializeDatabases,
    documents_iterate, storage_call, ret.
  destruct (window_defined w); [|reflexivity].
  destruct (faults w) as [|[|] fs]; simpl; intros [H|H];
    try discriminate H; reflexivity.
Qed.

Lemma newest_first_sorted (l : list ProcessedDocument) :
  StronglySorted (fun a b => createdAt b <= createdAt a)
    (js_sort (fun a b => 0 <? createdAt b - createdAt a) l).
Proof.
  apply js_sort_sorted.
  - intros x y z Hxy Hyz. lia.
  - intros x y H. apply Z.ltb_lt in H. lia.
  - intros x y H. apply Z.ltb_ge in H. lia.
Qed.

End Storing.

(** *** Operations that return normally, and what that tells about the
    storage calls *)

Section Outcomes.
Context {N : Number}.

Lemma succeeds_ret {A} (a : A) : succeeds (ret a).
Proof. intros w Hw Hf. now exists a, w. Qed.

Lemma succeeds_lift {A} (a : A) : succeeds (lift (Ok a)).
Proof. intros w Hw Hf. now exists a, w. Qed.

Lemma succeeds_initializeDatabases : succeeds initializeDatabases.
Proof.
  intros w Hw Hf. exists tt, w. unfold initializeDatabases. now rewrite Hw.
Qed.

Lemma succeeds_bind {A B} (m : M A) (k : A -> M B) :
  succeeds m -> (forall a, succeeds (k a)) -> succeeds (bind m k).
Proof.
  intros Hm Hk w Hw Hf.
  destruct (Hm w Hw Hf) as (a & w1 & Hmw & Hw1 & Hf1).
  destruct (Hk a w1 Hw1 Hf1) as (b & w2 & Hkw & Hw2 & Hf2).
  exists b, w2. unfold bind. now rewrite Hmw.
Qed.

Lemma succeeds_for_each {A} (f : A -> M unit) (l : list A) :
  (forall x, succeeds (f x)) -> succeeds (for_each f l).
Proof.
  intros Hf. induction l as [|x l IH]; simpl.
  - apply succeeds_ret.
  - apply succeeds_bind; [apply Hf | intros _; exact IH].
Qed.

Lemma succeeds_try_catch {A} (m : M A) (h : error -> M A) :
  succeeds m -> succeeds (try_catch m h).
Proof.
  intros Hm w Hw Hf. destruct (Hm w Hw Hf) as (a & w1 & Hmw & Hw1 & Hf1).
  exists a, w1. unfold try_catch. now rewrite Hmw.
Qed.

Lemma succeeds_storage_call {A} (ev : event) (op : World -> A * World) :
  (forall w, window_defined (snd (op w)) = window_defined w
             /\ faults (snd (op w)) = faults w) ->
  succeeds (storage_call ev op).
Proof.
  intros Hop w Hw Hf. unfold storage_call. rewrite Hf. simpl.
  destruct (op (set_faults [] w)) as [a w1] eqn:Hopw.
  exists a, (emit ev w1). split; [reflexivity|].
  destruct (Hop (set_faults [] w)) as (H1 & H2).
  rewrite Hopw in H1, H2. simpl in *. split; congruence.
Qed.

Lemma quiet_ret {A} (a : A) : quiet (ret a).
Proof.
  intros w a' w' H. injection H as _ <-. exists [].
  split; [now rewrite app_nil_r | apply not_elem_of_nil].
Qed.

Lemma quiet_lift {A} (r : result A) : quiet (lift r).
Proof.
  intros w a' w' H. injection H as _ <-. exists [].
  split; [now rewrite app_nil_r | apply not_elem_of_nil].
Qed.

Lemma quiet_initializeDatabases : quiet initializeDatabases.
Proof.
  intros w a w' H. apply initializeDatabases_Ok in H. destruct H as (_ & ->).
  exists []. split; [now rewrite app_nil_r | apply not_elem_of_nil].
Qed.

Lemma quiet_bind {A B} (m : M A) (k : A -> M B) :
  quiet m -> (forall a, quiet (k a)) -> quiet (bind m k).
Proof.
  intros Hm Hk w b w' H.
  apply bind_Ok in H. destruct H as (a & w1 & Hmw & Hkw).
  destruct (Hm _ _ _ Hmw) as (evs1 & Ht1 & Hn1).
  destruct (Hk _ _ _ _ Hkw) as (evs2 & Ht2 & Hn2).
  exists (evs1 ++ evs2). split.
  - now rewrite Ht2, Ht1, app_assoc.
  - rewrite elem_of_app. tauto.
Qed.

Lemma quiet_for_each {A} (f : A -> M unit) (l : list A) :
  (forall x, quiet (f x)) -> quiet (for_each f l).
Proof.
  intros Hf. induction l as [|x l IH]; simpl.
  - apply quiet_ret.
  - apply quiet_bind; [apply Hf | intros _; exact IH].
Qed.

Lemma quiet_storage_call {A} (ev : event) (op : World -> A * World) :
  ev <> EvStorageError ->
  (forall w, trace (snd (op w)) = trace w) ->
  quiet (storage_call ev op).
Proof.
  intros Hev Hop w a w' H.
  apply storage_call_Ok in H. destruct H as (_ & _ & ->).
  exists [ev]. split.
  - simpl. now rewrite Hop.
  - intros Hin. apply list_elem_of_singleton in Hin. congruence.
Qed.

Lemma quiet_try_catch_throwing {A} (m : M A) (h : error -> M A) :
  (forall e w0, exists e', h e w0 = (Throw e', w0)) ->
  quiet m -> quiet (try_catch m h).
Proof.
  intros Hh Hm w a w' H.
  apply try_catch_throwing_Ok in H; [|exact Hh]. now apply Hm in H.
Qed.

Lemma quiet_propagates {A} (op : M A) :
  quiet op -> propagates_storage_failure op.
Proof.
  intros Hq w Hin. unfold events_during in Hin.
  destruct (op w) as [[a|e] w'] eqn:Hop; simpl in *.
  - destruct (Hq _ _ _ Hop) as (evs & Ht & Hn).
    rewrite Ht, drop_app_length in Hin. contradiction.
  - now exists e.
Qed.

End Outcomes.

Section Corpus.
Context {N : Number}.
Variable toLowerCase : jsstring -> jsstring.
Variable AZURE_OPENAI_API_KEY : option jsstring.
Variable fetch_embedding : jsstring -> remote_outcome.

Local Abbreviation storeDocument :=
  (storeDocument toLowerCase AZURE_OPENAI_API_KEY fetch_embedding).

Lemma storeDocument_succeeds (document : ProcessedDocument) :
  succeeds (storeDocument document).
Proof.
  unfold VectorDB.storeDocument.
  apply succeeds_try_catch.
  apply succeeds_bind; [apply succeeds_initializeDatabases | intros _].
  destruct (result_mapM_total _ (doc_chunks document)
              (embed_chunk_total toLowerCase AZURE_OPENAI_API_KEY
                 fetch_embedding)) as [cs ->].
  apply succeeds_bind; [apply succeeds_lift | intros cs'].
  apply succeeds_bind.
  - apply succeeds_storage_call. now intros w.
  - intros _. apply succeeds_for_each. intros chunk.
    apply succeeds_storage_call. now intros w.
Qed.

Lemma storeDocument_quiet (document : ProcessedDocument) :
  quiet (storeDocument document).
Proof.
  unfold VectorDB.storeDocument.
  apply quiet_try_catch_throwing; [intros [msg] w0; now eexists|].
  apply quiet_bind; [apply quiet_initializeDatabases | intros _].
  apply quiet_bind; [apply quiet_lift | intros cs].
  apply quiet_bind.
  - apply quiet_storage_call; [discriminate | now intros w].
  - intros _. apply quiet_for_each. intros chunk.
    apply quiet_storage_call; [discriminate | now intros w].
Qed.

Lemma deleteDocument_quiet (documentId : jsstring) :
  quiet (deleteDocument documentId).
Proof.
  unfold deleteDocument.
  apply quiet_try_catch_throwing; [intros e w0; now eexists|].
  apply quiet_bind; [apply quiet_initializeDatabases | intros _].
  apply quiet_bind.
  - apply quiet_storage_call; [discriminate | now intros w].
  - intros [document|]; [|apply quiet_ret].
    apply quiet_bind.
    + apply quiet_for_each. intros chunk.
      apply quiet_storage_call; [discriminate | now intros w].
    + intros _. apply quiet_storage_call; [discriminate | now intros w].
Qed.

Lemma deleteDocument_succeeds (documentId : jsstring) :
  succeeds (deleteDocument documentId).
Proof.
  unfold deleteDocument.
  apply succeeds_try_catch.
  apply succeeds_bind; [apply succeeds_initializeDatabases | intros _].
  apply succeeds_bind.
  - apply succeeds_storage_call. now intros w.
  - intros [document|]; [|apply succeeds_ret].
    apply succeeds_bind.
    + apply succeeds_for_each. intros chunk.
      apply succeeds_storage_call. now intros w.
    + intros _. apply succeeds_storage_call. now intros w.
Qed.

Lemma clearAllDocuments_quiet : quiet clearAllDocuments.
Proof.
  unfold clearAllDocuments.
  apply quiet_try_catch_throwing; [intros e w0; now eexists|].
  apply quiet_bind; [apply quiet_initializeDatabases | intros _].
  apply quiet_bind; [|intros _];
    (apply quiet_storage_call; [discriminate | now intros w]).
Qed.

Lemma clearAllDocuments_succeeds : succeeds clearAllDocuments.
Proof.
  unfold clearAllDocuments.
  apply succeeds_try_catch.
  apply succeeds_bind; [apply succeeds_initializeDatabases | intros _].
  apply succeeds_bind; [|intros _];
    (apply succeeds_storage_call; now intros w).
Qed.

Lemma clearAllDocuments_Ok w (u : unit) w' :
  clearAllDocuments w = (Ok u, w') ->
  documentsDB w' = ∅ /\ embeddingsDB w' = ∅.
Proof.
  intros H. unfold clearAllDocuments in H.
  apply try_catch_throwing_Ok in H; [|intros e w0; now eexists].
  apply bind_Ok in H. destruct H as (u0 & w0 & Hinit & H).
  apply initializeDatabases_Ok in Hinit. destruct Hinit as (_ & ->).
  apply bind_Ok in H. destruct H as (u1 & w1 & Hdocs & Hembs).
  apply storage_call_Ok in Hdocs. destruct Hdocs as (_ & _ & ->).
  apply storage_call_Ok in Hembs. destruct Hembs as (_ & _ & ->).
  now split.
Qed.

Lemma storeDocument_Throw (document : ProcessedDocument) w e :
  fst (storeDocument document w) = Throw e ->
  exists message,
    e = Error (String.append "Failed to store document: " message).
Proof.
  destruct (storeDocument document w) as [r w'] eqn:H. simpl. intros ->.
  unfold VectorDB.storeDocument in H.
  apply try_catch_throwing_Throw in H; [|intros [msg] w0; now eexists].
  destruct H as ([message] & _ & Hh). injection Hh as <-. now exists message.
Qed.

Lemma deleteDocument_Throw (documentId : jsstring) w e :
  fst (deleteDocument documentId w) = Throw e ->
  e = Error "Failed to delete document".
Proof.
  destruct (deleteDocument documentId w) as [r w'] eqn:H. simpl. intros ->.
  unfold deleteDocument in H.
  apply try_catch_throwing_Throw in H; [|intros e0 w0; now eexists].
  destruct H as (e0 & _ & Hh). now injection Hh as <-.
Qed.

Lemma clearAllDocuments_Throw w e :
  fst (clearAllDocuments w) = Throw e ->
  e = Error "Failed to clear documents".
Proof.
  destruct (clearAllDocuments w) as [r w'] eqn:H. simpl. intros ->.
  unfold clearAllDocuments in H.
  apply try_catch_throwing_Throw in H; [|intros e0 w0; now eexists].
  destruct H as (e0 & _ & Hh). now injection Hh as <-.
Qed.

Lemma getAllDocuments_storage_error w :
  EvStorageError ∈ events_during getAllDocuments w ->
  fst (getAllDocuments w) = Ok [].
Proof.
  intros Hin. apply getAllDocuments_swallows.
  destruct (window_defined w) eqn:Hwin; [right | now left].
  destruct (hd false (faults w)) eqn:Hf; [reflexivity|].
  exfalso. unfold events_during in Hin.
  rewrite (getAllDocuments_works w Hwin Hf) in Hin. simpl in Hin.
  rewrite drop_app_length in Hin.
  apply list_elem_of_singleton in Hin. discriminate Hin.
Qed.

End Corpus.

(** C6: in a browser whose storage works [storeDocument] returns normally;
    and whenever it has, and the read of the listing is accepted,
    [getAllDocuments] returns every stored document, newest first
    (descending [createdAt]), and among them one with the id, the name, the
    creation time, the number of chunks and the chunk ids and contents, in
    order, of the document that was stored. *)
Theorem storeDocument_getAllDocuments (N : Number)
    (toLowerCase : jsstring -> jsstring)
    (AZURE_OPENAI_API_KEY : option jsstring)
    (fetch_embedding : jsstring -> remote_outcome)
    (document : ProcessedDocument) :
  succeeds
    (storeDocument toLowerCase AZURE_OPENAI_API_KEY fetch_embedding document)
  /\ forall w w1,
       storeDocument toLowerCase AZURE_OPENAI_API_KEY fetch_embedding
         document w = (Ok tt, w1) ->
       hd false (faults w1) = false ->
       exists listing w2,
         getAllDocuments w1 = (Ok listing, w2)
         /\ (exists stored,
               stored ∈ listing
               /\ doc_id stored = doc_id document
               /\ name stored = name document
               /\ createdAt stored = createdAt document
               /\ length (doc_chunks stored) = length (doc_chunks document)
               /\ List.map chunk_id (doc_chunks stored)
                  = List.map chunk_id (doc_chunks document)
               /\ List.map content (doc_chunks stored)
                  = List.map content (doc_chunks document))
         /\ StronglySorted (fun a b => createdAt b <= createdAt a) listing
         /\ Permutation (List.map snd (map_to_list (documentsDB w1))) listing.
Proof.
  split; [apply storeDocument_succeeds|].
  intros w w1 Hstore Hread.
  apply storeDocument_Ok in Hstore.
  destruct Hstore as (_ & Hwin & cs & Hcs & Hdocs).
  rewrite (getAllDocuments_works w1 Hwin Hread).
  eexists _, _. split; [reflexivity|].
  destruct (embedded_same _ _ Hcs) as (Hlen & Hids & Hcontents & _).
  split; [|split].
  - exists (with_chunks document cs). simpl.
    split; [|now repeat split].
    rewrite <- (js_sort_perm _ _).
    apply list_elem_of_In, in_map_iff.
    exists (doc_id document, with_chunks document cs). split; [reflexivity|].
    apply list_elem_of_In, elem_of_map_to_list.
    rewrite Hdocs. apply lookup_insert_eq.
  - apply newest_first_sorted.
  - apply js_sort_perm.
Qed.

(** The example document stored in an empty corpus and listed. *)
Lemma storeDocument_getAllDocuments_witness :
  exists listing w2,
    getAllDocuments Sample.stored = (Ok listing, w2)
    /\ (exists stored,
          stored ∈ listing
          /\ doc_id stored = js "d1"
          /\ name stored = js "notes.txt"
          /\ createdAt stored = 1700000000000
          /\ length (doc_chunks stored) = 2%nat
          /\ List.map chunk_id (doc_chunks stored) = [js "c1"; js "c2"]
          /\ List.map content (doc_chunks stored)
             = [js "the constitution of india";
                js "fundamental rights and duties"])
    /\ StronglySorted (fun a b => createdAt b <= createdAt a) listing
    /\ Permutation
         (List.map snd (map_to_list (documentsDB Sample.stored))) listing.
Proof.
  apply (proj2 (storeDocument_getAllDocuments float_number ascii_toLowerCase
                  Sample.no_key Sample.offline Sample.document1)
           Sample.browser Sample.stored).
  - unfold Sample.stored.
    destruct (proj1 (storeDocument_getAllDocuments float_number
                       ascii_toLowerCase Sample.no_key Sample.offline
                       Sample.document1) Sample.browser eq_refl eq_refl)
      as ([] & w1 & Hrun & _).
    fold Sample.store1 in Hrun. fold Sample.store1.
    now rewrite Hrun.
  - vm_compute. reflexivity.
Defined.

(** C7, amended: a rejected storage call makes [storeDocument],
    [deleteDocument] and [clearAllDocuments] throw, and what they throw is
    their own generic error; [getAllDocuments] instead catches the
    rejection and returns the empty list. *)
Theorem storage_failure_outcomes (N : Number)
    (toLowerCase : jsstring -> jsstring)
    (AZURE_OPENAI_API_KEY : option jsstring)
    (fetch_embedding : jsstring -> remote_outcome)
    (document : ProcessedDocument) (documentId : jsstring) :
  let store :=
    storeDocument toLowerCase AZURE_OPENAI_API_KEY fetch_embedding document in
  propagates_storage_failure store
  /\ propagates_storage_failure (deleteDocument documentId)
  /\ propagates_storage_failure clearAllDocuments
  /\ (forall w e,
        fst (store w) = Throw e ->
        exists message,
          e = Error (String.append "Failed to store document: " message))
  /\ (forall w e,
        fst (deleteDocument documentId w) = Throw e ->
        e = Error "Failed to delete document")
  /\ (forall w e,
        fst (clearAllDocuments w) = Throw e ->
        e = Error "Failed to clear documents")
  /\ (forall w,
        EvStorageError ∈ events_during getAllDocuments w ->
        fst (getAllDocuments w) = Ok []).
Proof.
  intros store.
  split; [apply quiet_propagates, storeDocument_quiet|].
  split; [apply quiet_propagates, deleteDocument_quiet|].
  split; [apply quiet_propagates, clearAllDocuments_quiet|].
  split; [apply storeDocument_Throw|].
  split; [apply deleteDocument_Throw|].
  split; [apply clearAllDocuments_Throw|].
  apply getAllDocuments_storage_error.
Qed.

(** On the example corpus with the next storage call rejected:
    [deleteDocument] throws its generic error and [getAllDocuments]
    returns the empty list. *)
Lemma storage_failure_outcomes_witness :
  (exists e, fst (deleteDocument (js "d1") Sample.failing) = Throw e)
  /\ fst (getAllDocuments Sample.failing) = Ok [].
Proof.
  destruct (storage_failure_outcomes float_number ascii_toLowerCase
              Sample.no_key Sample.offline Sample.document1 (js "d1"))
    as (_ & Hdelete & _ & _ & _ & _ & Hlist).
  split.
  - apply Hdelete. apply list_elem_of_In. vm_compute. left. reflexivity.
  - apply Hlist. apply list_elem_of_In. vm_compute. left. reflexivity.
Defined.

(** C7 as stated fails for [getAllDocuments]: with the example document in
    the store and the read of the collection rejected, the storage error
    occurs during the operation and the operation still returns normally,
    with the empty list. *)
Lemma getAllDocuments_swallows_storage_failure :
  documentsDB Sample.failing !! js "d1" <> None
  /\ EvStorageError ∈ events_during getAllDocuments Sample.failing
  /\ fst (getAllDocuments Sample.failing) = Ok []
  /\ ~ propagates_storage_failure (getAllDocuments (N := float_number)).
Proof.
  assert (Hin : EvStorageError ∈ events_during getAllDocuments Sample.failing)
    by (apply list_elem_of_In; vm_compute; left; reflexivity).
  assert (Hres : fst (getAllDocuments Sample.failing) = Ok [])
    by (vm_compute; reflexivity).
  split; [vm_compute; discriminate|].
  split; [exact Hin|]. split; [exact Hres|].
  intros Hprop. destruct (Hprop Sample.failing Hin) as [e He].
  rewrite Hres in He. discriminate He.
Qed.

(** *** Searching *)

Lemma slice_to_take {A} (n : Z) (l : list A) :
  0 <= n -> slice_to n l = take (Z.to_nat n) l.
Proof.
  intros Hn. unfold slice_to.
  destruct (Z.ltb_spec n 0) as [Hlt|_]; [lia|].
  destruct (Z.le_ge_cases n (Z.of_nat (length l))) as [Hle|Hge].
  - now rewrite Z.min_l by exact Hle.
  - rewrite Z.min_r by exact Hge. rewrite Nat2Z.id.
    rewrite take_ge by lia. rewrite take_ge by lia. reflexivity.
Qed.

Lemma slice_to_subset {A} (n : Z) (l : list A) (x : A) :
  x ∈ slice_to n l -> x ∈ l.
Proof.
  unfold slice_to. intros Hin. rewrite <- (take_drop (Z.to_nat
    (if n <? 0 then Z.max (Z.of_nat (length l) + n) 0
     else Z.min n (Z.of_nat (length l)))) l).
  apply elem_of_app. now left.
Qed.

Section Search.
Context {N : Number}.
Variable toLowerCase : jsstring -> jsstring.
Variable AZURE_OPENAI_API_KEY : option jsstring.
Variable fetch_embedding : jsstring -> remote_outcome.
Variable fuse_search : list DocumentChunk -> jsstring -> list DocumentChunk.
Variable query : jsstring.
Variable topK : Z.

Local Abbreviation fallback := (fallbackTextSearch fuse_search query topK).
Local Abbreviation search :=
  (searchSimilarChunks toLowerCase AZURE_OPENAI_API_KEY fetch_embedding
     fuse_search query topK).

Lemma lexical_hits_same_dbs w w' :
  same_dbs w w' ->
  lexical_hits fuse_search query topK w'
  = lexical_hits fuse_search query topK w.
Proof. intros (_ & He & _). unfold lexical_hits. now rewrite He. Qed.

Lemma fallback_run w0 r w' :
  fallback w0 = (r, w') -> fallback_outcome fuse_search query topK w0 r w'.
Proof.
  unfold fallbackTextSearch, bind, console_log, initializeDatabases,
    embeddings_iterate, storage_call, ret, fallback_outcome.
  simpl.
  destruct (window_defined w0) eqn:Hwin.
  - destruct (faults w0) as [|[|] fs] eqn:Hf; simpl; rewrite Hf; simpl;
      intros H; injection H as <- <-; simpl;
      (split; [eexists; rewrite <- app_assoc; reflexivity|]);
      (split; [now repeat split|]); intros hits Hhits;
      try discriminate Hhits; now injection Hhits as <-.
  - intros H. injection H as <- <-. simpl.
    split; [now exists []|]. split; [now repeat split|].
    intros hits Hhits. discriminate Hhits.
Qed.

Lemma fallback_retry w0 r w' :
  try_catch fallback (fun _ => fallback) w0 = (r, w') ->
  fallback_outcome fuse_search query topK w0 r w'.
Proof.
  unfold try_catch.
  destruct (fallback w0) as [[hits|e] w1] eqn:Hfirst; intros H.
  - injection H as <- <-. now apply fallback_run.
  - apply fallback_run in Hfirst. apply fallback_run in H.
    destruct Hfirst as ((evs1 & Ht1) & Hs1 & _).
    destruct H as ((evs2 & Ht2) & Hs2 & Hh2).
    split; [|split].
    + exists (evs1 ++ EvLog fallback_message :: evs2).
      rewrite Ht2, Ht1, <- app_assoc. reflexivity.
    + eapply same_dbs_trans; eassumption.
    + intros hits Hhits. rewrite (Hh2 hits Hhits).
      now apply lexical_hits_same_dbs.
Qed.

(** The three ways a search can go. *)
Lemma search_run (threshold : num) w :
  exists queryEmbedding,
    embed toLowerCase AZURE_OPENAI_API_KEY fetch_embedding query
    = Ok queryEmbedding
    /\ let chosen :=
         slice_to topK
           (js_sort by_similarity
              (semantic_candidates queryEmbedding threshold w)) in
       let w1 := emit (EvIterate Embeddings)
                   (set_faults (tail (faults w)) w) in
       if window_defined w && negb (hd false (faults w)) then
         if (length chosen =? 0)%nat then
           forall r w',
             search threshold w = (r, w') ->
             fallback_outcome fuse_search query topK w1 r w'
         else search threshold w = (Ok (List.map semantic_hit chosen), w1)
       else
         exists w0,
           same_dbs w w0
           /\ (trace w0 = trace w \/ trace w0 = trace w ++ [EvStorageError])
           /\ forall r w',
                search threshold w = (r, w') ->
                fallback_outcome fuse_search query topK w0 r w'.
Proof.
  destruct (generateEmbedding_total toLowerCase AZURE_OPENAI_API_KEY
              fetch_embedding query) as (qv & Hq & _).
  exists qv. split; [exact Hq|].
  destruct (window_defined w) eqn:Hwin;
    destruct (faults w) as [|[|] fs] eqn:Hf; cbn [andb negb hd]; cbv zeta.
  - unfold searchSimilarChunks, VectorDB.embed, try_catch, bind, lift,
      initializeDatabases, embeddings_iterate, storage_call, ret.
    rewrite Hq, Hwin, Hf. unfold semantic_candidates.
    cbn [tail fst snd embeddingsDB set_faults].
    destruct (length _ =? 0)%nat eqn:Hlen.
    + intros r w'. apply fallback_retry.
    + reflexivity.
  - exists (emit EvStorageError (set_faults fs w)).
    split; [|split]; [| |intros r w' Hrun; eapply fallback_run].
    + now repeat split.
    + right. reflexivity.
    + revert Hrun.
      unfold searchSimilarChunks, VectorDB.embed, try_catch, bind, lift,
        initializeDatabases, embeddings_iterate, storage_call, ret.
      rewrite Hq, Hwin, Hf. intros Hrun. exact Hrun.
  - unfold searchSimilarChunks, VectorDB.embed, try_catch, bind, lift,
      initializeDatabases, embeddings_iterate, storage_call, ret.
    rewrite Hq, Hwin, Hf. unfold semantic_candidates.
    cbn [tail fst snd embeddingsDB set_faults].
    destruct (length _ =? 0)%nat eqn:Hlen.
    + intros r w'. apply fallback_retry.
    + reflexivity.
  - exists w. split; [apply same_dbs_refl|]. split; [now left|].
    intros r w' Hrun. apply fallback_run. revert Hrun.
    unfold searchSimilarChunks, VectorDB.embed, try_catch, bind, lift,
      initializeDatabases. rewrite Hq, Hwin. trivial.
  - exists w. split; [apply same_dbs_refl|]. split; [now left|].
    intros r w' Hrun. apply fallback_run. revert Hrun.
    unfold searchSimilarChunks, VectorDB.embed, try_catch, bind, lift,
      initializeDatabases. rewrite Hq, Hwin. trivial.
  - exists w. split; [apply same_dbs_refl|]. split; [now left|].
    intros r w' Hrun. apply fallback_run. revert Hrun.
    unfold searchSimilarChunks, VectorDB.embed, try_catch, bind, lift,
      initializeDatabases. rewrite Hq, Hwin. trivial.
Qed.

Lemma score_entry_spec (qv : list num) (threshold : num)
    (k : jsstring) (r : EmbeddingData) (c : ScoredChunk) :
  c ∈ score_entry qv threshold (k, r) <->
  exists e,
    emb_embedding r = Some e
    /\ truthy (emb_content r) = true
    /\ gtb (cosineSimilarity qv e) threshold = true
    /\ c = {| sc_chunk :=
                {| chunk_id := k; content := emb_content r;
                   metadata := emb_metadata r; embedding := Some e |};
              sc_similarity := cosineSimilarity qv e |}.
Proof.
  unfold score_entry.
  destruct (emb_embedding r) as [e|]; [|split].
  - destruct (truthy (emb_content r)); [|split].
    + destruct (gtb (cosineSimilarity qv e) threshold) eqn:Hgt; split.
      * intros Hin. apply list_elem_of_singleton in Hin. now exists e.
      * intros (e' & He' & _ & _ & ->). injection He' as <-.
        now apply list_elem_of_singleton.
      * intros Hin. now apply elem_of_nil in Hin.
      * intros (e' & He' & _ & Hgt' & _). injection He' as <-. congruence.
    + intros Hin. now apply elem_of_nil in Hin.
    + intros (e' & _ & Ht & _). discriminate Ht.
  - intros Hin. now apply elem_of_nil in Hin.
  - intros (e' & He' & _). discriminate He'.
Qed.

Lemma semantic_candidates_spec (qv : list num) (threshold : num) w
    (c : ScoredChunk) :
  c ∈ semantic_candidates qv threshold w <->
  exists k r, embeddingsDB w !! k = Some r
              /\ c ∈ score_entry qv threshold (k, r).
Proof.
  unfold semantic_candidates.
  rewrite list_elem_of_In, in_flat_map. split.
  - intros ([k r] & Hin & Hc). exists k, r. split.
    + now apply elem_of_map_to_list, list_elem_of_In.
    + now apply list_elem_of_In.
  - intros (k & r & Hl & Hc). exists (k, r). split.
    + now apply list_elem_of_In, elem_of_map_to_list.
    + now apply list_elem_of_In.
Qed.

Lemma semantic_candidates_nil (qv : list num) (threshold : num) w :
  semantic_candidates qv threshold w = [] <->
  forall k r, embeddingsDB w !! k = Some r -> ~ exceeds qv threshold r.
Proof.
  split.
  - intros Hnil k r Hl (e & He & Ht & Hgt).
    assert (Hin : {| sc_chunk :=
                       {| chunk_id := k; content := emb_content r;
                          metadata := emb_metadata r; embedding := Some e |};
                     sc_similarity := cosineSimilarity qv e |}
                  ∈ semantic_candidates qv threshold w).
    { apply semantic_candidates_spec. exists k, r. split; [exact Hl|].
      apply score_entry_spec. now exists e. }
    rewrite Hnil in Hin. now apply elem_of_nil in Hin.
  - intros Hnone.
    destruct (semantic_candidates qv threshold w) as [|c cs] eqn:Hc;
      [reflexivity|].
    assert (Hin : c ∈ semantic_candidates qv threshold w)
      by (rewrite Hc; left).
    apply semantic_candidates_spec in Hin.
    destruct Hin as (k & r & Hl & Hin).
    apply score_entry_spec in Hin.
    destruct Hin as (e & He & Ht & Hgt & _).
    exfalso. apply (Hnone k r Hl). now exists e.
Qed.

Lemma text_entry_stored w (item : DocumentChunk) :
  item ∈ flat_map text_entry (map_to_list (embeddingsDB w)) ->
  is_Some (embeddingsDB w !! chunk_id item).
Proof.
  rewrite list_elem_of_In, in_flat_map.
  intros ([k r] & Hin & Hitem).
  apply list_elem_of_In, elem_of_map_to_list in Hin.
  unfold text_entry in Hitem.
  destruct (truthy (emb_content r)); [|contradiction].
  destruct Hitem as [<-|[]]. simpl. now exists r.
Qed.

Lemma lexical_hits_stored w (h : SearchHit) :
  returns_indexed_items fuse_search ->
  h ∈ lexical_hits fuse_search query topK w ->
  is_Some (embeddingsDB w !! chunk_id (hit_chunk h)).
Proof.
  intros Hfuse Hin. unfold lexical_hits in Hin.
  apply list_elem_of_In, in_map_iff in Hin.
  destruct Hin as (item & <- & Hin). simpl.
  apply list_elem_of_In, slice_to_subset, Hfuse in Hin.
  now apply text_entry_stored.
Qed.

Lemma chosen_are_candidates (qv : list num) (threshold : num) w
    (c : ScoredChunk) :
  c ∈ slice_to topK (js_sort by_similarity
                       (semantic_candidates qv threshold w)) ->
  c ∈ semantic_candidates qv threshold w.
Proof.
  intros Hin. apply slice_to_subset in Hin.
  now rewrite <- (js_sort_perm by_similarity _) in Hin.
Qed.

(** Every search result is a chunk the embeddings collection holds. *)
Lemma search_hits_stored (threshold : num) w hits w' :
  returns_indexed_items fuse_search ->
  search threshold w = (Ok hits, w') ->
  forall h, h ∈ hits -> is_Some (embeddingsDB w !! chunk_id (hit_chunk h)).
Proof.
  intros Hfuse Hrun h Hin.
  destruct (search_run threshold w) as (qv & _ & Hcases).
  cbv zeta in Hcases.
  destruct (window_defined w && negb (hd false (faults w))).
  - destruct (length _ =? 0)%nat.
    + destruct (Hcases _ _ Hrun) as (_ & (_ & He & _) & Hhits).
      rewrite (Hhits hits eq_refl) in Hin.
      apply (lexical_hits_stored _ _ Hfuse) in Hin.
      exact Hin.
    + rewrite Hcases in Hrun. injection Hrun as <- <-.
      apply list_elem_of_In, in_map_iff in Hin.
      destruct Hin as (c & <- & Hin). simpl.
      apply list_elem_of_In, chosen_are_candidates,
        semantic_candidates_spec in Hin.
      destruct Hin as (k & r & Hl & Hc).
      apply score_entry_spec in Hc. destruct Hc as (e & _ & _ & _ & ->).
      simpl. now exists r.
  - destruct Hcases as (w0 & (_ & He0 & _) & _ & Hfb).
    destruct (Hfb _ _ Hrun) as (_ & _ & Hhits).
    rewrite (Hhits hits eq_refl) in Hin.
    apply (lexical_hits_stored _ _ Hfuse) in Hin. now rewrite <- He0.
Qed.

End Search.

(** *** The corpus invariant *)

Section Consistency.
Context {N : Number}.
Variable toLowerCase : jsstring -> jsstring.
Variable AZURE_OPENAI_API_KEY : option jsstring.
Variable fetch_embedding : jsstring -> remote_outcome.
Variable fuse_search : list DocumentChunk -> jsstring -> list DocumentChunk.

(** Searching reads the corpus and leaves it as it is. *)
Lemma searchSimilarChunks_reads_only (query : jsstring) (topK : Z)
    (threshold : num) :
  respects same_dbs
    (searchSimilarChunks toLowerCase AZURE_OPENAI_API_KEY fetch_embedding
       fuse_search query topK threshold).
Proof.
  assert (Hfallback : respects same_dbs
                        (fallbackTextSearch fuse_search query topK)).
  { intros w r w' Hrun. now apply fallback_run in Hrun as (_ & Hsame & _). }
  unfold searchSimilarChunks.
  apply respects_try_catch;
    [apply same_dbs_trans | | intros _; exact Hfallback].
  apply respects_bind; [apply same_dbs_trans | |].
  - apply respects_lift, same_dbs_refl.
  - intros queryEmbedding.
    apply respects_bind; [apply same_dbs_trans | |].
    + apply respects_initializeDatabases, same_dbs_refl.
    + intros _.
      apply respects_bind; [apply same_dbs_trans | |].
      * apply respects_storage_call; intros w; now repeat split.
      * intros entries. destruct (length _ =? 0)%nat; [exact Hfallback|].
        apply respects_ret, same_dbs_refl.
Qed.

Lemma setItem_loop_origin (document : ProcessedDocument)
    (cs : list DocumentChunk) w (u : unit) w' :
  for_each
    (fun chunk =>
       embeddings_setItem (chunk_id chunk) (embedding_record document chunk))
    cs w = (Ok u, w') ->
  forall k r,
    embeddingsDB w' !! k = Some r ->
    embeddingsDB w !! k = Some r
    \/ exists chunk,
         chunk ∈ cs /\ k = chunk_id chunk
         /\ r = embedding_record document chunk.
Proof.
  revert w. induction cs as [|c cs IH]; intros w H k r Hr; simpl in H.
  - injection H as _ <-. now left.
  - apply bind_Ok in H. destruct H as (a & w1 & Hset & Hrest).
    apply storage_call_Ok in Hset. destruct Hset as (_ & _ & ->).
    destruct (IH _ Hrest k r Hr) as [Hold|(chunk & Hin & Hk & Hrec)].
    + simpl in Hold. destruct (decide (chunk_id c = k)) as [<-|Hne].
      * rewrite lookup_insert_eq in Hold. injection Hold as <-.
        right. exists c. split; [left|]. now split.
      * rewrite lookup_insert_ne in Hold by exact Hne. now left.
    + right. exists chunk. split; [now right|]. now split.
Qed.

Lemma corpus_consistent_empty (w : World) :
  embeddingsDB w = ∅ -> corpus_consistent w.
Proof. intros He c r Hr. rewrite He, lookup_empty in Hr. discriminate Hr. Qed.

(** Storing a document under an id the store does not hold keeps the
    corpus consistent. *)
Lemma storeDocument_consistent (document : ProcessedDocument) w w' :
  documentsDB w !! doc_id document = None ->
  corpus_consistent w ->
  storeDocument toLowerCase AZURE_OPENAI_API_KEY fetch_embedding document w
  = (Ok tt, w') ->
  corpus_consistent w'.
Proof.
  intros Hfresh Hcons H. unfold storeDocument in H.
  apply try_catch_throwing_Ok in H; [|intros [msg] w0; now eexists].
  apply bind_Ok in H. destruct H as (u0 & w0 & Hinit & H).
  apply initializeDatabases_Ok in Hinit. destruct Hinit as (_ & ->).
  apply bind_Ok in H. destruct H as (cs & w1 & Hmap & H).
  unfold lift in Hmap. injection Hmap as _ <-.
  apply bind_Ok in H. destruct H as (u1 & w2 & Hset & Hloop).
  apply storage_call_Ok in Hset. destruct Hset as (_ & _ & ->).
  pose proof (setItem_loop_same_documents document cs _ _ _ Hloop)
    as (Hdocs & _).
  simpl in Hdocs.
  intros k r Hr. rewrite Hdocs.
  destruct (setItem_loop_origin _ _ _ _ _ Hloop k r Hr)
    as [Hold|(chunk & Hin & -> & ->)].
  - simpl in Hold. destruct (Hcons k r Hold) as (d & Hd & Hk).
    exists d. split; [|exact Hk].
    rewrite lookup_insert_ne; [exact Hd|].
    intros Heq. rewrite Heq, Hd in Hfresh. discriminate Hfresh.
  - exists (with_chunks document cs). simpl.
    split; [apply lookup_insert_eq|].
    apply list_elem_of_In, in_map. now apply list_elem_of_In.
Qed.

(** Deleting a document keeps the corpus consistent. *)
Lemma deleteDocument_consistent (id : jsstring) w w' :
  corpus_consistent w ->
  deleteDocument id w = (Ok tt, w') ->
  corpus_consistent w'.
Proof.
  intros Hcons Hrun. apply deleteDocument_Ok in Hrun.
  destruct Hrun as (_ & Hspec).
  destruct (documentsDB w !! id) as [document|] eqn:Hdoc.
  - cbv zeta in Hspec. destruct Hspec as (Hdocs & Hembs & _).
    intros k r Hr. rewrite Hembs in Hr.
    destruct (decide (k ∈ List.map chunk_id (doc_chunks document)))
      as [Hin|Hnin]; [discriminate Hr|].
    destruct (Hcons k r Hr) as (d & Hd & Hk).
    exists d. split; [|exact Hk]. rewrite Hdocs.
    rewrite lookup_delete_ne; [exact Hd|].
    intros Heq. rewrite <- Heq, Hdoc in Hd. injection Hd as <-. contradiction.
  - destruct Hspec as ((Hdocs & Hembs & _) & _).
    intros k r Hr. rewrite Hembs in Hr. rewrite Hdocs. now apply Hcons.
Qed.

End Consistency.

(** C2: in a browser whose storage works [deleteDocument] and
    [clearAllDocuments] return normally.  Whenever [deleteDocument(id)] has
    returned for a stored document with chunk ids c1..cn, it has read the
    document, removed the embedding record of c1, ..., of cn, in this
    order, and only then removed the document; afterwards the document is
    gone, no ci has an embedding record, iterating the embeddings
    collection yields none of them, the other records are untouched, and
    no search result (the text index returning only items it was given) is
    one of the ci; if the corpus was consistent, no record names the
    deleted document any more, so no search result belongs to it.
    Whenever [clearAllDocuments] has returned, both collections are
    empty. *)
Theorem deleteDocument_removes_embeddings (N : Number)
    (toLowerCase : jsstring -> jsstring)
    (AZURE_OPENAI_API_KEY : option jsstring)
    (fetch_embedding : jsstring -> remote_outcome)
    (fuse_search : list DocumentChunk -> jsstring -> list DocumentChunk)
    (id : jsstring) :
  (succeeds (deleteDocument id) /\ succeeds clearAllDocuments)
  /\ (forall document w w',
        documentsDB w !! id = Some document ->
        deleteDocument id w = (Ok tt, w') ->
        let ids := List.map chunk_id (doc_chunks document) in
        events_during (deleteDocument id) w
        = EvGetItem Documents id
          :: (List.map (EvRemoveItem Embeddings) ids
              ++ [EvRemoveItem Documents id])
        /\ documentsDB w' !! id = None
        /\ (forall c, c ∈ ids -> embeddingsDB w' !! c = None)
        /\ (forall entries w2,
              embeddings_iterate w' = (Ok entries, w2) ->
              forall c, c ∈ ids -> c ∉ List.map fst entries)
        /\ (forall k, k ∉ ids -> embeddingsDB w' !! k = embeddingsDB w !! k)
        /\ (corpus_consistent w ->
            forall c r, embeddingsDB w' !! c = Some r -> documentId r <> id)
        /\ (returns_indexed_items fuse_search ->
            forall query topK threshold hits w2,
              searchSimilarChunks toLowerCase AZURE_OPENAI_API_KEY
                fetch_embedding fuse_search query topK threshold w'
              = (Ok hits, w2) ->
              forall h,
                h ∈ hits ->
                (chunk_id (hit_chunk h) ∉ ids)
                /\ (corpus_consistent w ->
                    forall r,
                      embeddingsDB w' !! chunk_id (hit_chunk h) = Some r ->
                      documentId r <> id)))
  /\ (forall w w',
        clearAllDocuments w = (Ok tt, w') ->
        documentsDB w' = ∅ /\ embeddingsDB w' = ∅).
Proof.
  split; [split; [apply deleteDocument_succeeds
                 | apply clearAllDocuments_succeeds]|].
  split; [|intros w w'; apply clearAllDocuments_Ok].
  intros document w w' Hdoc Hrun ids.
  pose proof (deleteDocument_Ok id w tt w' Hrun) as (_ & Hspec).
  rewrite Hdoc in Hspec. cbv zeta in Hspec. fold ids in Hspec.
  destruct Hspec as (Hdocs & Hembs & Htrace).
  assert (Hgone : forall c, c ∈ ids -> embeddingsDB w' !! c = None).
  { intros c Hc. rewrite Hembs. now destruct (decide (c ∈ ids)). }
  assert (Hkept : forall k, k ∉ ids ->
                            embeddingsDB w' !! k = embeddingsDB w !! k).
  { intros k Hk. rewrite Hembs. now destruct (decide (k ∈ ids)). }
  assert (Hname : corpus_consistent w ->
                  forall c r, embeddingsDB w' !! c = Some r ->
                              documentId r <> id).
  { intros Hcons c r Hr Hid.
    destruct (decide (c ∈ ids)) as [Hin|Hnin].
    - rewrite (Hgone c Hin) in Hr. discriminate Hr.
    - rewrite (Hkept c Hnin) in Hr.
      destruct (Hcons c r Hr) as (document' & Hdoc' & Hc').
      rewrite Hid, Hdoc in Hdoc'. injection Hdoc' as <-. contradiction. }
  split.
  { unfold events_during. rewrite Hrun. simpl snd.
    rewrite Htrace. apply drop_app_length. }
  split; [rewrite Hdocs; apply lookup_delete_eq|].
  split; [exact Hgone|].
  split.
  { intros entries w2 Hiter c Hc Hin.
    apply storage_call_Ok in Hiter. destruct Hiter as (_ & -> & _).
    simpl in Hin. apply list_elem_of_In, in_map_iff in Hin.
    destruct Hin as ([k r] & <- & Hin).
    apply list_elem_of_In, elem_of_map_to_list in Hin. simpl in Hc.
    rewrite (Hgone k Hc) in Hin. discriminate Hin. }
  split; [exact Hkept|].
  split; [exact Hname|].
  intros Hfuse query topK threshold hits w2 Hsearch h Hh.
  pose proof (search_hits_stored _ _ _ _ _ _ _ _ _ _ Hfuse Hsearch h Hh)
    as [r Hr].
  split.
  - intros Hin. rewrite (Hgone _ Hin) in Hr. discriminate Hr.
  - intros Hcons r' Hr'. now apply (Hname Hcons _ _ Hr').
Qed.

Lemma corpus_consistentb_sound (N : Number) (w : World) :
  corpus_consistentb w = true -> corpus_consistent w.
Proof.
  unfold corpus_consistentb, corpus_consistent. intros Hb c r Hr.
  rewrite forallb_forall in Hb.
  specialize (Hb (c, r)). simpl in Hb.
  assert (Hin : In (c, r) (map_to_list (embeddingsDB w)))
    by now apply list_elem_of_In, elem_of_map_to_list.
  specialize (Hb Hin).
  destruct (documentsDB w !! documentId r) as [document|];
    [|discriminate Hb].
  exists document. split; [reflexivity|]. now apply bool_decide_eq_true in Hb.
Qed.

(** Deleting the document of the example corpus. *)
Lemma deleteDocument_removes_embeddings_witness :
  let w' := snd (deleteDocument (js "d1") Sample.stored) in
  documentsDB w' !! js "d1" = None
  /\ embeddingsDB w' !! js "c1" = None
  /\ embeddingsDB w' !! js "c2" = None
  /\ (forall c r, embeddingsDB w' !! c = Some r -> documentId r <> js "d1")
  /\ (forall query topK threshold hits w2,
        searchSimilarChunks ascii_toLowerCase Sample.no_key Sample.offline
          Sample.fuse_all query topK threshold w' = (Ok hits, w2) ->
        forall h,
          h ∈ hits -> chunk_id (hit_chunk h) ∉ [js "c1"; js "c2"]).
Proof.
  intros w'.
  destruct (deleteDocument_removes_embeddings float_number ascii_toLowerCase
              Sample.no_key Sample.offline Sample.fuse_all (js "d1"))
    as ((Hsucc & _) & Hdelete & _).
  destruct (Hsucc Sample.stored eq_refl eq_refl) as ([] & w1 & Hrun & _).
  assert (Hw' : w' = w1) by (unfold w'; now rewrite Hrun).
  destruct (documentsDB Sample.stored !! js "d1") as [document|] eqn:Hdoc;
    [|vm_compute in Hdoc; discriminate Hdoc].
  assert (Hids : List.map chunk_id (doc_chunks document)
                 = [js "c1"; js "c2"]).
  { assert (H : option_map
                  (fun d : ProcessedDocument (N := float_number) =>
                     List.map chunk_id (doc_chunks d))
                  (documentsDB Sample.stored !! js "d1")
                = Some [js "c1"; js "c2"]) by (vm_compute; reflexivity).
    rewrite Hdoc in H. now injection H. }
  destruct (Hdelete document Sample.stored w1 Hdoc Hrun)
    as (_ & Hgone & Hrecords & _ & _ & Hname & Hsearch).
  rewrite Hids in Hrecords, Hsearch. rewrite Hw'.
  split; [exact Hgone|].
  split; [apply Hrecords; left|].
  split; [apply Hrecords; right; left|].
  split.
  - apply Hname. apply corpus_consistentb_sound. vm_compute. reflexivity.
  - intros query topK threshold hits w2 Hrun' h Hh.
    apply (Hsearch (fun items q item Hin => Hin) query topK threshold hits w2
             Hrun' h Hh).
Defined.

End VectorDBFacts.

(** ** Binary64: the rounding of the arithmetic operations *)

Module Binary64Facts.
Import Binary64.

(** *** Digits and shifts *)

Lemma digits2_size (m : positive) : digits2_pos m = Pos.size m.
Proof. induction m as [m IH|m IH|]; simpl; now rewrite ?IH. Qed.

Lemma digits2_bounds (m : positive) :
  2 ^ (Z.pos (digits2_pos m) - 1) <= Z.pos m < 2 ^ Z.pos (digits2_pos m).
Proof.
  induction m as [m IH|m IH|]; cbn [digits2_pos].
  - rewrite Pos2Z.inj_succ, Z.pow_succ_r by lia.
    replace (Z.succ (Z.pos (digits2_pos m)) - 1)
      with (Z.succ (Z.pos (digits2_pos m) - 1)) by lia.
    rewrite Z.pow_succ_r by lia. lia.
  - rewrite Pos2Z.inj_succ, Z.pow_succ_r by lia.
    replace (Z.succ (Z.pos (digits2_pos m)) - 1)
      with (Z.succ (Z.pos (digits2_pos m) - 1)) by lia.
    rewrite Z.pow_succ_r by lia. lia.
  - simpl. lia.
Qed.










(** *** Rounding a located mantissa *)


Lemma fexp_subnormal (z : Z) : z <= -1021 -> fexp prec emax z = -1074.
Proof. unfold fexp, SpecFloat.emin, prec, emax. lia. Qed.




(** *** Powers of two in the reals *)


Lemma bpow_pos (e : Z) : (0 < powerRZ 2 e)%R.
Proof. apply powerRZ_lt. lra. Qed.

Lemma bpow_add (a b : Z) : powerRZ 2 (a + b) = (powerRZ 2 a * powerRZ 2 b)%R.
Proof. apply powerRZ_add. lra. Qed.

Lemma bpow_Z (n : Z) : 0 <= n -> powerRZ 2 n = IZR (2 ^ n).
Proof.
  intros Hn. destruct n as [|p|p]; [reflexivity| |lia].
  unfold powerRZ. rewrite pow_IZR. now rewrite positive_nat_Z.
Qed.


Lemma bpow_lt (a b : Z) : a < b -> (powerRZ 2 a < powerRZ 2 b)%R.
Proof.
  intros Hab. replace b with (a + (b - a)) by lia.
  rewrite bpow_add. rewrite (bpow_Z (b - a)) by lia.
  pose proof (bpow_pos a) as Ha.
  assert (H2 : (2 <= IZR (2 ^ (b - a)))%R).
  { apply IZR_le. change 2 with (2 ^ 1) at 1.
    apply Z.pow_le_mono_r; lia. }
  nra.
Qed.

Lemma bpow_le (a b : Z) : a <= b -> (powerRZ 2 a <= powerRZ 2 b)%R.
Proof.
  intros Hab. destruct (Z.eq_dec a b) as [->|Hne]; [lra|].
  apply Rlt_le, bpow_lt. lia.
Qed.



(** *** What the valid numbers look like *)



Lemma mantissa53 (m : positive) :
  Z.pos (digits2_pos m) = 53 ->
  4503599627370496 <= Z.pos m < 9007199254740992.
Proof.
  intros Hd. pose proof (digits2_bounds m) as Hm. rewrite Hd in Hm.
  exact Hm.
Qed.

Lemma mantissa53_R (m : positive) :
  Z.pos (digits2_pos m) = 53 ->
  (4503599627370496 <= IZR (Z.pos m) < 9007199254740992)%R.
Proof.
  intros Hd. destruct (mantissa53 m Hd) as [H1 H2].
  split; [apply IZR_le|apply IZR_lt]; assumption.
Qed.

(** *** Multiplication *)


(** *** Division *)


(** *** Square root *)




(** *** Numbers read from the primitive floats *)





(** *** Signs and magnitudes that rounding keeps *)








(** *** Sums, squares and roots of numbers that are not negative *)













(** *** The rational value of a number *)





(** *** The order of the numbers *)










(** *** The sign of a difference *)






End Binary64Facts.

(** ** The fallback vector in binary64 *)

Module FallbackVectorFacts.
Import JS Embedding EmbeddingFacts Binary64 Binary64Facts.

(** *** The two loops, for any numbers with a notion of sign *)

Section Counting.
Context {N : Number}.
Variable toLowerCase : jsstring -> jsstring.
Variables nonneg pos : num -> Prop.
Hypothesis nonneg_zero : nonneg zero.
Hypothesis nonneg_tenth : nonneg tenth.
Hypothesis pos_one : pos one.
Hypothesis pos_nonneg : forall x, pos x -> nonneg x.
Hypothesis add_nonneg : forall x y, nonneg x -> nonneg y -> nonneg (add x y).
Hypothesis add_pos_l : forall x y, pos x -> nonneg y -> pos (add x y).
Hypothesis add_pos_r : forall x y, nonneg x -> pos y -> pos (add x y).
Hypothesis square_nonneg : forall x, nonneg x -> nonneg (mul x x).
Hypothesis square_pos : forall x, pos x -> pos (mul x x).








End Counting.

(** *** In binary64 the magnitude is at least 1 *)


(** *** The norm, read off the formula *)






End FallbackVectorFacts.

(** ** Cosine similarity in binary64 *)

Module CosineFacts.
Import JS Embedding VectorDB VectorDBFacts Binary64 Binary64Facts.
Import FallbackVectorFacts.

Section AnyNumber.
Context {N : Number}.



End AnyNumber.



(** *** Vectors of zeros *)







End CosineFacts.

(** ** The search in binary64 *)

Module SearchFacts.
Import JS Embedding EmbeddingFacts VectorDB VectorDBFacts Binary64
  Binary64Facts.

(** *** Sorting elements that can be compared *)

Section SortingOn.
Context {A : Type}.
Variable swap : A -> A -> bool.
Variable before : A -> A -> Prop.
Variable comparable : A -> Prop.
Hypothesis before_trans :
  forall x y z, comparable x -> comparable y -> comparable z ->
                before x y -> before y z -> before x z.
Hypothesis swap_true :
  forall x y, comparable x -> comparable y -> swap x y = true -> before y x.
Hypothesis swap_false :
  forall x y, comparable x -> comparable y -> swap x y = false -> before x y.



End SortingOn.

(** *** The records the semantic step retains *)

Section Candidates.
Context {N : Number}.
Variable queryEmbedding : list num.
Variable threshold : num.







(** *** The items of the text index *)


End Candidates.

(** *** Scores in binary64 *)









End SearchFacts.

(** ** The operations run in binary64 *)

Module Runs.
Import JS Chunker Embedding VectorDB.

Example chunkText_three_sentences :
  chunkText_default
    (js "Hello world, this is a test. Another sentence here! And a third one?")
  = [js "Hello world, this is a test. Another sentence here. And a third one."].
Proof. vm_compute. reflexivity. Qed.

Example chunkText_short_text : chunkText_default (js "Too short.") = [].
Proof. vm_compute. reflexivity. Qed.

Example simpleHash_hello : simpleHash (js "hello") = 99162322.
Proof. vm_compute. reflexivity. Qed.

Example generateSimpleVector_empty_text :
  generateSimpleVector (N := float_number) ascii_toLowerCase []
  = 1%float :: replicate 3071 0%float.
Proof. vm_compute. reflexivity. Qed.

Example cosineSimilarity_3_4 :
  cosineSimilarity (N := float_number) [3%float; 4%float] [3%float; 4%float]
  = 1%float.
Proof. vm_compute. reflexivity. Qed.

Example events_of_store1 :
  events_during Sample.store1 Sample.browser
  = [EvSetItem Documents (js "d1"); EvSetItem Embeddings (js "c1");
     EvSetItem Embeddings (js "c2")].
Proof. vm_compute. reflexivity. Qed.

Example search_stored_corpus :
  result_bind
    (fst (searchSimilarChunks (N := float_number) ascii_toLowerCase
            Sample.no_key Sample.offline Sample.fuse_all (js "constitution")
            3 0x1.3333333333333p-2%float Sample.stored))
    (fun hits : list (SearchHit (N := float_number)) =>
       Ok (List.map (fun h => chunk_id (hit_chunk h)) hits))
  = Ok [js "c1"].
Proof. vm_compute. reflexivity. Qed.

End Runs.

(** * Further properties of the code *)

(** ** Chunker: shape of the chunks *)

Module ChunkerShape.
Import JS Chunker.

Lemma Forall_trimStart (P : N -> Prop) (s : jsstring) :
  Forall P s -> Forall P (trimStart s).
Proof.
  induction 1 as [|c s Hc Hs IH]; simpl; [constructor|].
  destruct (is_space c); [exact IH | now constructor].
Qed.

Lemma Forall_trim (P : N -> Prop) (s : jsstring) :
  Forall P s -> Forall P (trim s).
Proof.
  intros H. unfold trim.
  apply Forall_rev, Forall_trimStart, Forall_rev, Forall_trimStart, H.
Qed.

Lemma trimStart_spaces (s : jsstring) :
  Forall (fun c => is_space c = true) s -> trimStart s = [].
Proof.
  induction 1 as [|c s Hc Hs IH]; simpl; [reflexivity|]. now rewrite Hc.
Qed.

Lemma trim_spaces (s : jsstring) :
  Forall (fun c => is_space c = true) s -> trim s = [].
Proof.
  intros H. unfold trim. rewrite (trimStart_spaces s H). reflexivity.
Qed.

(** The pieces of a split hold characters of the string, none of them a
    separator. *)
Lemma split_runs_aux_pieces (p : N -> bool) (P : N -> Prop)
    (s acc : jsstring) (in_run : bool) :
  Forall P s -> Forall P acc ->
  Forall (fun c => p c = false) acc ->
  Forall (Forall (fun c => P c /\ p c = false))
    (split_runs_aux p s acc in_run).
Proof.
  intros Hs. revert acc in_run.
  induction Hs as [|c s Hc Hs IH]; intros acc in_run Hacc Hsep; simpl.
  - constructor; [|constructor]. apply Forall_rev.
    apply Forall_and; split; assumption.
  - destruct (p c) eqn:Hpc.
    + destruct in_run.
      * now apply IH.
      * constructor; [|apply IH; constructor].
        apply Forall_rev. apply Forall_and; split; assumption.
    + apply IH; now constructor.
Qed.

Lemma split_runs_pieces (p : N -> bool) (P : N -> Prop) (s : jsstring) :
  Forall P s ->
  Forall (Forall (fun c => P c /\ p c = false)) (split_runs p s).
Proof. intros Hs. apply split_runs_aux_pieces; [exact Hs | constructor ..]. Qed.

Lemma split_char_aux_pieces (sep : N) (P : N -> Prop) (s acc : jsstring) :
  Forall P s -> Forall P acc ->
  Forall (Forall P) (split_char_aux sep s acc).
Proof.
  intros Hs. revert acc.
  induction Hs as [|c s Hc Hs IH]; intros acc Hacc; simpl.
  - constructor; [now apply Forall_rev | constructor].
  - destruct (c =? sep)%N.
    + constructor; [now apply Forall_rev | apply IH; constructor].
    + apply IH. now constructor.
Qed.

Lemma Forall_join (P : N -> Prop) (sep : jsstring) (a : list jsstring) :
  Forall P sep -> Forall (Forall P) a -> Forall P (join sep a).
Proof.
  intros Hsep. induction 1 as [|x a Hx Ha IH]; simpl; [constructor|].
  destruct a as [|y a]; [exact Hx|].
  apply Forall_app. split; [exact Hx|]. apply Forall_app. now split.
Qed.

Lemma Forall_slice_from {A} (P : A -> Prop) (start : Z) (a : list A) :
  Forall P a -> Forall P (slice_from start a).
Proof. intros H. unfold slice_from. now apply Forall_drop. Qed.

Lemma overlapWords_chars (P : N -> Prop) (overlap : Z) (cur : jsstring) :
  Forall P cur -> Forall (Forall P) (overlapWords overlap cur).
Proof.
  intros H. unfold overlapWords. apply Forall_slice_from.
  apply split_char_aux_pieces; [exact H | constructor].
Qed.

(** What every loop state satisfies when the sentences do: the buffer
    and the chunks hold characters that satisfy [P], and every chunk ends
    with the period that closed it. *)
Lemma step_chars (P : N -> Prop) (maxChunkSize overlap : Z)
    (st : loop_state) (sentence : jsstring) :
  P 46%N -> P 32%N -> Forall P sentence ->
  Forall P (currentChunk st) /\ Forall (Forall P) (chunks st) ->
  Forall P (currentChunk (step maxChunkSize overlap st sentence))
  /\ Forall (Forall P) (chunks (step maxChunkSize overlap st sentence)).
Proof.
  intros Hdot Hsp Hs (Hcur & Hchunks). unfold step.
  pose proof (Forall_trim P sentence Hs) as Ht.
  assert (Hps : Forall P period_space) by (repeat constructor; assumption).
  assert (Hp : Forall P period) by (repeat constructor; assumption).
  assert (Hspace : Forall P space) by (repeat constructor; assumption).
  destruct (negb (truthy (trim sentence))); [now split|].
  destruct (Z.of_nat _ <=? maxChunkSize); simpl.
  - split; [|exact Hchunks].
    apply Forall_app. split; [exact Hcur|]. apply Forall_app. split; [|exact Ht].
    destruct (truthy (currentChunk st)); [exact Hps | constructor].
  - destruct (truthy (currentChunk st)); simpl; [|now split].
    split.
    + apply Forall_app. split.
      * apply Forall_join; [exact Hspace | now apply overlapWords_chars].
      * apply Forall_app. split; [|exact Ht].
        destruct (0 <? length _)%nat; [exact Hps | constructor].
    + apply Forall_app. split; [exact Hchunks|].
      constructor; [|constructor]. apply Forall_app. now split.
Qed.

Lemma fold_step_chars (P : N -> Prop) (maxChunkSize overlap : Z)
    (sentences : list jsstring) (st : loop_state) :
  P 46%N -> P 32%N -> Forall (Forall P) sentences ->
  Forall P (currentChunk st) /\ Forall (Forall P) (chunks st) ->
  let st' := fold_left (step maxChunkSize overlap) sentences st in
  Forall P (currentChunk st') /\ Forall (Forall P) (chunks st').
Proof.
  intros Hdot Hsp Hs. revert st.
  induction Hs as [|s sentences Hs1 Hs2 IH]; intros st Hst; simpl;
    [exact Hst|].
  apply IH. now apply step_chars.
Qed.

(** X1: whatever the text, no chunk holds an exclamation or a question mark:
    the sentence ends are all rewritten to periods.  More generally the
    chunks are made of characters of the text, of periods and of
    spaces. *)
Theorem chunkText_characters (P : N -> Prop) (text : jsstring)
    (maxChunkSize overlap : Z) :
  P 46%N -> P 32%N ->
  Forall (fun c => is_sentence_end c = false -> P c) text ->
  Forall (Forall P) (chunkText text maxChunkSize overlap).
Proof.
  intros Hdot Hsp Htext. unfold chunkText.
  assert (Hsent : Forall (Forall P) (sentences_of text)).
  { unfold sentences_of.
    apply List.Forall_forall. intros s Hin. apply filter_In in Hin.
    destruct Hin as [Hin _].
    pose proof (split_runs_pieces is_sentence_end _ text Htext) as Hp.
    rewrite List.Forall_forall in Hp. specialize (Hp s Hin).
    eapply Forall_impl; [exact Hp|]. intros c [Hc Hn]. now apply Hc. }
  pose proof (fold_step_chars P maxChunkSize overlap (sentences_of text)
                {| chunks := []; currentChunk := [] |} Hdot Hsp Hsent)
    as Hfold.
  cbv zeta in Hfold. destruct Hfold as (Hcur & Hchunks);
    [split; simpl; constructor|].
  apply List.Forall_forall. intros chunk Hin. apply filter_In in Hin.
  destruct Hin as [Hin _].
  destruct (truthy _).
  - apply in_app_or in Hin. destruct Hin as [Hin|[<-|[]]].
    + rewrite List.Forall_forall in Hchunks. now apply Hchunks.
    + apply Forall_app. split; [exact Hcur|]. repeat constructor. exact Hdot.
  - rewrite List.Forall_forall in Hchunks. now apply Hchunks.
Qed.

(** A text with an exclamation and a question mark. *)
Lemma chunkText_characters_witness :
  Forall (Forall (fun c => c <> 33%N /\ c <> 63%N))
    (chunkText_default (js "Is this the preamble? Yes, it is! Read it.")).
Proof.
  apply chunkText_characters.
  - split; discriminate.
  - split; discriminate.
  - apply List.Forall_forall. intros c _ Hc. split; intros ->; discriminate Hc.
Defined.

(** Every chunk ends with the period that closed it. *)
Lemma step_closed (maxChunkSize overlap : Z) (st : loop_state)
    (sentence : jsstring) :
  Forall (fun chunk => exists body, chunk = body ++ period) (chunks st) ->
  Forall (fun chunk => exists body, chunk = body ++ period)
    (chunks (step maxChunkSize overlap st sentence)).
Proof.
  intros H. unfold step.
  destruct (negb (truthy (trim sentence))); [exact H|].
  destruct (Z.of_nat _ <=? maxChunkSize); [exact H|].
  destruct (truthy (currentChunk st)); [|exact H]. simpl.
  apply Forall_app. split; [exact H|]. constructor; [|constructor].
  now eexists.
Qed.

(** The loop closes at most one chunk per sentence, and none before the
    buffer holds something. *)
Lemma step_count (maxChunkSize overlap : Z) (st : loop_state)
    (sentence : jsstring) (n : nat) :
  (length (chunks st) + (if truthy (currentChunk st) then 1 else 0) <= n)%nat ->
  let st' := step maxChunkSize overlap st sentence in
  (length (chunks st') + (if truthy (currentChunk st') then 1 else 0)
   <= S n)%nat.
Proof.
  intros H. unfold step.
  destruct (negb (truthy (trim sentence))); [simpl; lia|].
  destruct (truthy (currentChunk st)) eqn:Hcur;
    destruct (Z.of_nat _ <=? maxChunkSize); simpl;
    rewrite ?length_app; simpl;
    repeat match goal with
           | |- context [if ?b then _ else _] => destruct b
           end; lia.
Qed.

Lemma fold_step_shape (maxChunkSize overlap : Z) (sentences : list jsstring)
    (st : loop_state) (n : nat) :
  Forall (fun chunk => exists body, chunk = body ++ period) (chunks st) ->
  (length (chunks st) + (if truthy (currentChunk st) then 1 else 0) <= n)%nat ->
  let st' := fold_left (step maxChunkSize overlap) sentences st in
  Forall (fun chunk => exists body, chunk = body ++ period) (chunks st')
  /\ (length (chunks st') + (if truthy (currentChunk st') then 1 else 0)
      <= n + length sentences)%nat.
Proof.
  revert st n. induction sentences as [|s sentences IH]; intros st n Hc Hn.
  - simpl. split; [exact Hc | lia].
  - simpl fold_left. cbv zeta.
    destruct (IH (step maxChunkSize overlap st s) (S n)) as (H1 & H2).
    + now apply step_closed.
    + now apply step_count.
    + split; [exact H1|]. simpl length. lia.
Qed.

(** X2: whatever the text and the parameters, every chunk ends with a period,
    and there are at most as many chunks as the text has sentence-like
    units. *)
Theorem chunkText_shape (text : jsstring) (maxChunkSize overlap : Z) :
  Forall (fun chunk => exists body, chunk = body ++ period)
    (chunkText text maxChunkSize overlap)
  /\ (length (chunkText text maxChunkSize overlap)
      <= length (sentences_of text))%nat.
Proof.
  unfold chunkText.
  destruct (fold_step_shape maxChunkSize overlap (sentences_of text)
              {| chunks := []; currentChunk := [] |} 0%nat) as (Hc & Hn).
  { constructor. }
  { simpl. lia. }
  cbv zeta in Hc, Hn.
  set (st := fold_left (step maxChunkSize overlap) (sentences_of text)
               {| chunks := []; currentChunk := [] |}) in *.
  split.
  - apply List.Forall_forall. intros chunk Hin. apply filter_In in Hin.
    destruct Hin as [Hin _]. rewrite List.Forall_forall in Hc.
    destruct (truthy (currentChunk st)); [|now apply Hc].
    apply in_app_or in Hin. destruct Hin as [Hin|[<-|[]]];
      [now apply Hc | now eexists].
  - etransitivity; [apply List.filter_length_le|].
    destruct (truthy (currentChunk st)); [|lia].
    rewrite length_app. simpl. lia.
Qed.

(** X3: a text made of white space and sentence ends only, the empty text
    among them, gives no chunk. *)
Theorem chunkText_blank (text : jsstring) (maxChunkSize overlap : Z) :
  Forall (fun c => is_space c = true \/ is_sentence_end c = true) text ->
  chunkText text maxChunkSize overlap = [].
Proof.
  intros Hblank.
  assert (Hnone : sentences_of text = []).
  { unfold sentences_of.
    pose proof (split_runs_pieces is_sentence_end _ text Hblank) as Hp.
    induction Hp as [|s pieces Hs Hp IH]; simpl; [reflexivity|].
    rewrite trim_spaces; [exact IH|].
    eapply Forall_impl; [exact Hs|]. intros c [[Hc|Hc] Hn]; congruence. }
  unfold chunkText. rewrite Hnone. reflexivity.
Qed.

(** The empty text, and a text of dots and blanks. *)
Lemma chunkText_blank_witness :
  chunkText_default [] = [] /\ chunkText_default (js " ... ?!  . ") = [].
Proof.
  split; apply chunkText_blank.
  - constructor.
  - apply List.Forall_forall. intros c Hin.
    assert (H : forallb (fun c => is_space c || is_sentence_end c)
                  (js " ... ?!  . ") = true) by reflexivity.
    rewrite forallb_forall in H. specialize (H c Hin).
    now apply orb_true_iff in H.
Defined.

Lemma join_snoc (sep : jsstring) (l : list jsstring) (x : jsstring) :
  join sep (l ++ [x])
  = match l with [] => x | _ => join sep l ++ sep ++ x end.
Proof.
  induction l as [|y l IH]; [reflexivity|].
  destruct l as [|z l]; [reflexivity|].
  change (join sep ((y :: z :: l) ++ [x]))
    with (y ++ sep ++ join sep ((z :: l) ++ [x])).
  rewrite IH.
  change (join sep (y :: z :: l)) with (y ++ sep ++ join sep (z :: l)).
  now rewrite <- !app_assoc.
Qed.

Lemma join_length_prefix (sep : jsstring) (l1 l2 : list jsstring) :
  (length (join sep l1) <= length (join sep (l1 ++ l2)))%nat.
Proof.
  induction l1 as [|x l1 IH]; [simpl; lia|].
  destruct l1 as [|y l1].
  - simpl. destruct l2; [lia|]. rewrite length_app. lia.
  - change (join sep ((x :: y :: l1) ++ l2))
      with (x ++ sep ++ join sep ((y :: l1) ++ l2)).
    change (join sep (x :: y :: l1)) with (x ++ sep ++ join sep (y :: l1)).
    rewrite !length_app. lia.
Qed.

Lemma join_truthy (sep : jsstring) (l : list jsstring) :
  Forall (fun s => s <> []) l ->
  truthy (join sep l) = match l with [] => false | _ => true end.
Proof.
  intros H. destruct H as [|x l Hx Hl]; [reflexivity|].
  destruct x as [|c x]; [contradiction|]. now destruct l.
Qed.

(** While everything fits, the buffer is the sentences so far, trimmed
    and joined, and nothing is closed. *)
Lemma fold_step_fits (maxChunkSize overlap : Z) (rest pre : list jsstring) :
  Forall (fun s => trim s <> []) (pre ++ rest) ->
  Z.of_nat (length (join period_space (List.map trim (pre ++ rest))))
  <= maxChunkSize ->
  fold_left (step maxChunkSize overlap) rest
    {| chunks := [];
       currentChunk := join period_space (List.map trim pre) |}
  = {| chunks := [];
       currentChunk := join period_space (List.map trim (pre ++ rest)) |}.
Proof.
  revert pre. induction rest as [|s rest IH]; intros pre Hne Hfit.
  - now rewrite app_nil_r.
  - simpl fold_left.
    assert (Hs : trim s <> []).
    { rewrite List.Forall_forall in Hne. apply Hne, in_or_app. right. left.
      reflexivity. }
    assert (Hpre : Forall (fun t => t <> []) (List.map trim pre)).
    { apply Forall_app in Hne. destruct Hne as [Hne _].
      rewrite List.Forall_forall in Hne.
      apply List.Forall_forall. intros t Hin. apply in_map_iff in Hin.
      destruct Hin as (u & <- & Hu). now apply Hne. }
    assert (Hstep : step maxChunkSize overlap
                      {| chunks := [];
                         currentChunk :=
                           join period_space (List.map trim pre) |} s
                    = {| chunks := [];
                         currentChunk :=
                           join period_space
                             (List.map trim (pre ++ [s])) |}).
    { unfold step. simpl currentChunk. simpl chunks.
      destruct (trim s) as [|c t] eqn:Ht; [contradiction|].
      simpl negb. cbv iota.
      assert (Hprop :
                join period_space (List.map trim pre)
                ++ (if truthy (join period_space (List.map trim pre))
                    then period_space else [])
                ++ c :: t
                = join period_space (List.map trim (pre ++ [s]))).
      { rewrite List.map_app. simpl List.map. rewrite Ht, join_snoc.
        rewrite (join_truthy _ _ Hpre).
        destruct (List.map trim pre); reflexivity. }
      rewrite Hprop.
      assert (Hle : Z.of_nat (length (join period_space
                                        (List.map trim (pre ++ [s]))))
                    <= maxChunkSize).
      { pose proof (join_length_prefix period_space
                      (List.map trim (pre ++ [s])) (List.map trim rest))
          as Hlen.
        rewrite <- List.map_app, <- app_assoc in Hlen. simpl in Hlen. lia. }
      apply Z.leb_le in Hle. now rewrite Hle. }
    rewrite Hstep.
    replace (pre ++ s :: rest) with ((pre ++ [s]) ++ rest)
      by now rewrite <- app_assoc.
    apply IH; rewrite <- app_assoc; assumption.
Qed.

(** X4: when the sentence-like units of the text, trimmed and joined by a
    period and a space, fit in [maxChunkSize], the text gives one chunk:
    that string, closed by a period; or none, when it is too short to be
    kept or the text has no unit. *)
Theorem chunkText_fits (text : jsstring) (maxChunkSize overlap : Z) :
  let joined := join period_space (List.map trim (sentences_of text)) in
  Z.of_nat (length joined) <= maxChunkSize ->
  chunkText text maxChunkSize overlap
  = if truthy joined && (10 <? length (trim (joined ++ period)))%nat
    then [joined ++ period] else [].
Proof.
  intros joined Hfit. unfold chunkText.
  assert (Hne : Forall (fun s => trim s <> []) (sentences_of text)).
  { unfold sentences_of. apply List.Forall_forall. intros s Hin.
    apply filter_In in Hin. destruct Hin as [_ Hlen].
    apply Nat.ltb_lt in Hlen. intros Heq. rewrite Heq in Hlen.
    simpl in Hlen. lia. }
  pose proof (fold_step_fits maxChunkSize overlap (sentences_of text) []
                Hne Hfit) as Hfold.
  simpl app in Hfold. simpl (join period_space (List.map trim [])) in Hfold.
  rewrite Hfold. simpl currentChunk. simpl chunks. fold joined.
  destruct (truthy joined); simpl; [|reflexivity].
  now destruct (10 <? length (trim (joined ++ period)))%nat.
Qed.

(** Three short sentences and the default size. *)
Lemma chunkText_fits_witness :
  chunkText_default (js "Article one. Article two! Article three?")
  = [js "Article one. Article two. Article three."].
Proof.
  unfold chunkText_default.
  rewrite (chunkText_fits (js "Article one. Article two! Article three?")
             1000 100).
  - vm_compute. reflexivity.
  - vm_compute. discriminate.
Defined.

(** *** The overlap window *)

Lemma split_char_aux_nonempty (sep : N) (s acc : jsstring) :
  split_char_aux sep s acc <> [].
Proof.
  revert acc. induction s as [|c s IH]; intros acc; simpl; [discriminate|].
  destruct (c =? sep)%N; [discriminate | apply IH].
Qed.

Lemma split_char_aux_join (sep : N) (s acc : jsstring) :
  join [sep] (split_char_aux sep s acc) = rev acc ++ s.
Proof.
  revert acc. induction s as [|c s IH]; intros acc; simpl.
  - now rewrite app_nil_r.
  - destruct (N.eqb_spec c sep) as [->|Hne].
    + pose proof (IH []) as IH0. simpl in IH0.
      destruct (split_char_aux sep s []) as [|x l] eqn:Hx.
      * now apply split_char_aux_nonempty in Hx.
      * change (join [sep] (rev acc :: x :: l))
          with (rev acc ++ [sep] ++ join [sep] (x :: l)).
        now rewrite IH0.
    + rewrite IH. simpl. now rewrite <- app_assoc.
Qed.

(** Splitting on a character and joining with it gives the string back. *)
Lemma split_char_join (sep : N) (s : jsstring) :
  join [sep] (split_char sep s) = s.
Proof. apply (split_char_aux_join sep s []). Qed.

Lemma to_integer_overlap (overlap len : Z) :
  0 <= overlap -> 0 <= len ->
  to_integer (- Qmin (inject_Z overlap / 5) (inject_Z len / 2))%Q
  = - Z.min (overlap / 5) (len / 2).
Proof.
  intros Ho Hl. unfold Qmin, GenericMinMax.gmin, Qcompare.
  cbn [Qdiv Qmult Qinv inject_Z Qnum Qden Z.sgn Pos.mul Qopp].
  assert (Hcmp : (overlap * 1 * Z.pos (1 * 2) ?= len * 1 * Z.pos (1 * 5))
                 = (overlap * 2 ?= len * 5)).
  { f_equal; lia. }
  rewrite Hcmp. unfold to_integer.
  change (inject_Z overlap / 5)%Q with (overlap * 1 # 5)%Q.
  change (inject_Z len / 2)%Q with (len * 1 # 2)%Q.
  destruct (Z.compare_spec (overlap * 2) (len * 5)) as [Heq|Hlt|Hgt];
    cbn [Qopp Qnum Qden];
    rewrite Z.mul_1_r, Z.quot_opp_l by lia;
    rewrite Z.quot_div_nonneg by lia.
  - rewrite Z.min_l; [reflexivity|].
    apply Z.div_le_lower_bound; [lia|].
    pose proof (Z.mul_div_le overlap 5). nia.
  - rewrite Z.min_l; [reflexivity|].
    apply Z.div_le_lower_bound; [lia|].
    pose proof (Z.mul_div_le overlap 5). nia.
  - rewrite Z.min_r; [reflexivity|].
    apply Z.div_le_lower_bound; [lia|].
    pose proof (Z.mul_div_le len 2). nia.
Qed.

(** X5: for an overlap that is not negative, the words that seed the next
    buffer are the last [min(overlap / 5, words / 2)] words of the closed
    chunk, counted in whole words, when that count is at least 1; when it
    is 0 (an overlap below 5, or a chunk of one word), [slice(-0)] keeps
    every word, and the seed is the whole closed chunk. *)
Theorem overlapWords_spec (overlap : Z) (current : jsstring) :
  0 <= overlap ->
  let words := split_char 32%N current in
  let k := Z.min (overlap / 5) (Z.of_nat (length words) / 2) in
  overlapWords overlap current
  = (if k =? 0 then words
     else drop (length words - Z.to_nat k) words)
  /\ (k = 0 -> join space (overlapWords overlap current) = current).
Proof.
  intros Ho words k.
  assert (Hk : 0 <= k <= Z.of_nat (length words)).
  { unfold k. split.
    - apply Z.min_glb; apply Z.div_pos; lia.
    - etransitivity; [apply Z.le_min_r|].
      apply Z.div_le_upper_bound; lia. }
  assert (Hspec : overlapWords overlap current
                  = if k =? 0 then words
                    else drop (length words - Z.to_nat k) words).
  { unfold overlapWords. fold words.
    rewrite to_integer_overlap by lia. fold k.
    unfold slice_from.
    destruct (Z.eqb_spec k 0) as [->|Hne].
    - simpl. rewrite Z.min_l by lia. reflexivity.
    - destruct (Z.ltb_spec (- k) 0) as [_|Hge]; [|lia].
      rewrite Z.max_l by lia. f_equal. lia. }
  split; [exact Hspec|].
  intros Hzero. rewrite Hspec, Hzero. simpl.
  apply split_char_join.
Qed.

(** A closed chunk of four words with the default overlap (the last two
    words are kept), and with an overlap of 0 (all of it is kept). *)
Lemma overlapWords_spec_witness :
  overlapWords 100 (js "we the people of") = [js "people"; js "of"]
  /\ join space (overlapWords 0 (js "we the people of"))
     = js "we the people of".
Proof.
  split.
  - rewrite (proj1 (overlapWords_spec 100 (js "we the people of")
                      ltac:(lia))).
    vm_compute. reflexivity.
  - apply (proj2 (overlapWords_spec 0 (js "we the people of") ltac:(lia))).
    vm_compute. reflexivity.
Defined.

End ChunkerShape.

(** ** Embedding provider: the hash and the two paths *)

Module EmbeddingPaths.
Import JS Embedding EmbeddingFacts.

Lemma to_int32_range (z : Z) : - 2 ^ 31 <= to_int32 z < 2 ^ 31.
Proof.
  unfold to_int32.
  pose proof (Z.mod_pos_bound (z + 2 ^ 31) (2 ^ 32) ltac:(lia)). lia.
Qed.

(** X6: [simpleHash] returns an integer between 0 and 2^31, whatever the
    string: the running value is wrapped to 32 bits at every character. *)
Theorem simpleHash_range (str : jsstring) : 0 <= simpleHash str <= 2 ^ 31.
Proof.
  unfold simpleHash. split; [apply Z.abs_nonneg|].
  assert (H : - 2 ^ 31 <= fold_left
                (fun hash char =>
                   to_int32 (to_int32 (hash * 32) - hash + Z.of_N char))
                str 0 < 2 ^ 31).
  { apply (fold_left_invariant (fun h => - 2 ^ 31 <= h < 2 ^ 31)); [lia|].
    intros h c _ _. apply to_int32_range. }
  lia.
Qed.

Section Generic.
Context {N : Number}.
Variable toLowerCase : jsstring -> jsstring.
Variable AZURE_OPENAI_API_KEY : option jsstring.
Variable fetch_embedding : jsstring -> remote_outcome.

(** Counting in two slots does not depend on the order. *)
Lemma alter_add_comm (d : num) (i j : nat) (v : list num) :
  alter (fun x => add x d) i (alter (fun x => add x d) j v)
  = alter (fun x => add x d) j (alter (fun x => add x d) i v).
Proof.
  destruct (decide (i = j)) as [->|Hne]; [reflexivity|].
  now apply list_alter_alter_ne.
Qed.

Lemma fold_add_at_alter {A} (slot : A -> Z) (d : num) (l : list A)
    (v : list num) :
  (forall x, 0 <= slot x < Z.of_nat (length v)) ->
  fold_left (fun (v : list num) x => add_at (slot x) d v) l v
  = fold_left (fun (v : list num) x => alter (fun y => add y d) (Z.to_nat (slot x)) v) l v.
Proof.
  revert v. induction l as [|x l IH]; intros v Hslot; simpl; [reflexivity|].
  rewrite add_at_in_range by apply Hslot.
  apply IH. intros y. rewrite length_alter. apply Hslot.
Qed.

Lemma fold_alter_permutation {A} (slot : A -> nat) (d : num)
    (l1 l2 : list A) :
  Permutation l1 l2 ->
  forall v,
    fold_left (fun (v : list num) x => alter (fun y => add y d) (slot x) v) l1 v
    = fold_left (fun (v : list num) x => alter (fun y => add y d) (slot x) v) l2 v.
Proof.
  induction 1 as [|x l1 l2 _ IH|x y l|l1 l2 l3 _ IH1 _ IH2]; intros v; simpl.
  - reflexivity.
  - apply IH.
  - now rewrite alter_add_comm.
  - now rewrite IH1.
Qed.

Lemma fold_alter_length {A} (slot : A -> nat) (d : num) (l : list A)
    (v : list num) :
  length (fold_left (fun (v : list num) x => alter (fun y => add y d) (slot x) v) l v)
  = length v.
Proof.
  revert v. induction l as [|x l IH]; intros v; simpl; [reflexivity|].
  rewrite IH. apply length_alter.
Qed.

Lemma featureVector_permutation (text1 text2 : jsstring) :
  Permutation text1 text2 ->
  Permutation (split_runs is_space (toLowerCase text1))
    (split_runs is_space (toLowerCase text2)) ->
  featureVector toLowerCase text1 = featureVector toLowerCase text2.
Proof.
  intros Hchars Hwords. unfold featureVector.
  set (v0 := replicate (Z.to_nat EMBEDDING_DIMENSIONS) zero).
  assert (Hlen : Z.of_nat (length v0) = EMBEDDING_DIMENSIONS)
    by (unfold v0; now rewrite length_replicate).
  rewrite !(fold_add_at_alter
              (fun word => Z.rem (simpleHash word) EMBEDDING_DIMENSIONS))
    by (intros w; rewrite Hlen; apply word_slot_in_range).
  rewrite (fold_alter_permutation
             (fun word => Z.to_nat (Z.rem (simpleHash word)
                                      EMBEDDING_DIMENSIONS))
             one _ _ Hwords v0).
  set (v1 := fold_left _ (split_runs is_space (toLowerCase text2)) v0).
  assert (Hlen1 : Z.of_nat (length v1) = EMBEDDING_DIMENSIONS).
  { unfold v1.
    rewrite (fold_alter_length
               (fun word => Z.to_nat (Z.rem (simpleHash word)
                                        EMBEDDING_DIMENSIONS))).
    exact Hlen. }
  rewrite !(fold_add_at_alter
              (fun c => Z.rem (Z.of_N c * 17) EMBEDDING_DIMENSIONS))
    by (intros c; rewrite Hlen1; apply char_slot_in_range).
  apply (fold_alter_permutation
           (fun c => Z.to_nat (Z.rem (Z.of_N c * 17) EMBEDDING_DIMENSIONS))
           tenth _ _ Hchars v1).
Qed.

End Generic.

(** X7: the fallback vector is a bag of words and characters: two texts with
    the same characters and the same lower-cased words, in any order, get
    the same vector, in every number semantics (a slot only ever adds 1s,
    then 0.1s). *)
Theorem generateSimpleVector_order (N : Number)
    (toLowerCase : jsstring -> jsstring) (text1 text2 : jsstring) :
  Permutation text1 text2 ->
  Permutation (split_runs is_space (toLowerCase text1))
    (split_runs is_space (toLowerCase text2)) ->
  generateSimpleVector toLowerCase text1
  = generateSimpleVector toLowerCase text2.
Proof.
  intros Hchars Hwords. unfold generateSimpleVector.
  now rewrite (featureVector_permutation toLowerCase text1 text2).
Qed.

(** Two words in either order, in binary64. *)
Lemma generateSimpleVector_order_witness :
  generateSimpleVector (N := float_number) ascii_toLowerCase
    (js "rights duties")
  = generateSimpleVector (N := float_number) ascii_toLowerCase
      (js "duties rights").
Proof.
  apply generateSimpleVector_order.
  - change (js "duties rights")
      with (js "duties" ++ js " " ++ js "rights").
    change (js "rights duties")
      with (js "rights" ++ js " " ++ js "duties").
    transitivity ((js " " ++ js "duties") ++ js "rights");
      [apply Permutation_app_comm|].
    rewrite (app_assoc (js "duties")).
    apply Permutation_app_tail, Permutation_app_comm.
  - change (Permutation [js "rights"; js "duties"]
              [js "duties"; js "rights"]).
    apply perm_swap.
Defined.

(** X8: which of the two paths [generateEmbedding] ends on: it returns the
    array of the remote service, untouched, exactly when a credential is
    configured and the response holds an array of 3072 entries under
    [data[0].embedding]; in every other case (no credential, rejected
    call, error status, malformed body, another length) it returns the
    local vector. *)
Theorem generateEmbedding_paths (N : Number)
    (toLowerCase : jsstring -> jsstring)
    (AZURE_OPENAI_API_KEY : option jsstring)
    (fetch_embedding : jsstring -> remote_outcome) (text : jsstring) :
  let remote_ok (v : list num) :=
    (exists key, AZURE_OPENAI_API_KEY = Some key /\ key <> [])
    /\ fetch_embedding text = JsonBody (BodyFirst (EmbArray v))
    /\ length v = 3072%nat in
  (forall v,
     remote_ok v ->
     generateEmbedding toLowerCase AZURE_OPENAI_API_KEY fetch_embedding text
     = Ok v)
  /\ ((forall v, ~ remote_ok v) ->
      generateEmbedding toLowerCase AZURE_OPENAI_API_KEY fetch_embedding text
      = Ok (generateSimpleVector toLowerCase text)).
Proof.
  intros remote_ok. unfold generateEmbedding, generateEmbedding_try. split.
  - intros v ((key & -> & Hkey) & -> & Hlen).
    destruct key as [|c key]; [contradiction|].
    unfold EMBEDDING_DIMENSIONS. rewrite Hlen. reflexivity.
  - intros Hno.
    destruct AZURE_OPENAI_API_KEY as [[|c key]|]; try reflexivity.
    destruct (fetch_embedding text) as [| | |[| |[| |v]]] eqn:Hf;
      try reflexivity.
    destruct (Z.eqb_spec (Z.of_nat (length v)) EMBEDDING_DIMENSIONS)
      as [Hlen|Hlen]; [|reflexivity].
    exfalso. apply (Hno v). split; [|split].
    + now exists (c :: key).
    + reflexivity.
    + unfold EMBEDDING_DIMENSIONS in Hlen. lia.
Qed.

(** A configured service that answers with 3072 ones; and no
    credential. *)
Lemma generateEmbedding_paths_witness :
  generateEmbedding (N := float_number) ascii_toLowerCase (Some (js "key"))
    (fun _ => JsonBody (BodyFirst (EmbArray (replicate 3072 (1%float : @num float_number)))))
    (js "polity")
  = Ok (replicate 3072 (1%float : @num float_number))
  /\ generateEmbedding (N := float_number) ascii_toLowerCase None
       (fun _ => JsonBody (BodyFirst (EmbArray (replicate 3072 (1%float : @num float_number)))))
       (js "polity")
     = Ok (generateSimpleVector (N := float_number) ascii_toLowerCase
             (js "polity")).
Proof.
  split.
  - apply (proj1 (generateEmbedding_paths float_number ascii_toLowerCase
                    (Some (js "key"))
                    (fun _ => JsonBody (BodyFirst
                                (EmbArray (replicate 3072 (1%float : @num float_number)))))
                    (js "polity"))).
    split; [exists (js "key"); split; [reflexivity | discriminate]|].
    split; [reflexivity | apply length_replicate].
  - apply (proj2 (generateEmbedding_paths float_number ascii_toLowerCase
                    None
                    (fun _ => JsonBody (BodyFirst
                                (EmbArray (replicate 3072 (1%float : @num float_number)))))
                    (js "polity"))).
    intros v ((key & Hkey & _) & _). discriminate Hkey.
Defined.

End EmbeddingPaths.

(** ** Cosine similarity in exact arithmetic *)

Module CosineExact.
Import JS Embedding EmbeddingFacts VectorDB VectorDBFacts.

Local Open Scope R_scope.

(** The dot product of [cosineSimilarity], read along both vectors. *)
Lemma reduce_from_combine (pre a b : list R) (acc : R) :
  length a = length b ->
  reduce_from (fun sum val i => sum + val * nth i (pre ++ b) 0) a
    (length pre) acc
  = fold_left (fun sum xy => sum + fst xy * snd xy) (combine a b) acc.
Proof.
  revert pre b acc. induction a as [|x a IH]; intros pre [|y b] acc Hlen;
    simpl in *; try discriminate Hlen; [reflexivity|].
  rewrite nth_middle.
  specialize (IH (pre ++ [y]) b (acc + x * y)).
  rewrite <- app_assoc, length_app in IH. simpl in IH.
  replace (length pre + 1)%nat with (S (length pre)) in IH by lia.
  apply IH. lia.
Qed.

Lemma dot_symmetric (a b : list R) (acc : R) :
  fold_left (fun sum xy => sum + fst xy * snd xy) (combine a b) acc
  = fold_left (fun sum xy => sum + fst xy * snd xy) (combine b a) acc.
Proof.
  revert b acc. induction a as [|x a IH]; intros [|y b] acc; simpl;
    try reflexivity.
  rewrite IH. f_equal. lra.
Qed.

(** Cauchy and Schwarz, along the three sums the code accumulates. *)
Lemma cauchy_schwarz_step (D A B x y : R) :
  0 <= A -> 0 <= B -> D * D <= A * B ->
  (D + x * y) * (D + x * y) <= (A + x * x) * (B + y * y).
Proof.
  intros HA HB HD.
  assert (H1 : (2 * D * x * y) * (2 * D * x * y)
               <= (A * y * y + B * x * x) * (A * y * y + B * x * x)).
  { pose proof (Rle_0_sqr (A * y * y - B * x * x)) as Hs. unfold Rsqr in Hs.
    assert (Hxy : 0 <= (x * y) * (x * y)) by apply Rle_0_sqr.
    assert (Hprod : 0 <= (x * y) * (x * y) * (A * B - D * D)).
    { apply Rmult_le_pos; lra. }
    nra. }
  assert (H2 : 0 <= A * y * y + B * x * x).
  { assert (0 <= y * y) by apply Rle_0_sqr.
    assert (0 <= x * x) by apply Rle_0_sqr.
    assert (0 <= A * (y * y)) by now apply Rmult_le_pos.
    assert (0 <= B * (x * x)) by now apply Rmult_le_pos.
    lra. }
  assert (H3 : 2 * D * x * y <= A * y * y + B * x * x).
  { apply Rsqr_incr_0_var; [exact H1 | exact H2]. }
  nra.
Qed.

Lemma cauchy_schwarz (a b : list R) (D A B : R) :
  0 <= A -> 0 <= B -> D * D <= A * B ->
  let D' := fold_left (fun sum xy => sum + fst xy * snd xy) (combine a b) D in
  let A' := fold_left (fun sum val => sum + val * val) a A in
  let B' := fold_left (fun sum val => sum + val * val) b B in
  length a = length b ->
  D' * D' <= A' * B'.
Proof.
  revert b D A B. induction a as [|x a IH]; intros [|y b] D A B HA HB HD;
    simpl; intros Hlen; try discriminate Hlen; [exact HD|].
  apply IH.
  - pose proof (Rle_0_sqr x) as Hx. unfold Rsqr in Hx. lra.
  - pose proof (Rle_0_sqr y) as Hy. unfold Rsqr in Hy. lra.
  - now apply cauchy_schwarz_step.
  - lia.
Qed.

(** X9: in exact arithmetic the similarity does not depend on the order of
    its two arguments and always lies between -1 and 1. *)
Theorem cosineSimilarity_symmetric_bounded (a b : list R) :
  cosineSimilarity (N := real_number) a b
  = cosineSimilarity (N := real_number) b a
  /\ -1 <= cosineSimilarity (N := real_number) a b <= 1.
Proof.
  unfold cosineSimilarity, reduce.
  set (A := sum_squares (N := real_number) a).
  set (B := sum_squares (N := real_number) b).
  cbn [add mul nan zero eqb sqrt div real_number].
  change (@num real_number) with R in *.
  rewrite (Nat.eqb_sym (length b) (length a)).
  destruct (Nat.eqb_spec (length a) (length b)) as [Hlen|Hlen];
    cbn [negb]; [|split; lra].
  pose proof (reduce_from_combine [] a b 0 Hlen) as Hab.
  pose proof (reduce_from_combine [] b a 0 (eq_sym Hlen)) as Hba.
  cbn [app length] in Hab, Hba.
  rewrite Hab, Hba, (dot_symmetric b a).
  set (D := fold_left (fun sum xy => sum + fst xy * snd xy) (combine a b) 0).
  rewrite (orb_comm (if Req_dec_T (R_sqrt.sqrt B) 0 then true else false)).
  rewrite (Rmult_comm (R_sqrt.sqrt B)).
  split; [reflexivity|].
  destruct (Req_dec_T (R_sqrt.sqrt A) 0) as [HA0|HA0]; [simpl; lra|].
  destruct (Req_dec_T (R_sqrt.sqrt B) 0) as [HB0|HB0]; [simpl; lra|].
  simpl orb. cbv iota.
  assert (HA : 0 <= A) by apply (fold_squares_ge a 0).
  assert (HB : 0 <= B) by apply (fold_squares_ge b 0).
  pose proof (sqrt_pos A) as HsA. pose proof (sqrt_pos B) as HsB.
  pose proof (sqrt_sqrt A HA) as HAA. pose proof (sqrt_sqrt B HB) as HBB.
  assert (Hcs : D * D <= A * B).
  { apply (cauchy_schwarz a b 0 0 0); [lra | lra | lra | exact Hlen]. }
  set (m := R_sqrt.sqrt A * R_sqrt.sqrt B).
  assert (Hm : 0 < m) by (unfold m; apply Rmult_lt_0_compat; lra).
  assert (Hmm : D * D <= m * m).
  { unfold m.
    replace (R_sqrt.sqrt A * R_sqrt.sqrt B * (R_sqrt.sqrt A * R_sqrt.sqrt B))
      with ((R_sqrt.sqrt A * R_sqrt.sqrt A)
            * (R_sqrt.sqrt B * R_sqrt.sqrt B)) by ring.
    now rewrite HAA, HBB. }
  assert (Habs : - m <= D <= m) by nra.
  split.
  - apply (Rmult_le_reg_r m); [exact Hm|].
    unfold Rdiv. rewrite Rmult_assoc, Rinv_l by lra. lra.
  - apply (Rmult_le_reg_r m); [exact Hm|].
    unfold Rdiv. rewrite Rmult_assoc, Rinv_l by lra. lra.
Qed.

End CosineExact.

(** ** Corpus store: what the operations write, and what they leave *)

Module CorpusStore.
Import JS Embedding EmbeddingFacts VectorDB VectorDBFacts.

Section Writes.
Context {N : Number}.
Variable toLowerCase : jsstring -> jsstring.
Variable AZURE_OPENAI_API_KEY : option jsstring.
Variable fetch_embedding : jsstring -> remote_outcome.

Local Abbreviation storeDocument :=
  (storeDocument toLowerCase AZURE_OPENAI_API_KEY fetch_embedding).

Local Abbreviation setItem_loop document cs :=
  (for_each
     (fun chunk =>
        embeddings_setItem (chunk_id chunk) (embedding_record document chunk))
     cs).

(** A completed loop over the chunks leaves the other keys alone. *)
Lemma setItem_loop_other (document : ProcessedDocument)
    (cs : list DocumentChunk) w (u : unit) w' (k : jsstring) :
  setItem_loop document cs w = (Ok u, w') ->
  k ∉ List.map chunk_id cs ->
  embeddingsDB w' !! k = embeddingsDB w !! k.
Proof.
  revert w. induction cs as [|c cs IH]; intros w H Hk; simpl in H.
  - now injection H as _ <-.
  - apply bind_Ok in H. destruct H as (a & w1 & Hset & Hrest).
    apply storage_call_Ok in Hset. destruct Hset as (_ & _ & ->).
    simpl in Hk. apply not_elem_of_cons in Hk. destruct Hk as [Hne Hk].
    rewrite (IH _ Hrest Hk). simpl. now rewrite lookup_insert_ne.
Qed.

(** Under every chunk id it has written the record of a chunk with that
    id. *)
Lemma setItem_loop_written (document : ProcessedDocument)
    (cs : list DocumentChunk) w (u : unit) w' (k : jsstring) :
  setItem_loop document cs w = (Ok u, w') ->
  k ∈ List.map chunk_id cs ->
  exists chunk,
    chunk ∈ cs /\ chunk_id chunk = k
    /\ embeddingsDB w' !! k = Some (embedding_record document chunk).
Proof.
  revert w. induction cs as [|c cs IH]; intros w H Hk; simpl in H, Hk.
  - now apply elem_of_nil in Hk.
  - apply bind_Ok in H. destruct H as (a & w1 & Hset & Hrest).
    apply storage_call_Ok in Hset. destruct Hset as (_ & _ & ->).
    destruct (decide (k ∈ List.map chunk_id cs)) as [Hlater|Hno].
    + destruct (IH _ Hrest Hlater) as (chunk & Hin & Hid & Hl).
      exists chunk. split; [now right|]. now split.
    + apply elem_of_cons in Hk. destruct Hk as [->|Hk]; [|contradiction].
      exists c. split; [left|]. split; [reflexivity|].
      rewrite (setItem_loop_other _ _ _ _ _ _ Hrest Hno). simpl.
      apply lookup_insert_eq.
Qed.

(** The worlds [storeDocument] goes through when it returns. *)
Lemma storeDocument_run (document : ProcessedDocument) w (u : unit) w' :
  storeDocument document w = (Ok u, w') ->
  exists cs w1,
    Forall2 embedded (doc_chunks document) cs
    /\ documentsDB w'
       = <[doc_id document := with_chunks document cs]> (documentsDB w)
    /\ embeddingsDB w1 = embeddingsDB w
    /\ setItem_loop document cs w1 = (Ok u, w').
Proof.
  intros H. unfold VectorDB.storeDocument in H.
  apply try_catch_throwing_Ok in H; [|intros [msg] w0; now eexists].
  apply bind_Ok in H. destruct H as (u0 & w0 & Hinit & H).
  apply initializeDatabases_Ok in Hinit. destruct Hinit as (Hwin & ->).
  apply bind_Ok in H. destruct H as (cs & w1 & Hmap & H).
  unfold lift in Hmap. injection Hmap as Hmap <-.
  apply bind_Ok in H. destruct H as (u1 & w2 & Hset & Hloop).
  apply storage_call_Ok in Hset. destruct Hset as (_ & _ & ->).
  exists cs. eexists. split; [|split; [|split; [|exact Hloop]]].
  - apply result_mapM_Ok in Hmap.
    eapply Forall2_impl; [exact Hmap|].
    intros chunk chunk'. apply embed_chunk_Ok.
  - apply setItem_loop_same_documents in Hloop.
    destruct Hloop as (Hd & _). exact Hd.
  - reflexivity.
Qed.

End Writes.

Lemma storeDocument_records (N : Number)
    (toLowerCase : jsstring -> jsstring)
    (AZURE_OPENAI_API_KEY : option jsstring)
    (fetch_embedding : jsstring -> remote_outcome)
    (document : ProcessedDocument) (w w' : World) :
  storeDocument toLowerCase AZURE_OPENAI_API_KEY fetch_embedding document w
  = (Ok tt, w') ->
  (exists stored,
     documentsDB w' !! doc_id document = Some stored
     /\ Forall2 embedded (doc_chunks document) (doc_chunks stored))
  /\ (forall id, id <> doc_id document ->
                 documentsDB w' !! id = documentsDB w !! id)
  /\ (forall k, k ∉ List.map chunk_id (doc_chunks document) ->
                embeddingsDB w' !! k = embeddingsDB w !! k)
  /\ (forall chunk,
        chunk ∈ doc_chunks document ->
        exists r e,
          embeddingsDB w' !! chunk_id chunk = Some r
          /\ documentId r = doc_id document
          /\ emb_embedding r = Some e /\ length e = 3072%nat
          /\ (NoDup (List.map chunk_id (doc_chunks document)) ->
              emb_content r = content chunk
              /\ emb_metadata r = metadata chunk)).
Proof.
  intros Hrun.
  destruct (storeDocument_run _ _ _ _ _ _ _ Hrun)
    as (cs & w1 & Hcs & Hdocs & Hembs & Hloop).
  destruct (embedded_same _ _ Hcs) as (_ & Hids & _ & _).
  split; [|split; [|split]].
  - exists (with_chunks document cs). split; [|exact Hcs].
    rewrite Hdocs. apply lookup_insert_eq.
  - intros id Hid. rewrite Hdocs. now apply lookup_insert_ne.
  - intros k Hk. rewrite <- Hembs. rewrite <- Hids in Hk.
    exact (setItem_loop_other _ _ _ _ _ _ Hloop Hk).
  - intros chunk Hin.
    apply list_elem_of_lookup in Hin. destruct Hin as [i Hi].
    destruct (Forall2_lookup_l _ _ _ _ _ Hcs Hi) as (chunk' & Hi' & He).
    destruct He as (e & Hlen & ->).
    assert (Hk : chunk_id chunk ∈ List.map chunk_id cs).
    { apply list_elem_of_In.
      apply (in_map chunk_id cs (with_embedding chunk e)).
      apply list_elem_of_In. eapply list_elem_of_lookup_2, Hi'. }
    destruct (setItem_loop_written _ _ _ _ _ _ Hloop Hk)
      as (c & Hc & Hid & Hl).
    apply list_elem_of_lookup in Hc. destruct Hc as [j Hj].
    destruct (Forall2_lookup_r _ _ _ _ _ Hcs Hj) as (c0 & Hj0 & (e0 & Hlen0 & ->)).
    exists (embedding_record document (with_embedding c0 e0)), e0.
    split; [exact Hl|]. split; [reflexivity|].
    split; [reflexivity|]. split; [exact Hlen0|].
    intros Hnd. simpl in Hid.
    assert (Hij : j = i).
    { eapply NoDup_lookup; [exact Hnd | |].
      - rewrite list_lookup_fmap, Hj0. simpl. reflexivity.
      - change (List.map chunk_id (doc_chunks document))
          with (chunk_id <$> doc_chunks document).
        rewrite list_lookup_fmap, Hi. simpl. now rewrite Hid. }
    subst j. rewrite Hi in Hj0. injection Hj0 as <-. now split.
Qed.

(** X10: when [storeDocument] has returned, the store holds the document
    under its id, with every chunk carrying an embedding of 3072 entries;
    every chunk id has an embedding record that names the document and
    carries such an embedding, and, the chunk ids being distinct, the
    content and the metadata of its chunk; the other documents and the
    records under other keys are as before. *)
Theorem storeDocument_writes (N : Number)
    (toLowerCase : jsstring -> jsstring)
    (AZURE_OPENAI_API_KEY : option jsstring)
    (fetch_embedding : jsstring -> remote_outcome)
    (document : ProcessedDocument) (w w' : World) :
  storeDocument toLowerCase AZURE_OPENAI_API_KEY fetch_embedding document w
  = (Ok tt, w') ->
  (exists stored,
     documentsDB w' !! doc_id document = Some stored
     /\ Forall2 embedded (doc_chunks document) (doc_chunks stored))
  /\ (forall id, id <> doc_id document ->
                 documentsDB w' !! id = documentsDB w !! id)
  /\ (forall k, k ∉ List.map chunk_id (doc_chunks document) ->
                embeddingsDB w' !! k = embeddingsDB w !! k)
  /\ (forall chunk,
        chunk ∈ doc_chunks document ->
        exists r e,
          embeddingsDB w' !! chunk_id chunk = Some r
          /\ documentId r = doc_id document
          /\ emb_embedding r = Some e /\ length e = 3072%nat
          /\ (NoDup (List.map chunk_id (doc_chunks document)) ->
              emb_content r = content chunk
              /\ emb_metadata r = metadata chunk)).
Proof. apply storeDocument_records. Qed.

Lemma store1_returns :
  Sample.store1 Sample.browser = (Ok tt, Sample.stored).
Proof.
  destruct (storeDocument_succeeds ascii_toLowerCase Sample.no_key
              Sample.offline Sample.document1 Sample.browser eq_refl eq_refl)
    as ([] & w1 & Hrun & _).
  unfold Sample.stored. fold Sample.store1 in Hrun. now rewrite Hrun.
Qed.

(** The example document stored in an empty corpus: the record of its
    first chunk. *)
Lemma storeDocument_writes_witness :
  exists r e,
    embeddingsDB Sample.stored !! js "c1" = Some r
    /\ documentId r = js "d1"
    /\ emb_embedding r = Some e /\ length e = 3072%nat
    /\ emb_content r = js "the constitution of india".
Proof.
  destruct (storeDocument_writes float_number ascii_toLowerCase Sample.no_key
              Sample.offline Sample.document1 Sample.browser Sample.stored
              store1_returns) as (_ & _ & _ & Hrec).
  destruct (Hrec Sample.chunk1) as (r & e & Hl & Hid & He & Hlen & Hown).
  { left. }
  exists r, e. split; [exact Hl|]. split; [exact Hid|].
  split; [exact He|]. split; [exact Hlen|].
  apply Hown. vm_compute.
  repeat constructor; rewrite ?list_elem_of_In; simpl; intuition discriminate.
Defined.

(** X11: storing a document and then deleting it by its id, both returning
    normally, erases the document id and the chunk ids and nothing else;
    when the corpus held neither the document id nor any of the chunk ids,
    both collections are back to what they were. *)
Theorem storeDocument_deleteDocument (N : Number)
    (toLowerCase : jsstring -> jsstring)
    (AZURE_OPENAI_API_KEY : option jsstring)
    (fetch_embedding : jsstring -> remote_outcome)
    (document : ProcessedDocument) (w w1 w2 : World) :
  storeDocument toLowerCase AZURE_OPENAI_API_KEY fetch_embedding document w
  = (Ok tt, w1) ->
  deleteDocument (doc_id document) w1 = (Ok tt, w2) ->
  let ids := List.map chunk_id (doc_chunks document) in
  documentsDB w2 = delete (doc_id document) (documentsDB w)
  /\ (forall k,
        embeddingsDB w2 !! k
        = if decide (k ∈ ids) then None else embeddingsDB w !! k)
  /\ (documentsDB w !! doc_id document = None ->
      (forall k, k ∈ ids -> embeddingsDB w !! k = None) ->
      documentsDB w2 = documentsDB w /\ embeddingsDB w2 = embeddingsDB w).
Proof.
  intros Hstore Hdelete ids.
  destruct (storeDocument_run _ _ _ _ _ _ _ Hstore)
    as (cs & w0 & Hcs & Hdocs & Hembs & Hloop).
  destruct (embedded_same _ _ Hcs) as (_ & Hids & _ & _).
  apply deleteDocument_Ok in Hdelete. destruct Hdelete as (_ & Hspec).
  rewrite Hdocs, lookup_insert_eq in Hspec. cbv zeta in Hspec.
  simpl doc_chunks in Hspec. rewrite Hids in Hspec. fold ids in Hspec.
  destruct Hspec as (Hdocs2 & Hembs2 & _).
  rewrite delete_insert_eq in Hdocs2.
  assert (Hk : forall k,
             embeddingsDB w2 !! k
             = if decide (k ∈ ids) then None else embeddingsDB w !! k).
  { intros k. rewrite Hembs2. destruct (decide (k ∈ ids)) as [Hin|Hnin];
      [reflexivity|].
    rewrite <- Hembs. unfold ids in Hnin. rewrite <- Hids in Hnin.
    exact (setItem_loop_other _ _ _ _ _ _ Hloop Hnin). }
  split; [exact Hdocs2|]. split; [exact Hk|].
  intros Hfresh Hnew. split.
  - rewrite Hdocs2. now apply delete_id.
  - apply map_eq. intros k. rewrite Hk.
    destruct (decide (k ∈ ids)) as [Hin|Hnin]; [|reflexivity].
    symmetry. now apply Hnew.
Qed.

(** The example document stored in an empty corpus and deleted again. *)
Lemma storeDocument_deleteDocument_witness :
  let w2 := snd (deleteDocument (js "d1") Sample.stored) in
  documentsDB w2 = documentsDB Sample.browser
  /\ embeddingsDB w2 = embeddingsDB Sample.browser.
Proof.
  intros w2.
  destruct (deleteDocument_succeeds (js "d1") Sample.stored eq_refl eq_refl)
    as ([] & w' & Hrun & _).
  assert (Hw2 : w2 = w') by (unfold w2; now rewrite Hrun).
  rewrite Hw2.
  apply (storeDocument_deleteDocument float_number ascii_toLowerCase
           Sample.no_key Sample.offline Sample.document1 Sample.browser
           Sample.stored w' store1_returns Hrun).
  - reflexivity.
  - intros k _. reflexivity.
Defined.

Section Failures.
Context {N : Number}.
Variable toLowerCase : jsstring -> jsstring.
Variable AZURE_OPENAI_API_KEY : option jsstring.
Variable fetch_embedding : jsstring -> remote_outcome.

Local Abbreviation setItem_loop document cs :=
  (for_each
     (fun chunk =>
        embeddings_setItem (chunk_id chunk) (embedding_record document chunk))
     cs).

(** A loop over the chunks that stops at a rejected write has written the
    records of the chunks before it. *)
Lemma setItem_loop_Throw (document : ProcessedDocument)
    (cs : list DocumentChunk) w e w' :
  setItem_loop document cs w = (Throw e, w') ->
  documentsDB w' = documentsDB w
  /\ exists n,
       (n < length cs)%nat
       /\ embeddingsDB w'
          = fold_left
              (fun m chunk =>
                 <[chunk_id chunk := embedding_record document chunk]> m)
              (take n cs) (embeddingsDB w).
Proof.
  revert w. induction cs as [|c cs IH]; intros w H; simpl in H.
  - discriminate H.
  - apply bind_Throw in H. destruct H as [H|(a & w1 & Hset & Hrest)].
    + apply storage_call_Throw in H. destruct H as (_ & ->).
      split; [reflexivity|]. exists 0%nat. simpl. split; [lia | reflexivity].
    + apply storage_call_Ok in Hset. destruct Hset as (_ & _ & ->).
      destruct (IH _ Hrest) as (Hd & n & Hn & He).
      split; [exact Hd|]. exists (S n). simpl. split; [lia | exact He].
Qed.

Lemma removeItem_loop_shrinks (cs : list DocumentChunk) :
  respects
    (fun w w' =>
       documentsDB w' = documentsDB w /\ embeddingsDB w' ⊆ embeddingsDB w)
    (for_each (fun chunk => embeddings_removeItem (chunk_id chunk)) cs).
Proof.
  apply respects_for_each.
  - intros w. now split.
  - intros w1 w2 w3 (Hd1 & He1) (Hd2 & He2). split; [congruence|].
    now transitivity (embeddingsDB w2).
  - intros chunk. apply respects_storage_call; intros w; simpl.
    + now split.
    + split; [reflexivity | apply delete_subseteq].
Qed.

End Failures.

Lemma storeDocument_Throw_state (N : Number)
    (toLowerCase : jsstring -> jsstring)
    (AZURE_OPENAI_API_KEY : option jsstring)
    (fetch_embedding : jsstring -> remote_outcome)
    (document : ProcessedDocument) (w w' : World) (e : error) :
  storeDocument toLowerCase AZURE_OPENAI_API_KEY fetch_embedding document w
  = (Throw e, w') ->
  (documentsDB w' = documentsDB w /\ embeddingsDB w' = embeddingsDB w)
  \/ exists cs n,
       Forall2 embedded (doc_chunks document) cs
       /\ (n < length (doc_chunks document))%nat
       /\ documentsDB w'
          = <[doc_id document := with_chunks document cs]> (documentsDB w)
       /\ embeddingsDB w'
          = fold_left
              (fun m chunk =>
                 <[chunk_id chunk := embedding_record document chunk]> m)
              (take n cs) (embeddingsDB w).
Proof.
  intros H. unfold storeDocument in H.
  apply try_catch_throwing_Throw in H; [|intros [msg] w0; now eexists].
  destruct H as (e0 & H & _).
  apply bind_Throw in H. destruct H as [H|(u0 & w0 & Hinit & H)].
  { left. unfold initializeDatabases in H.
    destruct (window_defined w); [discriminate H|]. now injection H as _ <-. }
  apply initializeDatabases_Ok in Hinit. destruct Hinit as (_ & ->).
  apply bind_Throw in H. destruct H as [H|(cs & w1 & Hmap & H)].
  { left. unfold lift in H. now injection H as _ <-. }
  unfold lift in Hmap. injection Hmap as Hmap <-.
  apply bind_Throw in H. destruct H as [H|(u1 & w2 & Hset & Hloop)].
  { left. apply storage_call_Throw in H. destruct H as (_ & ->). now split. }
  apply storage_call_Ok in Hset. destruct Hset as (_ & _ & ->).
  apply setItem_loop_Throw in Hloop. destruct Hloop as (Hd & n & Hn & He).
  assert (Hcs : Forall2 embedded (doc_chunks document) cs).
  { apply result_mapM_Ok in Hmap.
    eapply Forall2_impl; [exact Hmap|].
    intros chunk chunk'. apply embed_chunk_Ok. }
  right. exists cs, n. split; [exact Hcs|].
  split; [rewrite (Forall2_length _ _ _ Hcs); exact Hn|].
  split; [exact Hd | exact He].
Qed.

(** X12: when [storeDocument] throws, either both collections are as they
    were, or the document is in the store with all its chunks, each with
    its embedding, while only the records of a strict prefix of the chunks
    were written: the write is not undone. *)
Theorem storeDocument_failure (N : Number)
    (toLowerCase : jsstring -> jsstring)
    (AZURE_OPENAI_API_KEY : option jsstring)
    (fetch_embedding : jsstring -> remote_outcome)
    (document : ProcessedDocument) (w w' : World) (e : error) :
  storeDocument toLowerCase AZURE_OPENAI_API_KEY fetch_embedding document w
  = (Throw e, w') ->
  (documentsDB w' = documentsDB w /\ embeddingsDB w' = embeddingsDB w)
  \/ exists cs n,
       Forall2 embedded (doc_chunks document) cs
       /\ (n < length (doc_chunks document))%nat
       /\ documentsDB w'
          = <[doc_id document := with_chunks document cs]> (documentsDB w)
       /\ embeddingsDB w'
          = fold_left
              (fun m chunk =>
                 <[chunk_id chunk := embedding_record document chunk]> m)
              (take n cs) (embeddingsDB w).
Proof. apply storeDocument_Throw_state. Qed.

Lemma deleteDocument_Throw_state (N : Number) (id : jsstring)
    (w w' : World) (e : error) :
  deleteDocument id w = (Throw e, w') ->
  documentsDB w' = documentsDB w /\ embeddingsDB w' ⊆ embeddingsDB w.
Proof.
  intros H. unfold deleteDocument in H.
  apply try_catch_throwing_Throw in H; [|intros e0 w0; now eexists].
  destruct H as (e0 & H & _).
  apply bind_Throw in H. destruct H as [H|(u0 & w0 & Hinit & H)].
  { unfold initializeDatabases in H.
    destruct (window_defined w); [discriminate H|]. now injection H as _ <-. }
  apply initializeDatabases_Ok in Hinit. destruct Hinit as (_ & ->).
  apply bind_Throw in H. destruct H as [H|(document & w1 & Hget & H)].
  { apply storage_call_Throw in H. destruct H as (_ & ->). now split. }
  apply storage_call_Ok in Hget. destruct Hget as (_ & _ & ->).
  simpl in H. destruct document as [document|]; [|discriminate H].
  apply bind_Throw in H. destruct H as [H|(u1 & w2 & Hloop & H)].
  - apply removeItem_loop_shrinks in H. exact H.
  - apply removeItem_loop_shrinks in Hloop. destruct Hloop as (Hd & He).
    apply storage_call_Throw in H. destruct H as (_ & ->). now split.
Qed.

(** X13: when [deleteDocument] throws, the document store is as it was, so
    that the document is still listed, and no embedding record was added
    or changed; records of the document may be gone. *)
Theorem deleteDocument_failure (N : Number) (id : jsstring)
    (w w' : World) (e : error) :
  deleteDocument id w = (Throw e, w') ->
  documentsDB w' = documentsDB w /\ embeddingsDB w' ⊆ embeddingsDB w.
Proof. apply deleteDocument_Throw_state. Qed.

Lemma run_Throw {N : Number} {A} (m : M A) (w : World) (e : error) :
  fst (m w) = Throw e -> m w = (Throw e, snd (m w)).
Proof. destruct (m w) as [r w']. simpl. now intros ->. Qed.

(** Storing the example document when the write of the second record is
    rejected. *)
Lemma storeDocument_failure_witness :
  let w := Scenes.third_call_fails Sample.browser in
  let w' := snd (Sample.store1 w) in
  (documentsDB w' = documentsDB w /\ embeddingsDB w' = embeddingsDB w)
  \/ exists cs n,
       Forall2 embedded (doc_chunks Sample.document1) cs
       /\ (n < length (doc_chunks Sample.document1))%nat
       /\ documentsDB w'
          = <[doc_id Sample.document1 := with_chunks Sample.document1 cs]>
              (documentsDB w)
       /\ embeddingsDB w'
          = fold_left
              (fun m chunk =>
                 <[chunk_id chunk
                   := embedding_record Sample.document1 chunk]> m)
              (take n cs) (embeddingsDB w).
Proof.
  intros w w'.
  apply (storeDocument_failure float_number ascii_toLowerCase Sample.no_key
           Sample.offline Sample.document1 w w'
           (Error "Failed to store document: storage error")).
  apply (run_Throw Sample.store1 w). vm_compute. reflexivity.
Defined.

(** Deleting the example document when the removal of the second record is
    rejected. *)
Lemma deleteDocument_failure_witness :
  let w := Scenes.third_call_fails Sample.stored in
  let w' := snd (deleteDocument (js "d1") w) in
  documentsDB w' = documentsDB w /\ embeddingsDB w' ⊆ embeddingsDB w.
Proof.
  intros w w'.
  apply (deleteDocument_failure float_number (js "d1") w w'
           (Error "Failed to delete document")).
  apply (run_Throw (deleteDocument (js "d1")) w). vm_compute. reflexivity.
Defined.

(** X14: when [clearAllDocuments] throws, no embedding record was removed,
    and the document store is either as it was or empty: the documents are
    cleared first, and a rejected clearing of the embeddings leaves the
    records of documents that are no longer listed. *)
Theorem clearAllDocuments_failure (N : Number) (w w' : World) (e : error) :
  clearAllDocuments w = (Throw e, w') ->
  embeddingsDB w' = embeddingsDB w
  /\ (documentsDB w' = documentsDB w \/ documentsDB w' = ∅).
Proof.
  intros H. unfold clearAllDocuments in H.
  apply try_catch_throwing_Throw in H; [|intros e0 w0; now eexists].
  destruct H as (e0 & H & _).
  apply bind_Throw in H. destruct H as [H|(u0 & w0 & Hinit & H)].
  { unfold initializeDatabases in H.
    destruct (window_defined w); [discriminate H|].
    injection H as _ <-. split; [reflexivity | now left]. }
  apply initializeDatabases_Ok in Hinit. destruct Hinit as (_ & ->).
  apply bind_Throw in H. destruct H as [H|(u1 & w1 & Hdocs & H)].
  { apply storage_call_Throw in H. destruct H as (_ & ->).
    split; [reflexivity | now left]. }
  apply storage_call_Ok in Hdocs. destruct Hdocs as (_ & _ & ->).
  apply storage_call_Throw in H. destruct H as (_ & ->).
  split; [reflexivity | now right].
Qed.

(** Clearing the example corpus when the clearing of the embeddings is
    rejected: no document is left, and the records are still there. *)
Lemma clearAllDocuments_failure_witness :
  let w := set_faults [false; true] Sample.stored in
  let w' := snd (clearAllDocuments w) in
  documentsDB w' !! js "d1" = None
  /\ embeddingsDB w' = embeddingsDB w
  /\ embeddingsDB w !! js "c1" <> None.
Proof.
  intros w w'.
  destruct (clearAllDocuments_failure float_number w w'
              (Error "Failed to clear documents")) as (Hembs & Hdocs).
  { apply (run_Throw clearAllDocuments w). vm_compute. reflexivity. }
  split; [vm_compute; reflexivity|]. split; [exact Hembs|].
  vm_compute. discriminate.
Defined.

Section Invariant.
Context {N : Number}.
Variable toLowerCase : jsstring -> jsstring.
Variable AZURE_OPENAI_API_KEY : option jsstring.
Variable fetch_embedding : jsstring -> remote_outcome.

Lemma fold_insert_origin (document : ProcessedDocument)
    (cs : list DocumentChunk) (m : gmap jsstring EmbeddingData)
    (k : jsstring) (r : EmbeddingData) :
  fold_left
    (fun m chunk => <[chunk_id chunk := embedding_record document chunk]> m)
    cs m !! k = Some r ->
  m !! k = Some r
  \/ exists chunk,
       chunk ∈ cs /\ k = chunk_id chunk
       /\ r = embedding_record document chunk.
Proof.
  revert m. induction cs as [|c cs IH]; intros m H; simpl in H; [now left|].
  destruct (IH _ H) as [Hold|(chunk & Hin & Hk & Hr)].
  - destruct (decide (chunk_id c = k)) as [<-|Hne].
    + rewrite lookup_insert_eq in Hold. injection Hold as <-.
      right. exists c. split; [left|]. now split.
    + rewrite lookup_insert_ne in Hold by exact Hne. now left.
  - right. exists chunk. split; [now right|]. now split.
Qed.

Lemma storeDocument_keeps_consistent (document : ProcessedDocument) w :
  documentsDB w !! doc_id document = None ->
  corpus_consistent w ->
  corpus_consistent
    (snd (storeDocument toLowerCase AZURE_OPENAI_API_KEY fetch_embedding
            document w)).
Proof.
  intros Hfresh Hcons.
  destruct (storeDocument _ _ _ document w) as [[[]|e] w'] eqn:Hrun;
    cbn [snd].
  - eapply storeDocument_consistent; eassumption.
  - apply storeDocument_Throw_state in Hrun.
    destruct Hrun as [(Hd & He)|(cs & n & Hcs & Hn & Hd & He)].
    + intros k r Hr. rewrite He in Hr. rewrite Hd. now apply Hcons.
    + intros k r Hr. rewrite He in Hr. rewrite Hd.
      destruct (fold_insert_origin _ _ _ _ _ Hr)
        as [Hold|(chunk & Hin & -> & ->)].
      * destruct (Hcons k r Hold) as (d & Hdoc & Hk).
        exists d. split; [|exact Hk].
        rewrite lookup_insert_ne; [exact Hdoc|].
        intros Heq. rewrite Heq, Hdoc in Hfresh. discriminate Hfresh.
      * exists (with_chunks document cs). simpl.
        split; [apply lookup_insert_eq|].
        apply list_elem_of_In, in_map, list_elem_of_In.
        rewrite <- (take_drop n cs). apply elem_of_app. now left.
Qed.

Lemma deleteDocument_keeps_consistent (id : jsstring) w :
  corpus_consistent w -> corpus_consistent (snd (deleteDocument id w)).
Proof.
  intros Hcons.
  destruct (deleteDocument id w) as [[[]|e] w'] eqn:Hrun; cbn [snd].
  - eapply deleteDocument_consistent; eassumption.
  - apply deleteDocument_Throw_state in Hrun. destruct Hrun as (Hd & He).
    intros k r Hr. rewrite Hd. apply (Hcons k r).
    eapply lookup_weaken; eassumption.
Qed.

End Invariant.

(** X15: the corpus stays consistent (every embedding record is the record
    of a chunk of the stored document it names): an empty corpus is
    consistent, and a consistent corpus is still consistent after
    [storeDocument] for a document id it did not hold and after
    [deleteDocument], whether they return or throw; after a
    [clearAllDocuments] that returns; and after a search. *)
Theorem corpus_consistent_kept (N : Number)
    (toLowerCase : jsstring -> jsstring)
    (AZURE_OPENAI_API_KEY : option jsstring)
    (fetch_embedding : jsstring -> remote_outcome)
    (fuse_search : list DocumentChunk -> jsstring -> list DocumentChunk)
    (document : ProcessedDocument) (id query : jsstring) (topK : Z)
    (threshold : num) (w : World) :
  (embeddingsDB w = ∅ -> corpus_consistent w)
  /\ (corpus_consistent w ->
      (documentsDB w !! doc_id document = None ->
       corpus_consistent
         (snd (storeDocument toLowerCase AZURE_OPENAI_API_KEY fetch_embedding
                 document w)))
      /\ corpus_consistent (snd (deleteDocument id w))
      /\ (fst (clearAllDocuments w) = Ok tt ->
          corpus_consistent (snd (clearAllDocuments w)))
      /\ corpus_consistent
           (snd (searchSimilarChunks toLowerCase AZURE_OPENAI_API_KEY
                   fetch_embedding fuse_search query topK threshold w))).
Proof.
  split; [apply corpus_consistent_empty|]. intros Hcons.
  split; [intros Hfresh; now apply storeDocument_keeps_consistent|].
  split; [now apply deleteDocument_keeps_consistent|]. split.
  - destruct (clearAllDocuments w) as [r w'] eqn:Hrun. simpl. intros ->.
    apply clearAllDocuments_Ok in Hrun. destruct Hrun as (_ & He).
    now apply corpus_consistent_empty.
  - destruct (searchSimilarChunks _ _ _ _ _ _ _ w) as [r w'] eqn:Hrun.
    apply searchSimilarChunks_reads_only in Hrun.
    destruct Hrun as (Hd & He & _). simpl.
    intros k r0 Hr. rewrite He in Hr. rewrite Hd. now apply Hcons.
Qed.

(** The example corpus, stored in an empty one, and the example document
    deleted from it while the removal of its second record is rejected. *)
Lemma corpus_consistent_kept_witness :
  corpus_consistent Sample.stored
  /\ corpus_consistent
       (snd (deleteDocument (js "d1")
               (Scenes.third_call_fails Sample.stored))).
Proof.
  pose proof (corpus_consistent_kept float_number ascii_toLowerCase
                Sample.no_key Sample.offline Sample.fuse_all Sample.document1
                (js "d1") (js "rights") 3 0%float) as Hkept.
  assert (Hempty : corpus_consistent Sample.browser)
    by (apply (proj1 (Hkept Sample.browser)); reflexivity).
  assert (Hstored : corpus_consistent Sample.stored)
    by (apply (proj1 (proj2 (Hkept Sample.browser) Hempty)); reflexivity).
  split; [exact Hstored|].
  apply (proj1 (proj2 (proj2 (Hkept (Scenes.third_call_fails Sample.stored))
                         (fun k r Hr => Hstored k r Hr)))).
Defined.

End CorpusStore.

(** ** Reading the corpus: listing, statistics and search *)

Module CorpusReads.
Import JS Embedding EmbeddingFacts VectorDB VectorDBFacts StorageStats Hits.

Section Reads.
Context {N : Number}.
Variable toLowerCase : jsstring -> jsstring.
Variable AZURE_OPENAI_API_KEY : option jsstring.
Variable fetch_embedding : jsstring -> remote_outcome.
Variable fuse_search : list DocumentChunk -> jsstring -> list DocumentChunk.

Local Abbreviation search :=
  (searchSimilarChunks toLowerCase AZURE_OPENAI_API_KEY fetch_embedding
     fuse_search).

Lemma getAllDocuments_reads_only : respects same_dbs getAllDocuments.
Proof.
  unfold getAllDocuments.
  apply respects_try_catch; [apply same_dbs_trans | |].
  - apply respects_bind; [apply same_dbs_trans | |].
    + apply respects_initializeDatabases, same_dbs_refl.
    + intros _. apply respects_bind; [apply same_dbs_trans | |].
      * apply respects_storage_call; intros w; now repeat split.
      * intros entries. apply respects_ret, same_dbs_refl.
  - intros _. apply respects_ret, same_dbs_refl.
Qed.

Lemma getStorageStats_reads_only : respects same_dbs getStorageStats.
Proof.
  unfold getStorageStats.
  apply respects_try_catch; [apply same_dbs_trans | |].
  - apply respects_bind; [apply same_dbs_trans | |].
    + apply getAllDocuments_reads_only.
    + intros documents. apply respects_ret, same_dbs_refl.
  - intros _. apply respects_ret, same_dbs_refl.
Qed.

(** [getAllDocuments] always returns. *)
Lemma getAllDocuments_returns w :
  exists documents, fst (getAllDocuments w) = Ok documents.
Proof.
  destruct (window_defined w) eqn:Hwin.
  - destruct (hd false (faults w)) eqn:Hf.
    + exists []. apply getAllDocuments_swallows. now right.
    + rewrite (getAllDocuments_works w Hwin Hf). now eexists.
  - exists []. apply getAllDocuments_swallows. now left.
Qed.

Lemma fold_count {A} (f : A -> nat) (l : list A) (n : nat) :
  fold_left (fun sum x => (sum + f x)%nat) l n = (n + sum_list_with f l)%nat.
Proof.
  revert n. induction l as [|x l IH]; intros n; simpl; [lia|].
  rewrite IH. lia.
Qed.

Lemma round_half (n : nat) :
  Z.to_nat (round (inject_Z (Z.of_nat n) * (1 # 2))%Q) = ((n + 1) / 2)%nat.
Proof.
  unfold round, Qfloor, Qplus, Qmult, inject_Z. simpl Qnum. simpl Qden.
  change (Z.pos (1 * 2 * 2)) with (2 * 2).
  change (Z.pos (1 * 2)) with 2.
  replace (Z.of_nat n * 1 * 2 + 1 * 2) with ((Z.of_nat n + 1) * 2) by lia.
  rewrite Z.div_mul_cancel_r by lia.
  rewrite Z2Nat.inj_div by lia.
  f_equal. lia.
Qed.

Lemma sum_list_with_perm {A} (f : A -> nat) (l l' : list A) :
  Permutation l l' -> sum_list_with f l = sum_list_with f l'.
Proof. induction 1; simpl; lia. Qed.

Lemma getStorageStats_run w documents w' :
  getAllDocuments w = (Ok documents, w') ->
  getStorageStats w
  = (let n := sum_list_with (fun d => length (doc_chunks d)) documents in
     Ok {| documentCount := length documents;
           chunkCount := n;
           totalSize := js "~" ++ decimal ((n + 1) / 2) ++ js "KB" |},
     w').
Proof.
  intros Hdocs. unfold getStorageStats, try_catch, bind. rewrite Hdocs.
  unfold ret. cbv zeta. rewrite round_half, fold_count. reflexivity.
Qed.

(** Every candidate of the semantic step carries the key of its record. *)
Lemma candidates_distinct (qv : list num) (threshold : num)
    (entries : list (jsstring * EmbeddingData)) :
  NoDup (List.map fst entries) ->
  NoDup (List.map (fun c => chunk_id (sc_chunk c))
           (flat_map (score_entry qv threshold) entries)).
Proof.
  induction entries as [|[k r] entries IH]; intros Hnd; simpl.
  - constructor.
  - simpl in Hnd. apply NoDup_cons in Hnd. destruct Hnd as [Hk Hnd].
    rewrite map_app. apply NoDup_app. split; [|split].
    + unfold score_entry. destruct (emb_embedding r); [|constructor].
      destruct (truthy _); [|constructor].
      destruct (gtb _ _); [|constructor]. simpl. apply NoDup_singleton.
    + intros id Hid Hlater. apply Hk.
      apply list_elem_of_In, in_map_iff in Hid.
      destruct Hid as (c & <- & Hc).
      apply list_elem_of_In, score_entry_spec in Hc.
      destruct Hc as (e & _ & _ & _ & ->). simpl in *.
      apply list_elem_of_In, in_map_iff in Hlater.
      destruct Hlater as (c' & Hid' & Hc').
      apply in_flat_map in Hc'. destruct Hc' as ([k' r'] & Hin' & Hc').
      apply list_elem_of_In, score_entry_spec in Hc'.
      destruct Hc' as (e' & _ & _ & _ & ->). simpl in Hid'. subst k'.
      apply list_elem_of_In, in_map_iff. now exists (k, r').
    + now apply IH.
Qed.

Lemma slice_to_NoDup {A B} (f : A -> B) (n : Z) (l : list A) :
  NoDup (List.map f l) -> NoDup (List.map f (slice_to n l)).
Proof.
  unfold slice_to. intros Hnd.
  set (k := Z.to_nat _).
  rewrite <- (take_drop k l), map_app in Hnd.
  now apply NoDup_app in Hnd as (Hnd & _).
Qed.

Lemma text_entry_spec w (item : DocumentChunk) :
  item ∈ flat_map text_entry (map_to_list (embeddingsDB w)) ->
  exists r,
    embeddingsDB w !! chunk_id item = Some r
    /\ content item = emb_content r /\ metadata item = emb_metadata r
    /\ truthy (content item) = true /\ embedding item = None.
Proof.
  rewrite list_elem_of_In, in_flat_map.
  intros ([k r] & Hin & Hitem).
  apply list_elem_of_In, elem_of_map_to_list in Hin.
  unfold text_entry in Hitem.
  destruct (truthy (emb_content r)) eqn:Ht; [|contradiction].
  destruct Hitem as [<-|[]]. simpl. exists r. now repeat split.
Qed.

End Reads.

(** X16: listing the documents, computing the statistics and searching leave
    both collections as they were, whatever the outcome. *)
Theorem reads_leave_corpus (N : Number)
    (toLowerCase : jsstring -> jsstring)
    (AZURE_OPENAI_API_KEY : option jsstring)
    (fetch_embedding : jsstring -> remote_outcome)
    (fuse_search : list DocumentChunk -> jsstring -> list DocumentChunk)
    (query : jsstring) (topK : Z) (threshold : num) (w : World) :
  same_dbs w (snd (getAllDocuments w))
  /\ same_dbs w (snd (getStorageStats w))
  /\ same_dbs w
       (snd (searchSimilarChunks toLowerCase AZURE_OPENAI_API_KEY
               fetch_embedding fuse_search query topK threshold w)).
Proof.
  split; [|split].
  - eapply getAllDocuments_reads_only, surjective_pairing.
  - eapply getStorageStats_reads_only, surjective_pairing.
  - eapply searchSimilarChunks_reads_only, surjective_pairing.
Qed.

(** X17: [getStorageStats] always returns.  The size it reports is the number
    of chunks halved, halves rounded up, between [~] and [KB]; its own
    fallback value [0KB] is never reported.  In a browser whose storage
    accepts the read the counts are the number of stored documents and the
    sum of their numbers of chunks; otherwise they are 0, as if the corpus
    were empty. *)
Theorem getStorageStats_counts (N : Number) (w : World) :
  exists stats,
    fst (getStorageStats w) = Ok stats
    /\ totalSize stats
       = js "~" ++ decimal ((chunkCount stats + 1) / 2) ++ js "KB"
    /\ totalSize stats <> js "0KB"
    /\ if window_defined w && negb (hd false (faults w)) then
         documentCount stats = size (documentsDB w)
         /\ chunkCount stats
            = sum_list_with (fun d => length (doc_chunks d))
                (List.map snd (map_to_list (documentsDB w)))
       else stats = {| documentCount := 0; chunkCount := 0;
                       totalSize := js "~0KB" |}.
Proof.
  assert (Hsize : forall n,
             js "~" ++ decimal ((n + 1) / 2) ++ js "KB" <> js "0KB")
    by (intros n H; discriminate H).
  destruct (window_defined w) eqn:Hwin;
    [destruct (hd false (faults w)) eqn:Hf|]; cbn [andb negb].
  - assert (Hrun : fst (getAllDocuments w) = Ok [])
      by (apply getAllDocuments_swallows; now right).
    destruct (getAllDocuments w) as [r w'] eqn:Hdocs. simpl in Hrun. subst r.
    rewrite (getStorageStats_run _ _ _ Hdocs). cbv zeta. cbn [fst].
    eexists. split; [reflexivity|]. cbn [totalSize chunkCount documentCount].
    split; [reflexivity|].
    split; [apply Hsize | reflexivity].
  - rewrite (getStorageStats_run _ _ _ (getAllDocuments_works w Hwin Hf)).
    cbv zeta. cbn [fst].
    eexists. split; [reflexivity|]. cbn [totalSize chunkCount documentCount].
    split; [reflexivity|].
    split; [apply Hsize|]. split.
    + rewrite <- (Permutation_length (js_sort_perm _ _)).
      rewrite length_map. apply length_map_to_list.
    + apply sum_list_with_perm. symmetry. apply js_sort_perm.
  - assert (Hrun : fst (getAllDocuments w) = Ok [])
      by (apply getAllDocuments_swallows; now left).
    destruct (getAllDocuments w) as [r w'] eqn:Hdocs. simpl in Hrun. subst r.
    rewrite (getStorageStats_run _ _ _ Hdocs). cbv zeta. cbn [fst].
    eexists. split; [reflexivity|]. cbn [totalSize chunkCount documentCount].
    split; [reflexivity|].
    split; [apply Hsize | reflexivity].
Qed.

(** X18: outside a browser no operation reaches the store: storing,
    deleting and clearing throw (the first with the reason after its own
    message), the listing is empty and the statistics are zero, all without
    a storage call; and a search throws the bare environment error after
    announcing the lexical fallback once. *)
Theorem outside_browser (N : Number)
    (toLowerCase : jsstring -> jsstring)
    (AZURE_OPENAI_API_KEY : option jsstring)
    (fetch_embedding : jsstring -> remote_outcome)
    (fuse_search : list DocumentChunk -> jsstring -> list DocumentChunk)
    (document : ProcessedDocument) (id query : jsstring) (topK : Z)
    (threshold : num) (w : World) :
  window_defined w = false ->
  storeDocument toLowerCase AZURE_OPENAI_API_KEY fetch_embedding document w
  = (Throw (Error "Failed to store document: Database operations only available in browser environment"),
     w)
  /\ deleteDocument id w = (Throw (Error "Failed to delete document"), w)
  /\ clearAllDocuments w = (Throw (Error "Failed to clear documents"), w)
  /\ getAllDocuments w = (Ok [], w)
  /\ getStorageStats w
     = (Ok {| documentCount := 0; chunkCount := 0; totalSize := js "~0KB" |},
        w)
  /\ searchSimilarChunks toLowerCase AZURE_OPENAI_API_KEY fetch_embedding
       fuse_search query topK threshold w
     = (Throw (Error "Database operations only available in browser environment"),
        emit (EvLog fallback_message) w).
Proof.
  intros Hwin.
  assert (Hlist : getAllDocuments w = (Ok [], w)).
  { unfold getAllDocuments, try_catch, bind, initializeDatabases.
    now rewrite Hwin. }
  split; [|split; [|split; [|split; [exact Hlist|split]]]].
  - unfold storeDocument, try_catch, bind, initializeDatabases.
    now rewrite Hwin.
  - unfold deleteDocument, try_catch, bind, initializeDatabases.
    now rewrite Hwin.
  - unfold clearAllDocuments, try_catch, bind, initializeDatabases.
    now rewrite Hwin.
  - now rewrite (getStorageStats_run _ _ _ Hlist).
  - destruct (generateEmbedding_total toLowerCase AZURE_OPENAI_API_KEY
                fetch_embedding query) as (qv & Hq & _).
    unfold searchSimilarChunks, fallbackTextSearch, embed, try_catch, bind,
      lift, console_log, initializeDatabases.
    rewrite Hq, Hwin. simpl. now rewrite Hwin.
Qed.

(** The example corpus on a server. *)
Lemma outside_browser_witness :
  getAllDocuments Scenes.server = (Ok [], Scenes.server)
  /\ deleteDocument (js "d1") Scenes.server
     = (Throw (Error "Failed to delete document"), Scenes.server).
Proof.
  destruct (outside_browser float_number ascii_toLowerCase Sample.no_key
              Sample.offline Sample.fuse_all Sample.document1 (js "d1")
              (js "rights") 5 0x1.3333333333333p-2%float Scenes.server
              eq_refl) as (_ & Hdelete & _ & Hlist & _).
  now split.
Defined.

Lemma search_hits_reflect (N : Number)
    (toLowerCase : jsstring -> jsstring)
    (AZURE_OPENAI_API_KEY : option jsstring)
    (fetch_embedding : jsstring -> remote_outcome)
    (fuse_search : list DocumentChunk -> jsstring -> list DocumentChunk)
    (query : jsstring) (topK : Z) (threshold : num)
    (w w' : World) (hits : list SearchHit) :
  returns_indexed_items fuse_search ->
  searchSimilarChunks toLowerCase AZURE_OPENAI_API_KEY fetch_embedding
    fuse_search query topK threshold w = (Ok hits, w') ->
  Forall (hit_reflects w) hits
  /\ ((Forall (fun h => is_Some (similarity h)) hits
       /\ NoDup (List.map (fun h => chunk_id (hit_chunk h)) hits))
      \/ Forall (fun h => similarity h = None) hits).
Proof.
  intros Hfuse Hrun.
  assert (Hlexical : forall w0,
             embeddingsDB w0 = embeddingsDB w ->
             Forall (hit_reflects w) (lexical_hits fuse_search query topK w0)
             /\ Forall (fun h => similarity h = None)
                  (lexical_hits fuse_search query topK w0)).
  { intros w0 He. unfold lexical_hits. rewrite He.
    split; apply List.Forall_forall; intros h Hin;
      apply in_map_iff in Hin; destruct Hin as (item & <- & Hin);
      [|reflexivity].
    apply list_elem_of_In, slice_to_subset, Hfuse, text_entry_spec in Hin.
    destruct Hin as (r & Hl & Hc & Hm & Ht & He').
    exists r. simpl. now repeat split. }
  destruct (search_run toLowerCase AZURE_OPENAI_API_KEY fetch_embedding
              fuse_search query topK threshold w) as (qv & _ & Hcases).
  cbv zeta in Hcases.
  destruct (window_defined w && negb (hd false (faults w))).
  - destruct (length _ =? 0)%nat.
    + destruct (Hcases _ _ Hrun) as (_ & _ & Hhits).
      rewrite (Hhits hits eq_refl).
      destruct (Hlexical (emit (EvIterate Embeddings)
                            (set_faults (tail (faults w)) w)) eq_refl)
        as (H1 & H2).
      split; [exact H1 | now right].
    + rewrite Hcases in Hrun. injection Hrun as <- <-. split; [|left; split].
      * apply List.Forall_forall. intros h Hin.
        apply in_map_iff in Hin. destruct Hin as (c & <- & Hin).
        apply list_elem_of_In, chosen_are_candidates,
          semantic_candidates_spec in Hin.
        destruct Hin as (k & r & Hl & Hc).
        apply score_entry_spec in Hc.
        destruct Hc as (e & He & Ht & _ & ->).
        exists r. simpl. rewrite He. now repeat split.
      * apply List.Forall_forall. intros h Hin.
        apply in_map_iff in Hin. destruct Hin as (c & <- & _). now eexists.
      * rewrite List.map_map. simpl.
        apply slice_to_NoDup.
        rewrite <- (js_sort_perm by_similarity _).
        apply candidates_distinct, NoDup_fst_map_to_list.
  - destruct Hcases as (w0 & (_ & He0 & _) & _ & Hfb).
    destruct (Hfb _ _ Hrun) as (_ & _ & Hhits).
    rewrite (Hhits hits eq_refl).
    destruct (Hlexical w0 He0) as (H1 & H2).
    split; [exact H1 | now right].
Qed.

(** X19: every hit of a search that returns is a record of the embeddings
    collection, with the record's key, content and metadata, and a content
    that is not empty (the text index returning only items it was given).
    Either all hits carry a score and the record's embedding, and no chunk
    appears twice; or none carries a score or an embedding. *)
Theorem search_hits_reflect_store (N : Number)
    (toLowerCase : jsstring -> jsstring)
    (AZURE_OPENAI_API_KEY : option jsstring)
    (fetch_embedding : jsstring -> remote_outcome)
    (fuse_search : list DocumentChunk -> jsstring -> list DocumentChunk)
    (query : jsstring) (topK : Z) (threshold : num)
    (w w' : World) (hits : list SearchHit) :
  returns_indexed_items fuse_search ->
  searchSimilarChunks toLowerCase AZURE_OPENAI_API_KEY fetch_embedding
    fuse_search query topK threshold w = (Ok hits, w') ->
  Forall (hit_reflects w) hits
  /\ ((Forall (fun h => is_Some (similarity h)) hits
       /\ NoDup (List.map (fun h => chunk_id (hit_chunk h)) hits))
      \/ Forall (fun h => similarity h = None) hits).
Proof. apply search_hits_reflect. Qed.

Lemma run_Ok {N : Number} {A} (m : M A) (w : World) :
  match fst (m w) with Ok _ => true | Throw _ => false end = true ->
  exists a, m w = (Ok a, snd (m w)).
Proof.
  destruct (m w) as [[a|e] w']; simpl; intros H; [|discriminate H].
  now exists a.
Qed.

(** A search over the example corpus. *)
Lemma search_hits_reflect_store_witness :
  exists hits,
    fst (searchSimilarChunks ascii_toLowerCase Sample.no_key Sample.offline
           Sample.fuse_all (js "constitution") 3 0x1.3333333333333p-2%float
           Sample.stored) = Ok hits
    /\ Forall (hit_reflects Sample.stored) hits.
Proof.
  destruct (run_Ok
              (searchSimilarChunks ascii_toLowerCase Sample.no_key
                 Sample.offline Sample.fuse_all (js "constitution") 3
                 0x1.3333333333333p-2%float) Sample.stored)
    as [hits Hrun]; [vm_compute; reflexivity|].
  exists hits. rewrite Hrun. split; [reflexivity|].
  apply (search_hits_reflect_store float_number ascii_toLowerCase
           Sample.no_key Sample.offline Sample.fuse_all (js "constitution") 3
           0x1.3333333333333p-2%float Sample.stored _ hits
           (fun items q item Hin => Hin) Hrun).
Defined.

(** X20: once [clearAllDocuments] has returned, the listing is empty, the
    statistics are zero and every search that returns has no hit (the text
    index returning only items it was given), whatever the storage does
    next. *)
Theorem clearAllDocuments_then_reads (N : Number)
    (toLowerCase : jsstring -> jsstring)
    (AZURE_OPENAI_API_KEY : option jsstring)
    (fetch_embedding : jsstring -> remote_outcome)
    (fuse_search : list DocumentChunk -> jsstring -> list DocumentChunk)
    (w w1 : World) :
  clearAllDocuments w = (Ok tt, w1) ->
  fst (getAllDocuments w1) = Ok []
  /\ fst (getStorageStats w1)
     = Ok {| documentCount := 0; chunkCount := 0; totalSize := js "~0KB" |}
  /\ (returns_indexed_items fuse_search ->
      forall query topK threshold hits w2,
        searchSimilarChunks toLowerCase AZURE_OPENAI_API_KEY fetch_embedding
          fuse_search query topK threshold w1 = (Ok hits, w2) ->
        hits = []).
Proof.
  intros Hclear. apply clearAllDocuments_Ok in Hclear.
  destruct Hclear as (Hdocs & Hembs).
  assert (Hlist : fst (getAllDocuments w1) = Ok []).
  { destruct (window_defined w1) eqn:Hwin.
    - destruct (hd false (faults w1)) eqn:Hf.
      + apply getAllDocuments_swallows. now right.
      + rewrite (getAllDocuments_works w1 Hwin Hf), Hdocs.
        now rewrite map_to_list_empty.
    - apply getAllDocuments_swallows. now left. }
  split; [exact Hlist|]. split.
  - destruct (getAllDocuments w1) as [r w2] eqn:Hrun. simpl in Hlist.
    subst r. now rewrite (getStorageStats_run _ _ _ Hrun).
  - intros Hfuse query topK threshold hits w2 Hrun.
    destruct hits as [|h hits]; [reflexivity|]. exfalso.
    destruct (search_hits_stored _ _ _ _ _ _ _ _ _ _ Hfuse Hrun h) as [r Hr];
      [left|].
    rewrite Hembs, lookup_empty in Hr. discriminate Hr.
Qed.

(** The example corpus cleared. *)
Lemma clearAllDocuments_then_reads_witness :
  let w1 := snd (clearAllDocuments Sample.stored) in
  fst (getAllDocuments w1) = Ok []
  /\ fst (getStorageStats w1)
     = Ok {| documentCount := 0; chunkCount := 0; totalSize := js "~0KB" |}.
Proof.
  intros w1.
  destruct (clearAllDocuments_succeeds Sample.stored eq_refl eq_refl)
    as ([] & w' & Hrun & _).
  assert (Hw1 : w1 = w') by (unfold w1; now rewrite Hrun).
  destruct (clearAllDocuments_then_reads float_number ascii_toLowerCase
              Sample.no_key Sample.offline Sample.fuse_all Sample.stored w'
              Hrun) as (Hlist & Hstats & _).
  rewrite Hw1. now split.
Defined.

End CorpusReads.

(** ** The document processor *)

Module ProcessorFacts.
Import JS Chunker Embedding VectorDB DocumentProcessor ChunkerShape.

Section Files.
Variable toLowerCase : jsstring -> jsstring.

Local Abbreviation getFileType := (getFileType toLowerCase).
Local Abbreviation validateFile := (validateFile toLowerCase).

Lemma extension_of_Some (file : File) :
  exists extension, extension_of toLowerCase file = Some extension.
Proof.
  unfold extension_of, split_char.
  pose proof (split_char_aux_nonempty 46%N (toLowerCase (file_name file)) [])
    as Hne.
  destruct (split_char_aux _ _ _) as [|x l] using rev_ind; [contradiction|].
  rewrite last_snoc. now eexists.
Qed.

End Files.

(** X21: [validateFile] accepts a file exactly when it is at most 10 MB
    (10485760 bytes) large and [getFileType] gives it a type, so that an
    accepted file never makes [processDocument] throw for its type; and it
    gives an error message exactly when it rejects. *)
Theorem validateFile_getFileType (toLowerCase : jsstring -> jsstring)
    (file : File) :
  (valid (validateFile toLowerCase file) = true <->
   file_size file <= 10485760
   /\ exists fileType, getFileType toLowerCase file = Returned fileType)
  /\ (valid (validateFile toLowerCase file) = true <->
      validation_error (validateFile toLowerCase file) = None).
Proof.
  unfold validateFile, getFileType. cbv zeta.
  change (10 * 1024 * 1024) with 10485760.
  destruct (extension_of_Some toLowerCase file) as [extension ->].
  cbv beta iota fix delta [existsb default from_option Datatypes.id].
  destruct (Z.ltb_spec 10485760 (file_size file)) as [Hbig|Hfits].
  { cbn [valid validation_error].
    split; split; try discriminate. intros H. destruct H as [Hle _]. lia. }
  generalize (same (file_type file) (js "application/pdf")),
    (same (file_type file)
       (js "application/vnd.openxmlformats-officedocument.wordprocessingml.document")),
    (same (file_type file) (js "text/plain")),
    (same extension (js "pdf")), (same extension (js "docx")),
    (same extension (js "txt")).
  intros [] [] [] [] [] []; cbn [orb negb valid validation_error];
    (split; split; intros H; try reflexivity; try discriminate H;
     try (split; [exact Hfits | eexists; reflexivity]);
     try (match type of H with
          | _ /\ _ => destruct H as [_ [t Ht]]; discriminate Ht
          end)).
Qed.

(** A file that only its extension, in capitals, recommends. *)
Lemma validateFile_getFileType_witness :
  valid (validateFile ascii_toLowerCase Scenes.notes_txt) = true
  /\ getFileType ascii_toLowerCase Scenes.notes_txt = Returned txt.
Proof.
  split; [|vm_compute; reflexivity].
  apply (proj1 (validateFile_getFileType ascii_toLowerCase Scenes.notes_txt)).
  split; [vm_compute; discriminate|].
  exists txt. vm_compute. reflexivity.
Defined.

Lemma In_trimStart (c : N) (s : jsstring) :
  In c s -> is_space c = false -> In c (trimStart s).
Proof.
  induction s as [|d s IH]; intros Hin Hc; simpl; [contradiction|].
  destruct (is_space d) eqn:Hd; [|exact Hin].
  destruct Hin as [->|Hin]; [congruence | now apply IH].
Qed.

(** A string with a character that is no white space is not blank. *)
Lemma trim_truthy (c : N) (s : jsstring) :
  In c s -> is_space c = false -> truthy (trim s) = true.
Proof.
  intros Hin Hc. unfold trim.
  assert (H : In c (rev (trimStart (rev (trimStart s))))).
  { apply in_rev. rewrite rev_involutive.
    apply In_trimStart; [|exact Hc]. apply -> in_rev.
    now apply In_trimStart. }
  destruct (rev _); [contradiction | reflexivity].
Qed.

Lemma add_page_app (fullText : jsstring) (i : nat) (page : page_outcome) :
  add_page fullText i page = fullText ++ add_page [] i page.
Proof.
  unfold add_page. destruct page as [|items]; [reflexivity|].
  destruct (truthy (page_text items)); [reflexivity|].
  now rewrite app_nil_r.
Qed.

Lemma add_pages_concat (fullText : jsstring) (i : nat)
    (pages : list page_outcome) :
  add_pages fullText i pages
  = fullText ++ concat (imap (fun j page => add_page [] (i + j) page) pages).
Proof.
  revert fullText i. induction pages as [|page pages IH]; intros fullText i.
  - simpl. now rewrite app_nil_r.
  - simpl. rewrite IH, add_page_app, <- app_assoc, Nat.add_0_r.
    do 3 f_equal. apply imap_ext. intros j p _. simpl. f_equal. lia.
Qed.

(** The page adds a section to the text: it threw, or it has text. *)
Local Abbreviation adds_section :=
  (fun page =>
     match page with
     | PageFails => true
     | PageItems items => truthy (page_text items)
     end).

Lemma pages_without_text (i : nat) (pages : list page_outcome) :
  existsb adds_section pages = false ->
  concat (imap (fun j page => add_page [] (i + j) page) pages) = [].
Proof.
  revert i. induction pages as [|page pages IH]; intros i H; [reflexivity|].
  simpl in H. apply orb_false_iff in H. destruct H as [Hpage Hrest].
  simpl. rewrite (imap_ext _ (fun j p => add_page [] (S i + j) p)).
  - rewrite (IH (S i) Hrest), app_nil_r.
    destruct page as [|items]; [discriminate Hpage|].
    unfold add_page. now rewrite Hpage.
  - intros j p _. simpl. f_equal. lia.
Qed.

Lemma page_with_text (i : nat) (pages : list page_outcome) :
  existsb adds_section pages = true ->
  In 91%N (concat (imap (fun j page => add_page [] (i + j) page) pages)).
Proof.
  revert i. induction pages as [|page pages IH]; intros i H;
    [discriminate H|].
  simpl in H. simpl. apply in_or_app.
  destruct (adds_section page) eqn:Hpage.
  - left. clear H. unfold add_page.
    destruct page as [|items]; [|rewrite Hpage]; right; left; reflexivity.
  - right. simpl in H.
    rewrite (imap_ext _ (fun j p => add_page [] (S i + j) p)).
    + now apply IH.
    + intros j p _. simpl. f_equal. lia.
Qed.

(** X22: in a browser, for a PDF that pdf.js opens, [extractTextFromPDF]
    returns the concatenation, in page order, of one section per page: a
    line with the page number and a line with the text of the page, or
    nothing for a page without text, or a line that says the extraction
    failed for a page that threw.  It throws only when no page gives a
    section, and then what it throws is its own no-text error behind the
    prefix of its [catch] block. *)
Theorem extractTextFromPDF_pages (pages : list page_outcome) :
  extractTextFromPDF true (PdfPages pages)
  = if existsb
         (fun page =>
            match page with
            | PageFails => true
            | PageItems items => truthy (page_text items)
            end) pages
    then Returned (concat (imap (fun i page => add_page [] (S i) page) pages))
    else Raised (ErrorObject (js "PDF processing failed: " ++ no_text_message)).
Proof.
  unfold extractTextFromPDF, extractTextFromPDF_try. cbn [negb]. cbv zeta.
  rewrite (add_pages_concat [] 1 pages). cbn [app].
  destruct (existsb _ pages) eqn:Hany.
  - rewrite (trim_truthy 91%N); [reflexivity | | reflexivity].
    exact (page_with_text 1 pages Hany).
  - rewrite (pages_without_text 1 pages Hany). reflexivity.
Qed.

Section Documents.
Context {N : Number}.
Variable toLowerCase : jsstring -> jsstring.
Variable rd : Reader.
Variable file : File.

(** The text of the file, as the [switch] of [processDocument] gets it. *)
Local Abbreviation extracted fileType :=
  (match fileType with
   | pdf => extractTextFromPDF (in_browser rd) (read_pdf rd file)
   | docx => extractTextFromDOCX (in_browser rd) (read_docx rd file)
   | txt => read_txt rd file
   end).

Lemma processDocument_Returned (document : ProcessedDocument) :
  processDocument toLowerCase rd file = Returned document ->
  exists fileType text,
    getFileType toLowerCase file = Returned fileType
    /\ extracted fileType = Returned text
    /\ document
       = {| doc_id := uuidv4 rd 0;
            name := file_name file;
            doc_type_of := fileType;
            doc_chunks :=
              imap (new_chunk rd file fileType) (chunkText_default text);
            totalPages := None;
            createdAt := now rd |}.
Proof.
  unfold processDocument, processDocument_try.
  destruct (getFileType toLowerCase file) as [fileType|t]; [|discriminate].
  cbv zeta. destruct (extracted fileType) as [text|t] eqn:Htext;
    [|discriminate].
  intros H. injection H as <-. now exists fileType, text.
Qed.

Lemma chunk_ids_lookup (fileType : doc_type) (chunks : list jsstring)
    (i : nat) (x : jsstring) :
  (uuidv4 rd 0
   :: List.map chunk_id (imap (new_chunk rd file fileType) chunks)) !! i
  = Some x ->
  x = uuidv4 rd i.
Proof.
  destruct i as [|i]; simpl; [now intros [= <-]|].
  change (List.map chunk_id ?l) with (chunk_id <$> l).
  rewrite list_lookup_fmap, list_lookup_imap.
  destruct (chunks !! i); simpl; [now intros [= <-] | discriminate].
Qed.

Lemma chunk_ids_distinct (fileType : doc_type) (chunks : list jsstring) :
  (forall i j, uuidv4 rd i = uuidv4 rd j -> i = j) ->
  NoDup (uuidv4 rd 0
         :: List.map chunk_id (imap (new_chunk rd file fileType) chunks)).
Proof.
  intros Hinj. apply NoDup_alt. intros i j x Hi Hj.
  apply chunk_ids_lookup in Hi, Hj. apply Hinj. congruence.
Qed.

End Documents.

Lemma to_uint_nonnil (n : nat) : Nat.to_uint n <> Decimal.Nil.
Proof.
  intros H. pose proof (DecimalNat.Unsigned.of_to n) as Hn.
  rewrite H in Hn. simpl in Hn. subst n. discriminate H.
Qed.

(** The decimal numerals of different numbers differ. *)
Lemma decimal_inj (i j : nat) :
  StorageStats.decimal i = StorageStats.decimal j -> i = j.
Proof.
  unfold StorageStats.decimal, js. intros Hij.
  apply (f_equal (List.map ascii_of_N)) in Hij.
  rewrite !List.map_map in Hij.
  rewrite !(List.map_ext (fun x => ascii_of_N (N_of_ascii x))
              (fun x => x)) in Hij
    by (intros a; apply ascii_N_embedding).
  rewrite !List.map_id in Hij.
  apply (f_equal string_of_list_ascii) in Hij.
  rewrite !string_of_list_ascii_of_string in Hij.
  apply (f_equal NilZero.uint_of_string) in Hij.
  rewrite !NilZero.usu in Hij
    by apply to_uint_nonnil.
  injection Hij as Hij.
  now apply DecimalNat.Unsigned.to_uint_inj.
Qed.

(** X23: when [processDocument] returns, the type of the file was
    recognised and its text extracted, and the document has the first
    identifier drawn, the name of the file, that type and the time of the
    clock; its chunks are the chunks [chunkText] makes of the text with the
    default parameters, in order, the i-th one (from 0) with the next
    identifier drawn, the file name as source, index i, the type of the
    document, no page and no embedding yet.  When the identifiers drawn
    differ, the document id and the chunk ids are pairwise distinct. *)
Theorem processDocument_document (N : Number)
    (toLowerCase : jsstring -> jsstring) (rd : Reader) (file : File)
    (document : ProcessedDocument) :
  processDocument toLowerCase rd file = Returned document ->
  exists text,
    getFileType toLowerCase file = Returned (doc_type_of document)
    /\ match doc_type_of document with
       | pdf => extractTextFromPDF (in_browser rd) (read_pdf rd file)
       | docx => extractTextFromDOCX (in_browser rd) (read_docx rd file)
       | txt => read_txt rd file
       end = Returned text
    /\ doc_id document = uuidv4 rd 0
    /\ name document = file_name file
    /\ createdAt document = now rd
    /\ List.map content (doc_chunks document) = chunkText_default text
    /\ (forall i chunk,
          doc_chunks document !! i = Some chunk ->
          chunk_id chunk = uuidv4 rd (S i)
          /\ metadata chunk
             = {| source := file_name file; page := None;
                  chunkIndex := Z.of_nat i;
                  meta_type := doc_type_of document |}
          /\ embedding chunk = None)
    /\ ((forall i j, uuidv4 rd i = uuidv4 rd j -> i = j) ->
        NoDup (doc_id document :: List.map chunk_id (doc_chunks document))).
Proof.
  intros H. apply processDocument_Returned in H.
  destruct H as (fileType & text & Htype & Htext & ->). cbn.
  exists text. split; [exact Htype|]. split; [exact Htext|].
  split; [reflexivity|]. split; [reflexivity|]. split; [reflexivity|].
  split; [|split].
  - change (List.map content ?l) with (content <$> l).
    apply list_eq. intros i. rewrite list_lookup_fmap, list_lookup_imap.
    now destruct (chunkText_default text !! i).
  - intros i chunk Hi. apply list_lookup_imap_Some in Hi.
    destruct Hi as (c & _ & ->). now repeat split.
  - apply chunk_ids_distinct.
Qed.

(** The text file of the example, read in the example browser. *)
Lemma processDocument_document_witness :
  exists document,
    processDocument (N := float_number) ascii_toLowerCase Scenes.reader
      Scenes.notes_txt = Returned document
    /\ List.map content (doc_chunks document)
       = chunkText_default Scenes.notes_text
    /\ NoDup (doc_id document :: List.map chunk_id (doc_chunks document)).
Proof.
  destruct (processDocument (N := float_number) ascii_toLowerCase
              Scenes.reader Scenes.notes_txt) as [document|t] eqn:Hrun;
    [|vm_compute in Hrun; discriminate Hrun].
  exists document. split; [reflexivity|].
  destruct (processDocument_document float_number ascii_toLowerCase
              Scenes.reader Scenes.notes_txt document Hrun)
    as (text & Htype & Htext & _ & _ & _ & Hcontents & _ & Hdistinct).
  assert (Hdoc : doc_type_of document = txt).
  { assert (Ht : getFileType ascii_toLowerCase Scenes.notes_txt
                 = Returned txt) by (vm_compute; reflexivity).
    rewrite Ht in Htype. now injection Htype. }
  rewrite Hdoc in Htext. simpl in Htext. injection Htext as <-.
  split; [exact Hcontents|].
  apply Hdistinct. intros i j Hij.
  change (js "id-" ++ StorageStats.decimal i
          = js "id-" ++ StorageStats.decimal j) in Hij.
  apply app_inv_head in Hij. now apply decimal_inj.
Defined.

(** X24: when [processDocument] throws, it throws an [Error]: either the
    bare error of [getFileType], which is raised before the [try] block
    and names the declared type, or, for a file whose type was recognised
    and whose text could not be extracted, an error that names the file
    and carries the message of the cause. *)
Theorem processDocument_error (N : Number)
    (toLowerCase : jsstring -> jsstring) (rd : Reader) (file : File)
    (t : thrown) :
  processDocument toLowerCase rd file = Raised t ->
  (getFileType toLowerCase file = Raised t
   /\ t = ErrorObject (js "Unsupported file type: " ++ file_type file))
  \/ exists fileType reason,
       getFileType toLowerCase file = Returned fileType
       /\ match fileType with
          | pdf => extractTextFromPDF (in_browser rd) (read_pdf rd file)
          | docx => extractTextFromDOCX (in_browser rd) (read_docx rd file)
          | txt => read_txt rd file
          end = Raised reason
       /\ t = ErrorObject
                (js "Failed to process " ++ file_name file ++ js ": "
                   ++ message_or (js "Unknown error") reason).
Proof.
  unfold processDocument, processDocument_try.
  destruct (getFileType toLowerCase file) as [fileType|t0] eqn:Htype.
  - cbv zeta.
    destruct (match fileType with
              | pdf => extractTextFromPDF (in_browser rd) (read_pdf rd file)
              | docx =>
                  extractTextFromDOCX (in_browser rd) (read_docx rd file)
              | txt => read_txt rd file
              end) as [text|reason] eqn:Htext; [discriminate|].
    intros H. injection H as <-. right. now exists fileType, reason.
  - intros H. injection H as <-. left. split; [reflexivity|].
    revert Htype. unfold getFileType.
    repeat match goal with
           | |- context [if ?b then _ else _] => destruct b
           | |- context [match ?o with Some _ => _ | None => _ end] =>
               destruct o
           end; intros Htype; try discriminate Htype;
      now injection Htype as <-.
Qed.

(** A PDF without text, in the example browser: the no-text error of the
    extraction, behind its prefix and behind the name of the file. *)
Lemma processDocument_error_witness :
  processDocument (N := float_number) ascii_toLowerCase Scenes.reader
    Scenes.scan_pdf
  = Raised
      (ErrorObject
         (js "Failed to process scan.pdf: PDF processing failed: "
            ++ no_text_message)).
Proof.
  destruct (processDocument (N := float_number) ascii_toLowerCase
              Scenes.reader Scenes.scan_pdf) as [document|t] eqn:Hrun;
    [vm_compute in Hrun; discriminate Hrun|].
  destruct (processDocument_error float_number ascii_toLowerCase
              Scenes.reader Scenes.scan_pdf t Hrun)
    as [(Htype & _)|(fileType & reason & Htype & Htext & ->)].
  - vm_compute in Htype. discriminate Htype.
  - assert (Ht : getFileType ascii_toLowerCase Scenes.scan_pdf
                 = Returned pdf) by (vm_compute; reflexivity).
    rewrite Ht in Htype. injection Htype as <-.
    vm_compute in Htext. injection Htext as <-. vm_compute. reflexivity.
Defined.

End ProcessorFacts.

(** ** From a file to the corpus *)

Module Ingest.
Import JS Chunker Embedding VectorDB VectorDBFacts DocumentProcessor.
Import CorpusStore ProcessorFacts.

(** X25: a file processed by [processDocument] and stored by
    [storeDocument], the identifiers drawn being distinct: every chunk
    [chunkText] makes of the text of the file is in the embeddings
    collection, under the identifier drawn for it, with the id of the
    document, the name of the file as source, its index and an embedding of
    3072 entries; and a consistent corpus that did not hold the document id
    stays consistent. *)
Theorem processDocument_storeDocument (N : Number)
    (toLowerCase : jsstring -> jsstring)
    (AZURE_OPENAI_API_KEY : option jsstring)
    (fetch_embedding : jsstring -> remote_outcome)
    (rd : Reader) (file : File) (document : ProcessedDocument)
    (w w' : World) :
  (forall i j, uuidv4 rd i = uuidv4 rd j -> i = j) ->
  processDocument toLowerCase rd file = Returned document ->
  storeDocument toLowerCase AZURE_OPENAI_API_KEY fetch_embedding document w
  = (Ok tt, w') ->
  exists fileType text,
    getFileType toLowerCase file = Returned fileType
    /\ match fileType with
       | pdf => extractTextFromPDF (in_browser rd) (read_pdf rd file)
       | docx => extractTextFromDOCX (in_browser rd) (read_docx rd file)
       | txt => read_txt rd file
       end = Returned text
    /\ (forall i piece,
          chunkText_default text !! i = Some piece ->
          exists r e,
            embeddingsDB w' !! uuidv4 rd (S i) = Some r
            /\ documentId r = uuidv4 rd 0
            /\ emb_content r = piece
            /\ emb_metadata r
               = {| source := file_name file; page := None;
                    chunkIndex := Z.of_nat i; meta_type := fileType |}
            /\ emb_embedding r = Some e /\ length e = 3072%nat)
    /\ (documentsDB w !! uuidv4 rd 0 = None ->
        corpus_consistent w -> corpus_consistent w').
Proof.
  intros Hinj Hprocess Hstore.
  apply processDocument_Returned in Hprocess.
  destruct Hprocess as (fileType & text & Htype & Htext & ->).
  exists fileType, text. split; [exact Htype|]. split; [exact Htext|].
  destruct (storeDocument_records _ _ _ _ _ _ _ Hstore)
    as (_ & _ & _ & Hrec).
  cbn [doc_chunks doc_id] in Hrec. split.
  - intros i piece Hi.
    destruct (Hrec (new_chunk rd file fileType i piece))
      as (r & e & Hl & Hid & He & Hlen & Hown).
    { apply (elem_of_lookup_imap_2 _ _ _ _ Hi). }
    exists r, e. simpl in Hl. split; [exact Hl|]. split; [exact Hid|].
    destruct Hown as (Hc & Hm).
    { pose proof (chunk_ids_distinct rd file fileType
                    (chunkText_default text) Hinj) as Hnd.
      now apply NoDup_cons in Hnd as (_ & Hnd). }
    now repeat split.
  - intros Hfresh Hcons.
    eapply storeDocument_consistent; [|exact Hcons|exact Hstore].
    exact Hfresh.
Qed.

(** The text file of the example, processed in the example browser and
    stored in an empty corpus. *)
Lemma processDocument_storeDocument_witness :
  exists document w' r,
    processDocument (N := float_number) ascii_toLowerCase Scenes.reader
      Scenes.notes_txt = Returned document
    /\ storeDocument ascii_toLowerCase Sample.no_key Sample.offline document
         Sample.browser = (Ok tt, w')
    /\ embeddingsDB w' !! js "id-1" = Some r
    /\ emb_content r
       = js "The constitution of india. Fundamental rights and duties.".
Proof.
  destruct (processDocument (N := float_number) ascii_toLowerCase
              Scenes.reader Scenes.notes_txt) as [document|t] eqn:Hrun;
    [|vm_compute in Hrun; discriminate Hrun].
  destruct (storeDocument_succeeds ascii_toLowerCase Sample.no_key
              Sample.offline document Sample.browser eq_refl eq_refl)
    as ([] & w' & Hstore & _).
  destruct (processDocument_storeDocument float_number ascii_toLowerCase
              Sample.no_key Sample.offline Scenes.reader Scenes.notes_txt
              document Sample.browser w')
    as (fileType & text & Htype & Htext & Hrec & _).
  - intros i j Hij.
    change (js "id-" ++ StorageStats.decimal i
            = js "id-" ++ StorageStats.decimal j) in Hij.
    apply app_inv_head in Hij. now apply decimal_inj.
  - exact Hrun.
  - exact Hstore.
  - assert (Ht : getFileType ascii_toLowerCase Scenes.notes_txt
                 = Returned txt) by (vm_compute; reflexivity).
    rewrite Ht in Htype. injection Htype as <-.
    simpl in Htext. injection Htext as <-.
    destruct (Hrec 0%nat
                (js "The constitution of india. Fundamental rights and duties."))
      as (r & e & Hl & _ & Hc & _); [vm_compute; reflexivity|].
    exists document, w', r. now repeat split.
Defined.

End Ingest.

(** ** The chat page: the context of a message *)

Module ChatFacts.
Import JS Embedding EmbeddingFacts VectorDB VectorDBFacts DocumentProcessor.
Import Hits Chat CorpusReads.

Section Retrieval.
Context {N : Number}.
Variable toLowerCase : jsstring -> jsstring.
Variable AZURE_OPENAI_API_KEY : option jsstring.
Variable fetch_embedding : jsstring -> remote_outcome.
Variable fuse_search : list DocumentChunk -> jsstring -> list DocumentChunk.

Local Abbreviation search :=
  (searchSimilarChunks toLowerCase AZURE_OPENAI_API_KEY fetch_embedding
     fuse_search).

Lemma slice_to_length {A} (n : Z) (l : list A) :
  0 <= n -> (length (slice_to n l) <= Z.to_nat n)%nat.
Proof.
  intros Hn. rewrite slice_to_take by exact Hn. rewrite length_take. lia.
Qed.

(** A search returns at most [topK] hits. *)
Lemma search_length (query : jsstring) (topK : Z) (threshold : num)
    w hits w' :
  0 <= topK ->
  search query topK threshold w = (Ok hits, w') ->
  (length hits <= Z.to_nat topK)%nat.
Proof.
  intros Hk Hrun.
  assert (Hlexical : forall w0,
             (length (lexical_hits fuse_search query topK w0)
              <= Z.to_nat topK)%nat).
  { intros w0. unfold lexical_hits. rewrite length_map.
    now apply slice_to_length. }
  destruct (search_run toLowerCase AZURE_OPENAI_API_KEY fetch_embedding
              fuse_search query topK threshold w) as (qv & _ & Hcases).
  cbv zeta in Hcases.
  destruct (window_defined w && negb (hd false (faults w))).
  - destruct (length _ =? 0)%nat.
    + destruct (Hcases _ _ Hrun) as (_ & _ & Hhits).
      rewrite (Hhits hits eq_refl). apply Hlexical.
    + rewrite Hcases in Hrun. injection Hrun as <- <-.
      rewrite length_map. now apply slice_to_length.
  - destruct Hcases as (w0 & _ & _ & Hfb).
    destruct (Hfb _ _ Hrun) as (_ & _ & Hhits).
    rewrite (Hhits hits eq_refl). apply Hlexical.
Qed.

End Retrieval.

Lemma starts_with_app (needle rest : jsstring) :
  starts_with needle (needle ++ rest) = true.
Proof.
  induction needle as [|c needle IH]; simpl; [reflexivity|].
  now rewrite N.eqb_refl.
Qed.

(** A string includes each of its substrings. *)
Lemma includes_app (needle before after : jsstring) :
  includes needle (before ++ needle ++ after) = true.
Proof.
  induction before as [|c before IH].
  - assert (Hhere : forall s, starts_with needle s = true ->
                              includes needle s = true)
      by (intros [|c s] Hs; simpl; now rewrite Hs).
    cbn [app]. apply Hhere, starts_with_app.
  - simpl. rewrite IH. apply orb_true_r.
Qed.

Lemma join_imap_piece {A} (sep : jsstring) (f : nat -> A -> jsstring)
    (l : list A) (i : nat) (x : A) :
  l !! i = Some x ->
  exists before after, join sep (imap f l) = before ++ f i x ++ after.
Proof.
  revert f i. induction l as [|y l IH]; intros f i Hi; [discriminate Hi|].
  destruct i as [|i]; simpl in Hi.
  - injection Hi as ->. exists []. simpl.
    destruct (imap (f ∘ S) l); [exists []; now rewrite app_nil_r|].
    now eexists.
  - destruct (IH (f ∘ S) i Hi) as (before & after & Hj). simpl.
    destruct (imap (f ∘ S) l) as [|z zs] eqn:Hz.
    + destruct l; [discriminate Hi | discriminate Hz].
    + exists (f 0%nat y ++ sep ++ before), after.
      rewrite Hj. unfold compose. now rewrite <- !app_assoc.
Qed.

(** X26: the search for the context of a message never throws: a search
    that fails gives no context.  It gives at most three hits, each a
    record of the embeddings collection (the text index returning only
    items it was given), and leaves the corpus as it is.  With the document
    search switched off, or no document listed on the page, nothing is
    searched. *)
Theorem ragContext_outcome (N : Number)
    (toLowerCase : jsstring -> jsstring)
    (AZURE_OPENAI_API_KEY : option jsstring)
    (fetch_embedding : jsstring -> remote_outcome)
    (fuse_search : list DocumentChunk -> jsstring -> list DocumentChunk)
    (default_threshold : num) (ragEnabled : bool)
    (documents : list ProcessedDocument) (currentInput : jsstring)
    (w : World) :
  let run :=
    ragContext toLowerCase AZURE_OPENAI_API_KEY fetch_embedding fuse_search
      default_threshold ragEnabled documents currentInput in
  (exists hits,
     fst (run w) = Ok hits
     /\ (length hits <= 3)%nat
     /\ (returns_indexed_items fuse_search -> Forall (hit_reflects w) hits))
  /\ same_dbs w (snd (run w))
  /\ (ragEnabled = false \/ documents = [] -> run w = (Ok [], w)).
Proof.
  intros run. unfold run, ragContext.
  assert (Hnone : forall w0 : World,
             exists hits : list SearchHit,
               Ok [] = Ok hits /\ (length hits <= 3)%nat
               /\ (returns_indexed_items fuse_search ->
                   Forall (hit_reflects w0) hits)).
  { intros w0. exists []. split; [reflexivity|]. split; [simpl; lia|].
    intros _. constructor. }
  destruct ragEnabled; [destruct documents as [|document documents]|];
    cbn [andb Nat.ltb Nat.leb length].
  - split; [apply Hnone|].
    split; [apply same_dbs_refl | reflexivity].
  - unfold try_catch.
    destruct (searchSimilarChunks _ _ _ _ _ _ _ w) as [[hits|e] w'] eqn:Hrun.
    + split; [exists hits; split; [reflexivity|split]|split].
      * change 3%nat with (Z.to_nat 3).
        eapply search_length; [|exact Hrun]. lia.
      * intros Hfuse.
        apply (search_hits_reflect _ _ _ _ _ _ _ _ _ _ _ Hfuse Hrun).
      * apply (searchSimilarChunks_reads_only _ _ _ _ _ _ _ _ _ _ Hrun).
      * intros [H|H]; discriminate H.
    + split; [apply Hnone|].
      split.
      * apply (searchSimilarChunks_reads_only _ _ _ _ _ _ _ _ _ _ Hrun).
      * intros [H|H]; discriminate H.
  - split; [apply Hnone|].
    split; [apply same_dbs_refl | reflexivity].
Qed.

(** The example corpus, and a page that lists no document. *)
Lemma ragContext_outcome_witness :
  ragContext ascii_toLowerCase Sample.no_key Sample.offline Sample.fuse_all
    0x1.3333333333333p-2%float true [] (js "rights") Sample.stored
  = (Ok [], Sample.stored).
Proof.
  apply (ragContext_outcome float_number ascii_toLowerCase Sample.no_key
           Sample.offline Sample.fuse_all 0x1.3333333333333p-2%float true []
           (js "rights") Sample.stored).
  now right.
Defined.

(** X27: what is sent for a message is the conversation so far and the
    message, in order, each with its role and content; when there is
    context, a system message comes first, in which every hit occurs as a
    reference with its number (from 1, in the order of the hits), its
    source and its content; without context nothing is added. *)
Theorem contextualMessages_prompt (N : Number) (messages : list Message)
    (userMessage : Message) (context : list SearchHit) :
  let conversation :=
    List.map
      (fun msg => {| prompt_role := msg_role msg;
                     prompt_content := msg_content msg |})
      (messages ++ [userMessage]) in
  let prompt := contextualMessages messages userMessage context in
  match context with
  | [] => prompt = conversation
  | _ :: _ =>
      exists instructions,
        prompt = instructions :: conversation
        /\ prompt_role instructions = system
        /\ forall i hit,
             context !! i = Some hit ->
             includes (reference i hit) (prompt_content instructions) = true
  end.
Proof.
  intros conversation prompt. unfold prompt, contextualMessages.
  destruct context as [|hit0 context]; [reflexivity|].
  cbn [length Nat.ltb Nat.leb].
  eexists. split; [reflexivity|]. split; [reflexivity|].
  intros i hit Hi. unfold ragSystemMessage. cbv zeta.
  cbn [prompt_content].
  destruct (join_imap_piece [10%N; 10%N] reference _ _ _ Hi)
    as (before & after & ->).
  rewrite <- !app_assoc, !app_assoc, <- !app_assoc.
  rewrite (app_assoc _ [10%N; 10%N]), (app_assoc _ before).
  apply includes_app.
Qed.

(** One hit: the first chunk of the example document. *)
Lemma contextualMessages_prompt_witness :
  let hit : SearchHit (N := float_number) :=
    {| hit_chunk := Sample.chunk1; similarity := None |} in
  exists instructions,
    contextualMessages []
      {| msg_id := js "1"; msg_role := user; msg_content := js "polity?";
         timestamp := 0; msg_ragContext := None |} [hit]
    = [instructions;
       {| prompt_role := user; prompt_content := js "polity?" |}]
    /\ includes
         (js "**Reference 1 (notes.txt):**" ++ [10%N]
            ++ js "the constitution of india")
         (prompt_content instructions) = true.
Proof.
  intros hit.
  destruct (contextualMessages_prompt float_number []
              {| msg_id := js "1"; msg_role := user;
                 msg_content := js "polity?"; timestamp := 0;
                 msg_ragContext := None |} [hit])
    as (instructions & Hprompt & _ & Hrefs).
  exists instructions. split; [exact Hprompt|].
  apply (Hrefs 0%nat hit). reflexivity.
Defined.

End ChatFacts.
